(** * integration/nwo/configblock.go: configuration updates of a channel

    A shallow embedding of the configuration-update helpers of the [nwo]
    integration package: the consenter mutators ([AddConsenter],
    [RemoveConsenter]), the read-modify-write of the consensus metadata
    ([UpdateConsensusMetadata]) and the sign / submit / await flow
    ([UpdateConfig], [UpdateOrdererConfig], [CurrentConfigBlockNumber]).

    Go values reached through pointers live in an explicit object store;
    every call that leaves the process (a peer or orderer command, a file
    access) is answered by an environment and recorded in a log; a failed
    gomega expectation or a Go panic ends the run with a [Failure]. *)

From Stdlib Require Import ZArith NArith.
From Stdlib.Strings Require Import Byte.
From stdpp Require Import base option list strings gmap fin_maps.


(** ** Byte slices *)

#[global] Instance byte_eq_dec : EqDecision Byte.byte := Byte.byte_eq_dec.

(** A Go [[]byte]; a nil slice and an empty slice are both the empty list. *)
Abbreviation bytes := (list Byte.byte).

(** [bytes.Equal]: same length and same bytes (nil equals empty). *)
Definition bytes_Equal (a b : bytes) : bool := bool_decide (a = b).

(** ** Failures

    What ends a run early: the gomega expectation that did not hold, or the
    Go run-time panic. *)
Inductive Failure :=
  | DecodeError          (* Expect(err) after proto.Unmarshal / utils.Unmarshal*  *)
  | EncodeError          (* Expect(err) after proto.Marshal, or MarshalOrPanic    *)
  | NilDereference       (* field access through a nil pointer                    *)
  | IndexOutOfRange      (* Data.Data[0] on an empty slice                        *)
  | IOError              (* Expect(err) after TempDir / WriteFile / ReadFile      *)
  | SessionError         (* Expect(err) after PeerAdminSession and the like       *)
  | ExitError            (* Eventually(sess).Should(gexec.Exit(0)) did not hold    *)
  | OutputMismatch       (* Expect(sess.Err).To(gbytes.Say(...)) did not hold      *)
  | ComputeError         (* Expect(err) after update.Compute                      *)
  | EnvelopeError        (* Expect(err) / NotTo(BeNil()) after CreateSignedEnvelope *)
  | TimeoutError.        (* Eventually(ccb).Should(BeNumerically(">", n)) timed out *)

#[global] Instance Failure_eq_dec : EqDecision Failure.
Proof. solve_decision. Defined.

Inductive result (A : Type) :=
  | Ok (a : A)
  | Err (f : Failure).
Arguments Ok {A} a.
Arguments Err {A} f.

Definition result_bind {A B} (r : result A) (k : A → result B) : result B :=
  match r with
  | Ok a => k a
  | Err f => Err f
  end.

(** [Expect(err).NotTo(HaveOccurred())] on a call returning [(value, err)]. *)
Definition expect {A} (f : Failure) (o : option A) : result A :=
  match o with
  | Some a => Ok a
  | None => Err f
  end.

#[global] Instance result_mbind : MBind result := λ A B k r, result_bind r k.
#[global] Instance result_mret : MRet result := λ A a, Ok a.

(** ** Protocol buffers

    [proto.Marshal] and [proto.Unmarshal] belong to the protobuf library;
    the development is parametric in them, one instance per message type. *)
Class ProtoMessage (A : Type) := {
  Marshal : A → option bytes;
  Unmarshal : bytes → option A
}.

(** The two facts about the library the results on consenters rest on:
    a message built in memory can be encoded, and decoding an encoding gives
    the message back. *)
Class ProtoLaws (A : Type) `{ProtoMessage A} := {
  Marshal_total : ∀ a : A, is_Some (Marshal a);
  Unmarshal_Marshal : ∀ (a : A) (b : bytes), Marshal a = Some b → Unmarshal b = Some a
}.

(** [utils.MarshalOrPanic]. *)
Definition MarshalOrPanic `{ProtoMessage A} (pb : A) : result bytes :=
  expect EncodeError (Marshal pb).

(** ** etcdraft messages

    The generated declarations ([protos/orderer/etcdraft]) are not among the
    sources; the fields are those of the [Consenter] and [Metadata] messages,
    of which the code reads [ClientTlsCert], [ServerTlsCert] and
    [Consenters]. [Options] is carried through unread, as its encoding. *)
Record Consenter := mkConsenter {
  Host : string;
  Port : N;
  ClientTlsCert : bytes;
  ServerTlsCert : bytes
}.

#[global] Instance Consenter_eq_dec : EqDecision Consenter.
Proof. solve_decision. Defined.

Record Metadata := mkMetadata {
  Consenters : list Consenter;
  Options : option bytes
}.

#[global] Instance Metadata_eq_dec : EqDecision Metadata.
Proof. solve_decision. Defined.

(** [metadata.Consenters = cs]. *)
Definition set_Consenters (cs : list Consenter) (metadata : Metadata) : Metadata :=
  {| Consenters := cs; Options := Options metadata |}.

(** ** Consenter mutators *)

(** [ConsensusMetadataMutator]: receives [ConsensusType.Metadata] and returns
    the new metadata; the expectations inside the closures may fail. *)
Definition ConsensusMetadataMutator := bytes → result bytes.

Section Mutators.
Context `{!ProtoMessage Metadata}.

(** The closure [AddConsenter] hands to [UpdateConsensusMetadata]. *)
Definition AddConsenter_mutator (consenter : Consenter) : ConsensusMetadataMutator :=
  λ originalMetadata,
    metadata ← expect DecodeError (Unmarshal originalMetadata);
    let metadata := set_Consenters (Consenters metadata ++ [consenter]) metadata in
    newMetadata ← expect EncodeError (Marshal metadata);
    Ok newMetadata.

(** The test of the loop in [RemoveConsenter]. *)
Definition matches_certificate (certificate : bytes) (consenter : Consenter) : bool :=
  bytes_Equal (ClientTlsCert consenter) certificate
  || bytes_Equal (ServerTlsCert consenter) certificate.

(** The loop of [RemoveConsenter]: one pass over [metadata.Consenters],
    skipping ([continue]) the matching records and appending the others. *)
Definition RemoveConsenter_loop (certificate : bytes) (consenters : list Consenter)
    : list Consenter :=
  foldl (λ newConsenters consenter,
           if matches_certificate certificate consenter
           then newConsenters
           else newConsenters ++ [consenter])
        [] consenters.

(** The closure [RemoveConsenter] hands to [UpdateConsensusMetadata]. *)
Definition RemoveConsenter_mutator (certificate : bytes) : ConsensusMetadataMutator :=
  λ originalMetadata,
    metadata ← expect DecodeError (Unmarshal originalMetadata);
    let newConsenters := RemoveConsenter_loop certificate (Consenters metadata) in
    let metadata := set_Consenters newConsenters metadata in
    newMetadata ← expect EncodeError (Marshal metadata);
    Ok newMetadata.
End Mutators.

(** ** A reference wire format

    A small self-delimiting encoding of [Metadata], used to run the mutators
    on concrete payloads: a number is written in binary, one byte per digit,
    lowest digit first, and a byte string is its length followed by its bytes. *)
Module Wire.
Definition parser (A : Type) := bytes → option (A * bytes).

Fixpoint put_positive (p : positive) : bytes :=
  match p with
  | xH => [x00]
  | xO p => x01 :: put_positive p
  | xI p => x02 :: put_positive p
  end.

Fixpoint get_positive (b : bytes) : option (positive * bytes) :=
  match b with
  | x00 :: rest => Some (xH, rest)
  | x01 :: rest =>
      match get_positive rest with
      | Some (p, rest') => Some (xO p, rest')
      | None => None
      end
  | x02 :: rest =>
      match get_positive rest with
      | Some (p, rest') => Some (xI p, rest')
      | None => None
      end
  | _ => None
  end.

Definition put_N (n : N) : bytes :=
  match n with
  | N0 => [x03]
  | Npos p => put_positive p
  end.

Definition get_N : parser N := λ b,
  match b with
  | x03 :: rest => Some (N0, rest)
  | _ => '(p, rest) ← get_positive b; Some (Npos p, rest)
  end.

Definition put_nat (n : nat) : bytes := put_N (N.of_nat n).

Definition get_nat : parser nat := λ b,
  '(n, rest) ← get_N b; Some (N.to_nat n, rest).

Definition put_bytes (s : bytes) : bytes := put_nat (length s) ++ s.

Definition get_bytes : parser bytes := λ b,
  '(n, rest) ← get_nat b;
  if decide (n ≤ length rest) then Some (take n rest, drop n rest) else None.

Definition put_Consenter (c : Consenter) : bytes :=
  put_bytes (String.list_byte_of_string (Host c))
  ++ put_N (Port c)
  ++ put_bytes (ClientTlsCert c)
  ++ put_bytes (ServerTlsCert c).

Definition get_Consenter : parser Consenter := λ b,
  '(host, b) ← get_bytes b;
  '(port, b) ← get_N b;
  '(client, b) ← get_bytes b;
  '(server, b) ← get_bytes b;
  Some (mkConsenter (String.string_of_list_byte host) port client server, b).

Fixpoint get_Consenters (count : nat) : parser (list Consenter) := λ b,
  match count with
  | O => Some ([], b)
  | S count =>
      '(c, b) ← get_Consenter b;
      '(cs, b) ← get_Consenters count b;
      Some (c :: cs, b)
  end.

Definition put_Options (o : option bytes) : bytes :=
  match o with
  | None => [x00]
  | Some s => x01 :: put_bytes s
  end.

Definition get_Options : parser (option bytes) := λ b,
  match b with
  | x00 :: rest => Some (None, rest)
  | x01 :: rest => '(s, rest') ← get_bytes rest; Some (Some s, rest')
  | _ => None
  end.

Definition put_Metadata (m : Metadata) : bytes :=
  put_nat (length (Consenters m))
  ++ concat (put_Consenter <$> Consenters m)
  ++ put_Options (Options m).

Definition get_Metadata (b : bytes) : option Metadata :=
  '(count, b) ← get_nat b;
  '(cs, b) ← get_Consenters count b;
  '(o, b) ← get_Options b;
  match b with
  | [] => Some (mkMetadata cs o)
  | _ => None
  end.

#[global] Instance Metadata_message : ProtoMessage Metadata := {|
  Marshal m := Some (put_Metadata m);
  Unmarshal := get_Metadata
|}.

(** Three consenters with certificates of their own, and a payload that
    decodes to the first two. *)
Definition consenterA : Consenter := mkConsenter "a.example.com" 7050 [x0a] [x1a].
Definition consenterB : Consenter := mkConsenter "b.example.com" 7050 [x0b] [x1b].
Definition consenterC : Consenter := mkConsenter "c.example.com" 7050 [x0c] [x1c].
Definition metadataAB : Metadata := mkMetadata [consenterA; consenterB] None.
Definition payloadAB : bytes := put_Metadata metadataAB.
End Wire.

(** ** Channel configuration messages

    The generated declarations ([protos/common], [protos/orderer]) are not
    among the sources; the records below carry the fields the code reads or
    writes, each message in a module of its name. A Go map from names to
    message pointers is a finite map; a key that is absent reads as the nil
    pointer. *)
Module ConfigValue.
Record t := mk {
  Version : N;
  Value : bytes;
  ModPolicy : string
}.
End ConfigValue.

Module ConfigPolicy.
Record t := mk {
  Version : N;
  Policy : option (Z * bytes);
  ModPolicy : string
}.
End ConfigPolicy.

Module ConfigGroup.
#[warnings="-register-all"] Inductive t := mk {
  Version : N;
  Groups : gmap string t;
  Values : gmap string ConfigValue.t;
  Policies : gmap string ConfigPolicy.t;
  ModPolicy : string
}.

(** [group.Groups = gs] and [group.Values = vs]. *)
Definition set_Groups (gs : gmap string t) (g : t) : t :=
  mk (Version g) gs (Values g) (Policies g) (ModPolicy g).
Definition set_Values (vs : gmap string ConfigValue.t) (g : t) : t :=
  mk (Version g) (Groups g) vs (Policies g) (ModPolicy g).
End ConfigGroup.

Module Config.
Record t := mk {
  Sequence : N;
  ChannelGroup : option ConfigGroup.t
}.
End Config.

Module ConfigEnvelope.
Record t := mk {
  Config : option Config.t;
  LastUpdate : option bytes
}.
End ConfigEnvelope.

Module ConfigUpdate.
Record t := mk {
  ChannelId : string;
  ReadSet : option ConfigGroup.t;
  WriteSet : option ConfigGroup.t
}.

(** [configUpdate.ChannelId = channel]. *)
Definition set_ChannelId (channel : string) (u : t) : t :=
  mk channel (ReadSet u) (WriteSet u).
End ConfigUpdate.

Module ConfigUpdateEnvelope.
Record t := mk {
  ConfigUpdate : bytes;
  Signatures : list (bytes * bytes)
}.
End ConfigUpdateEnvelope.

Module ConsensusType.
Record t := mk {
  Type_ : string;
  Metadata : bytes
}.

(** [consensusTypeValue.Metadata = m]. *)
Definition set_Metadata (m : bytes) (c : t) : t := mk (Type_ c) m.
End ConsensusType.

(** ** Blocks and envelopes *)
Inductive HeaderType :=
  | HeaderType_MESSAGE
  | HeaderType_CONFIG
  | HeaderType_CONFIG_UPDATE
  | HeaderType_ENDORSER_TRANSACTION
  | HeaderType_ORDERER_TRANSACTION
  | HeaderType_DELIVER_SEEK_INFO
  | HeaderType_CHAINCODE_PACKAGE.

#[global] Instance HeaderType_eq_dec : EqDecision HeaderType.
Proof. solve_decision. Defined.

Module ChannelHeader.
Record t := mk {
  Type_ : HeaderType;
  Version : Z;
  Timestamp : N;
  ChannelId : string;
  Epoch : N
}.
End ChannelHeader.

Module SignatureHeader.
Record t := mk {
  Creator : bytes;
  Nonce : bytes
}.
End SignatureHeader.

Module Payload.
Record t := mk {
  ChannelHeader : ChannelHeader.t;
  SignatureHeader : SignatureHeader.t;
  Data : bytes
}.
End Payload.

Module Envelope.
Record t := mk {
  Payload : bytes;
  Signature : bytes
}.
End Envelope.

Module BlockHeader.
Record t := mk {
  Number : N;
  PreviousHash : bytes;
  DataHash : bytes
}.
End BlockHeader.

Module Block.
Record t := mk {
  Header : option BlockHeader.t;
  Data : option (list bytes);
  Metadata : option (list bytes)
}.
End Block.

(** [crypto.LocalSigner]: the identity that goes into the signature header
    and the signing function. *)
Record LocalSigner := mkLocalSigner {
  NewSignatureHeader : option SignatureHeader.t;
  Sign : bytes → option bytes
}.

(** Modelled from the spec: [utils.CreateSignedEnvelope] ([protos/utils]) is
    not among the sources. Following the envelope builder of the
    specification, it serializes the message, stamps the header with the type
    tag, the channel, the message version, the epoch and the time, and has
    the signer, when there is one, sign the serialized payload; without a
    signer there is nobody to sign, and the signature stays empty. *)
Definition CreateSignedEnvelope `{!ProtoMessage A} `{!ProtoMessage Payload.t}
    (txType : HeaderType) (channelID : string) (signer : option LocalSigner)
    (dataMsg : A) (msgVersion : Z) (epoch : N) (now : N) : option Envelope.t :=
  let payloadChannelHeader := ChannelHeader.mk txType msgVersion now channelID epoch in
  payloadSignatureHeader ←
    match signer with
    | Some s => NewSignatureHeader s
    | None => Some (SignatureHeader.mk [] [])
    end;
  data ← Marshal dataMsg;
  paylBytes ← Marshal (Payload.mk payloadChannelHeader payloadSignatureHeader data);
  sig ←
    match signer with
    | Some s => Sign s paylBytes
    | None => Some []
    end;
  Some (Envelope.mk paylBytes sig).

(** ** Commands run through a peer or an orderer ([nwo/commands]) *)
Inductive Command :=
  | ChannelFetch (ChannelID Block Orderer OutputFile : string)
  | SignConfigTx (File : string)
  | ChannelUpdate (ChannelID Orderer File : string).

#[global] Instance Command_eq_dec : EqDecision Command.
Proof. solve_decision. Defined.

(** A [gexec.Session] as the expectations see it: the exit code, when the
    process has exited before [EventuallyTimeout], and what it wrote to its
    standard error. *)
Record Session := mkSession {
  ExitCode : option Z;
  Err_buffer : string
}.

#[global] Instance Session_eq_dec : EqDecision Session.
Proof. solve_decision. Defined.

(** [gbytes.Say] for a pattern without metacharacters: the text occurs in the
    buffer. *)
Fixpoint Say (pattern buffer : string) : bool :=
  if String.prefix pattern buffer then true
  else match buffer with
       | EmptyString => false
       | String _ rest => Say pattern rest
       end.

(** [filepath.Join] of a directory and a file name. *)
Definition filepath_Join (dir name : string) : string :=
  (dir +:+ "/" +:+ name)%string.

(** ** The run-time: environment, object store, log

    [Peer] and [Orderer] are the node descriptions of the package; [World] is
    whatever the network and the file system of a test run consist of. *)
Section Flow.
Context {Peer Orderer World : Type}.
Context `{!ProtoMessage Block.t, !ProtoMessage Envelope.t, !ProtoMessage Payload.t}.
Context `{!ProtoMessage ConfigEnvelope.t, !ProtoMessage ConfigUpdate.t}.
Context `{!ProtoMessage ConfigUpdateEnvelope.t, !ProtoMessage ConsensusType.t}.
Context `{!ProtoMessage Metadata}.

(** [update.Compute] ([common/tools/configtxlator/update]) on the two
    configurations its arguments point to. *)
Context (Compute : Config.t → Config.t → option ConfigUpdate.t).

(** The operating system: [ioutil.TempDir], [os.RemoveAll],
    [ioutil.WriteFile], [ioutil.ReadFile] and the clock. *)
Record System := mkSystem {
  TempDir : string → World → option string * World;
  RemoveAll : string → World → World;
  WriteFile : string → bytes → World → bool * World;
  ReadFile : string → World → option bytes * World;
  Now : World → N
}.
Context (os : System).

(** The [Network] under test: how long [Eventually] keeps polling (counted in
    polls after the first), the listen address of an orderer, and the
    sessions that run a command as the administrator of a peer or of an
    orderer; a session that cannot be started is the [err] of the call. *)
Record Network := mkNetwork {
  EventuallyTimeout : nat;
  OrdererAddress : Orderer → string;
  PeerAdminSession : Peer → Command → World → option Session * World;
  OrdererAdminSession : Orderer → Peer → Command → World → option Session * World
}.

(** What a run logs: every call that left the process, with its
    answer, and the two configurations handed to [update.Compute]. *)
Inductive Event :=
  | TempDir_event (prefix : string) (dir : option string)
  | RemoveAll_event (path : string)
  | WriteFile_event (path : string) (data : bytes) (ok : bool)
  | ReadFile_event (path : string) (data : option bytes)
  | PeerAdminSession_event (peer : Peer) (command : Command) (sess : option Session)
  | OrdererAdminSession_event (orderer : Orderer) (peer : Peer) (command : Command)
      (sess : option Session)
  | Compute_event (current updated : Config.t).

(** A [*common.Config]: nil, or the address of a configuration in the store.
    A decoded or cloned message owns its sub-messages (nothing else points
    into it), so the store keeps one configuration tree per pointer, and an
    assignment through a pointer is seen through every copy of that pointer. *)
Definition ptr := option positive.

Record State := mkState {
  world : World;
  store : gmap positive Config.t
}.

(** What a run comes to: its result, the state it leaves and the events it
    has logged, oldest first. *)
Record Outcome (A : Type) := mkOutcome {
  res : result A;
  final : State;
  emitted : list Event
}.
Arguments mkOutcome {A} res final emitted.
Arguments res {A} o.
Arguments final {A} o.
Arguments emitted {A} o.

Definition run (A : Type) : Type := State → Outcome A.

#[global] Instance run_mret : MRet run := λ A a s, mkOutcome (Ok a) s [].

#[global] Instance run_mbind : MBind run := λ A B k m s,
  let o := m s in
  match res o with
  | Ok a => let o' := k a (final o) in
            mkOutcome (res o') (final o') (emitted o ++ emitted o')
  | Err f => mkOutcome (Err f) (final o) (emitted o)
  end.

(** A failed expectation or a panic. *)
Definition fail {A} (f : Failure) : run A := λ s, mkOutcome (Err f) s [].

Definition lift {A} (r : result A) : run A := λ s, mkOutcome r s [].

(** [defer cleanup] followed by [body]: the cleanup runs when the function
    returns and when it panics. *)
Definition defer {A} (cleanup : State → State * Event) (body : run A) : run A := λ s,
  let o := body s in
  let '(s', e) := cleanup (final o) in
  mkOutcome (res o) s' (emitted o ++ [e]).

(** *** The store *)

(** A new message. *)
Definition new (c : Config.t) : run ptr := λ s,
  let a := fresh (dom (store s)) in
  mkOutcome (Ok (Some a)) (mkState (world s) (<[a:=c]> (store s))) [].

(** [*p]. *)
Definition load (p : ptr) : run Config.t := λ s,
  mkOutcome (expect NilDereference (p ≫= (λ a, store s !! a))) s [].

(** [*p = c]. *)
Definition assign (p : ptr) (c : Config.t) : run unit := λ s,
  match p with
  | Some a => mkOutcome (Ok ()) (mkState (world s) (<[a:=c]> (store s))) []
  | None => mkOutcome (Err NilDereference) s []
  end.

(** [proto.Clone]: nil for nil, otherwise a new message with the same
    contents. *)
Definition proto_Clone (p : ptr) : run ptr :=
  match p with
  | None => mret None
  | Some _ => c ← load p; new c
  end.

(** *** Calls that leave the process *)

Definition ioutil_TempDir (prefix : string) : run string := λ s,
  let '(dir, w) := TempDir os prefix (world s) in
  mkOutcome (expect IOError dir) (mkState w (store s)) [TempDir_event prefix dir].

Definition os_RemoveAll (path : string) : State → State * Event := λ s,
  (mkState (RemoveAll os path (world s)) (store s), RemoveAll_event path).

Definition ioutil_WriteFile (path : string) (data : bytes) : run unit := λ s,
  let '(ok, w) := WriteFile os path data (world s) in
  mkOutcome (if ok then Ok () else Err IOError) (mkState w (store s))
            [WriteFile_event path data ok].

Definition ioutil_ReadFile (path : string) : run bytes := λ s,
  let '(data, w) := ReadFile os path (world s) in
  mkOutcome (expect IOError data) (mkState w (store s)) [ReadFile_event path data].

Definition n_PeerAdminSession (n : Network) (peer : Peer) (command : Command)
    : run Session := λ s,
  let '(sess, w) := PeerAdminSession n peer command (world s) in
  mkOutcome (expect SessionError sess) (mkState w (store s))
            [PeerAdminSession_event peer command sess].

Definition n_OrdererAdminSession (n : Network) (orderer : Orderer) (peer : Peer)
    (command : Command) : run Session := λ s,
  let '(sess, w) := OrdererAdminSession n orderer peer command (world s) in
  mkOutcome (expect SessionError sess) (mkState w (store s))
            [OrdererAdminSession_event orderer peer command sess].

(** [update.Compute(current, updated)] with [Expect(err)]. *)
Definition update_Compute (current updated : ptr) : run ConfigUpdate.t :=
  c ← load current;
  u ← load updated;
  ((λ s, mkOutcome (expect ComputeError (Compute c u)) s [Compute_event c u])
     : run ConfigUpdate.t).

(** [time.Now]. *)
Definition time_Now : run N := λ s, mkOutcome (Ok (Now os (world s))) s [].

(** *** Expectations *)

(** [Eventually(sess, n.EventuallyTimeout).Should(gexec.Exit(code))]. *)
Definition Eventually_Exit (sess : Session) (code : Z) : run unit :=
  if decide (ExitCode sess = Some code) then mret () else fail ExitError.

(** [Expect(sess.Err).To(gbytes.Say(pattern))]. *)
Definition Expect_Say (sess : Session) (pattern : string) : run unit :=
  if Say pattern (Err_buffer sess) then mret () else fail OutputMismatch.

(** [Eventually(f, n.EventuallyTimeout).Should(BeNumerically(">", threshold))]:
    [f] is polled until its value exceeds the threshold, at most [polls]
    times after the first; an expectation failing inside [f] ends the run. *)
Fixpoint Eventually_BeNumerically_gt (polls : nat) (f : run N) (threshold : N)
    : run unit :=
  actual ← f;
  if (threshold <? actual)%N then mret ()
  else match polls with
       | O => fail TimeoutError
       | S polls => Eventually_BeNumerically_gt polls f threshold
       end.

(** [for _, x := range l { body }]. *)
Fixpoint for_range {A} (l : list A) (body : A → run unit) : run unit :=
  match l with
  | [] => mret ()
  | x :: l => _ ← body x; for_range l body
  end.

(** ** The functions of configblock.go *)

(** [UnmarshalBlockFromFile] unmarshals a proto encoded block from a file. *)
Definition UnmarshalBlockFromFile (blockFile : string) : run Block.t :=
  blockBytes ← ioutil_ReadFile blockFile;
  block ← lift (expect DecodeError (Unmarshal blockBytes));
  mret block.

(** [GetConfigBlock] retrieves the current config block for a channel. *)
Definition GetConfigBlock (n : Network) (peer : Peer) (orderer : Orderer)
    (channel : string) : run Block.t :=
  tempDir ← ioutil_TempDir "getConfigBlock";
  defer (os_RemoveAll tempDir) (
    let output := filepath_Join tempDir "config_block.pb" in
    sess ← n_PeerAdminSession n peer
             (ChannelFetch channel "config" (OrdererAddress n orderer) output);
    _ ← Eventually_Exit sess 0;
    _ ← Expect_Say sess "Received block: ";
    configBlock ← UnmarshalBlockFromFile output;
    mret configBlock).

(** [configBlock.Data.Data[0]]. *)
Definition first_Data (configBlock : Block.t) : result bytes :=
  match Block.Data configBlock with
  | None => Err NilDereference
  | Some [] => Err IndexOutOfRange
  | Some (d :: _) => Ok d
  end.

(** [GetConfig] retrieves the last config of the given channel; the result
    points to the configuration inside the decoded envelope. *)
Definition GetConfig (n : Network) (peer : Peer) (orderer : Orderer)
    (channel : string) : run ptr :=
  configBlock ← GetConfigBlock n peer orderer channel;
  data ← lift (first_Data configBlock);
  envelope ← lift (expect DecodeError (Unmarshal (A:=Envelope.t) data));
  payload ← lift (expect DecodeError (Unmarshal (A:=Payload.t) (Envelope.Payload envelope)));
  configEnv ← lift (expect DecodeError
                      (Unmarshal (A:=ConfigEnvelope.t) (Payload.Data payload)));
  match ConfigEnvelope.Config configEnv with
  | None => mret None
  | Some c => new c
  end.

(** [CurrentConfigBlockNumber] retrieves the block number from the header of
    the current config block. *)
Definition CurrentConfigBlockNumber (n : Network) (peer : Peer) (orderer : Orderer)
    (channel : string) : run N :=
  tempDir ← ioutil_TempDir "currentConfigBlock";
  defer (os_RemoveAll tempDir) (
    let output := filepath_Join tempDir "config_block.pb" in
    sess ← n_PeerAdminSession n peer
             (ChannelFetch channel "config" (OrdererAddress n orderer) output);
    _ ← Eventually_Exit sess 0;
    _ ← Expect_Say sess "Received block: ";
    configBlock ← UnmarshalBlockFromFile output;
    header ← lift (expect NilDereference (Block.Header configBlock));
    mret (BlockHeader.Number header)).

(** The envelope both update functions build: the computed update, marked
    with the channel, wrapped without a local signer. *)
Definition build_update_envelope (channel : string) (current updated : ptr)
    : run Envelope.t :=
  configUpdate ← update_Compute current updated;
  let configUpdate := ConfigUpdate.set_ChannelId channel configUpdate in
  updateBytes ← lift (MarshalOrPanic configUpdate);
  now ← time_Now;
  signedEnvelope ← lift (expect EnvelopeError
    (CreateSignedEnvelope HeaderType_CONFIG_UPDATE channel
       None (* local signer *)
       (ConfigUpdateEnvelope.mk updateBytes [])
       0 (* message version *)
       0 (* epoch *)
       now));
  mret signedEnvelope.

(** [UpdateConfig] computes, signs, and submits a configuration update and
    waits for the update to complete. *)
Definition UpdateConfig (n : Network) (orderer : Orderer) (channel : string)
    (current updated : ptr) (submitter : Peer) (additionalSigners : list Peer)
    : run unit :=
  tempDir ← ioutil_TempDir "updateConfig";
  defer (os_RemoveAll tempDir) (
    signedEnvelope ← build_update_envelope channel current updated;
    let updateFile := filepath_Join tempDir "update.pb" in
    envelopeBytes ← lift (MarshalOrPanic signedEnvelope);
    _ ← ioutil_WriteFile updateFile envelopeBytes;
    _ ← for_range additionalSigners (λ signer,
          sess ← n_PeerAdminSession n signer (SignConfigTx updateFile);
          Eventually_Exit sess 0);
    (* get current configuration block number *)
    currentBlockNumber ← CurrentConfigBlockNumber n submitter orderer channel;
    sess ← n_PeerAdminSession n submitter
             (ChannelUpdate channel (OrdererAddress n orderer) updateFile);
    _ ← Eventually_Exit sess 0;
    _ ← Expect_Say sess "Successfully submitted channel update";
    (* wait for the block to be committed *)
    let ccb := CurrentConfigBlockNumber n submitter orderer channel in
    Eventually_BeNumerically_gt (EventuallyTimeout n) ccb currentBlockNumber).

(** [UpdateOrdererConfig] computes, signs, and submits a configuration update
    which requires orderers signature and waits for the update to complete. *)
Definition UpdateOrdererConfig (n : Network) (orderer : Orderer) (channel : string)
    (current updated : ptr) (submitter : Peer) (additionalSigners : list Orderer)
    : run unit :=
  tempDir ← ioutil_TempDir "updateConfig";
  defer (os_RemoveAll tempDir) (
    signedEnvelope ← build_update_envelope channel current updated;
    let updateFile := filepath_Join tempDir "update.pb" in
    envelopeBytes ← lift (MarshalOrPanic signedEnvelope);
    _ ← ioutil_WriteFile updateFile envelopeBytes;
    _ ← for_range additionalSigners (λ signer,
          sess ← n_OrdererAdminSession n signer submitter (SignConfigTx updateFile);
          Eventually_Exit sess 0);
    (* get current configuration block number *)
    currentBlockNumber ← CurrentConfigBlockNumber n submitter orderer channel;
    sess ← n_PeerAdminSession n submitter
             (ChannelUpdate channel (OrdererAddress n orderer) updateFile);
    _ ← Eventually_Exit sess 0;
    _ ← Expect_Say sess "Successfully submitted channel update";
    (* wait for the block to be committed *)
    let ccb := CurrentConfigBlockNumber n submitter orderer channel in
    Eventually_BeNumerically_gt (EventuallyTimeout n) ccb currentBlockNumber).

(** [c.ChannelGroup.Groups["Orderer"].Values["ConsensusType"]]; a nil pointer
    on the way is a nil pointer at the end. *)
Definition get_ConsensusType (c : Config.t) : option ConfigValue.t :=
  channelGroup ← Config.ChannelGroup c;
  ordererGroup ← ConfigGroup.Groups channelGroup !! "Orderer";
  ConfigGroup.Values ordererGroup !! "ConsensusType".

(** [c.ChannelGroup.Groups["Orderer"].Values["ConsensusType"] = v]. *)
Definition set_ConsensusType (v : ConfigValue.t) (c : Config.t) : option Config.t :=
  channelGroup ← Config.ChannelGroup c;
  ordererGroup ← ConfigGroup.Groups channelGroup !! "Orderer";
  let values := <["ConsensusType" := v]> (ConfigGroup.Values ordererGroup) in
  let groups := <["Orderer" := ConfigGroup.set_Values values ordererGroup]>
                  (ConfigGroup.Groups channelGroup) in
  Some (Config.mk (Config.Sequence c)
                  (Some (ConfigGroup.set_Groups groups channelGroup))).

(** [UpdateConsensusMetadata] executes a config update that updates the
    consensus metadata according to the given [ConsensusMetadataMutator]. *)
Definition UpdateConsensusMetadata (network : Network) (peer : Peer)
    (orderer : Orderer) (channel : string) (mutateMetadata : ConsensusMetadataMutator)
    : run unit :=
  config ← GetConfig network peer orderer channel;
  updatedConfig ← proto_Clone config;
  updated ← load updatedConfig;
  consensusTypeConfigValue ← lift (expect NilDereference (get_ConsensusType updated));
  consensusTypeValue ← lift (expect DecodeError
     (Unmarshal (A:=ConsensusType.t) (ConfigValue.Value consensusTypeConfigValue)));
  newMetadata ← lift (mutateMetadata (ConsensusType.Metadata consensusTypeValue));
  let consensusTypeValue := ConsensusType.set_Metadata newMetadata consensusTypeValue in
  value ← lift (MarshalOrPanic consensusTypeValue);
  updated ← load updatedConfig;
  updated ← lift (expect NilDereference
                    (set_ConsensusType (ConfigValue.mk 0 value "Admins") updated));
  _ ← assign updatedConfig updated;
  UpdateOrdererConfig network orderer channel config updatedConfig peer [orderer].

(** [AddConsenter] adds a new consenter to the given channel. *)
Definition AddConsenter (n : Network) (peer : Peer) (orderer : Orderer)
    (channel : string) (consenter : Consenter) : run unit :=
  UpdateConsensusMetadata n peer orderer channel (AddConsenter_mutator consenter).

(** [RemoveConsenter] removes a consenter with the given certificate in PEM
    format from the given channel. *)
Definition RemoveConsenter (n : Network) (peer : Peer) (orderer : Orderer)
    (channel : string) (certificate : bytes) : run unit :=
  UpdateConsensusMetadata n peer orderer channel (RemoveConsenter_mutator certificate).

End Flow.

Arguments mkOutcome {Peer Orderer World A} res final emitted.
Arguments res {Peer Orderer World A} o.
Arguments final {Peer Orderer World A} o.
Arguments emitted {Peer Orderer World A} o.

(** ** A simulated network

    A small network to run the functions on: one channel whose configuration
    block number grows by one with every accepted update, peers and orderers
    named by strings, an in-memory file system, and the reference wire format
    for every message. *)
Module Sim.
Import Wire.

Definition put_string (s : string) : bytes := put_bytes (String.list_byte_of_string s).

Definition get_string : parser string := λ b,
  '(s, b) ← get_bytes b; Some (String.string_of_list_byte s, b).

Definition put_list {A} (put : A → bytes) (l : list A) : bytes :=
  put_nat (length l) ++ concat (put <$> l).

Fixpoint get_items {A} (get : parser A) (count : nat) : parser (list A) := λ b,
  match count with
  | O => Some ([], b)
  | S count =>
      '(x, b) ← get b;
      '(xs, b) ← get_items get count b;
      Some (x :: xs, b)
  end.

Definition get_list {A} (get : parser A) : parser (list A) := λ b,
  '(count, b) ← get_nat b; get_items get count b.

Definition put_option {A} (put : A → bytes) (o : option A) : bytes :=
  match o with
  | None => [x00]
  | Some a => x01 :: put a
  end.

Definition get_option {A} (get : parser A) : parser (option A) := λ b,
  match b with
  | x00 :: rest => Some (None, rest)
  | x01 :: rest => '(a, rest') ← get rest; Some (Some a, rest')
  | _ => None
  end.

(** A parser that must consume its whole input. *)
Definition complete {A} (get : parser A) (b : bytes) : option A :=
  '(a, rest) ← get b;
  match rest with
  | [] => Some a
  | _ => None
  end.

(** Values, policies and groups of a configuration. *)
Definition put_ConfigValue (v : ConfigValue.t) : bytes :=
  put_N (ConfigValue.Version v) ++ put_bytes (ConfigValue.Value v)
  ++ put_string (ConfigValue.ModPolicy v).

Definition get_ConfigValue : parser ConfigValue.t := λ b,
  '(version, b) ← get_N b;
  '(value, b) ← get_bytes b;
  '(modPolicy, b) ← get_string b;
  Some (ConfigValue.mk version value modPolicy, b).

Definition put_ConfigPolicy (p : ConfigPolicy.t) : bytes :=
  put_N (ConfigPolicy.Version p)
  ++ put_option (λ '(t, v), put_N (Z.to_N t) ++ put_bytes v) (ConfigPolicy.Policy p)
  ++ put_string (ConfigPolicy.ModPolicy p).

Definition get_ConfigPolicy : parser ConfigPolicy.t := λ b,
  '(version, b) ← get_N b;
  '(policy, b) ← get_option (λ b, '(t, b) ← get_N b;
                                   '(v, b) ← get_bytes b;
                                   Some ((Z.of_N t, v), b)) b;
  '(modPolicy, b) ← get_string b;
  Some (ConfigPolicy.mk version policy modPolicy, b).

Definition put_entries {A} (put : A → bytes) (m : gmap string A) : bytes :=
  put_list (λ '(k, a), put_string k ++ put a) (map_to_list m).

Definition get_entries {A} (get : parser A) : parser (gmap string A) := λ b,
  '(l, b) ← get_list (λ b, '(k, b) ← get_string b;
                           '(a, b) ← get b;
                           Some ((k, a), b)) b;
  Some (list_to_map l, b).

Fixpoint put_ConfigGroup (g : ConfigGroup.t) : bytes :=
  put_N (ConfigGroup.Version g)
  ++ put_nat (size (ConfigGroup.Groups g))
  ++ map_fold (λ k g' acc, put_string k ++ put_ConfigGroup g' ++ acc) []
              (ConfigGroup.Groups g)
  ++ put_entries put_ConfigValue (ConfigGroup.Values g)
  ++ put_entries put_ConfigPolicy (ConfigGroup.Policies g)
  ++ put_string (ConfigGroup.ModPolicy g).

(** Groups are read to a depth of at most [fuel]. *)
Fixpoint get_ConfigGroup (fuel : nat) : parser ConfigGroup.t := λ b,
  match fuel with
  | O => None
  | S fuel =>
      '(version, b) ← get_N b;
      '(groups, b) ← get_entries (get_ConfigGroup fuel) b;
      '(values, b) ← get_entries get_ConfigValue b;
      '(policies, b) ← get_entries get_ConfigPolicy b;
      '(modPolicy, b) ← get_string b;
      Some (ConfigGroup.mk version groups values policies modPolicy, b)
  end.

Definition put_Config (c : Config.t) : bytes :=
  put_N (Config.Sequence c) ++ put_option put_ConfigGroup (Config.ChannelGroup c).

Definition get_Config : parser Config.t := λ b,
  '(sequence, b) ← get_N b;
  '(channelGroup, b) ← get_option (get_ConfigGroup (length b)) b;
  Some (Config.mk sequence channelGroup, b).

#[global] Instance ConfigEnvelope_message : ProtoMessage ConfigEnvelope.t := {|
  Marshal e := Some (put_option put_Config (ConfigEnvelope.Config e)
                     ++ put_option put_bytes (ConfigEnvelope.LastUpdate e));
  Unmarshal := complete (λ b,
    '(config, b) ← get_option get_Config b;
    '(lastUpdate, b) ← get_option get_bytes b;
    Some (ConfigEnvelope.mk config lastUpdate, b))
|}.

#[global] Instance ConfigUpdate_message : ProtoMessage ConfigUpdate.t := {|
  Marshal u := Some (put_string (ConfigUpdate.ChannelId u)
                     ++ put_option put_ConfigGroup (ConfigUpdate.ReadSet u)
                     ++ put_option put_ConfigGroup (ConfigUpdate.WriteSet u));
  Unmarshal := complete (λ b,
    '(channelId, b) ← get_string b;
    '(readSet, b) ← get_option (get_ConfigGroup (length b)) b;
    '(writeSet, b) ← get_option (get_ConfigGroup (length b)) b;
    Some (ConfigUpdate.mk channelId readSet writeSet, b))
|}.

#[global] Instance ConfigUpdateEnvelope_message : ProtoMessage ConfigUpdateEnvelope.t := {|
  Marshal e := Some (put_bytes (ConfigUpdateEnvelope.ConfigUpdate e)
                     ++ put_list (λ '(h, s), put_bytes h ++ put_bytes s)
                                 (ConfigUpdateEnvelope.Signatures e));
  Unmarshal := complete (λ b,
    '(update, b) ← get_bytes b;
    '(signatures, b) ← get_list (λ b, '(h, b) ← get_bytes b;
                                      '(s, b) ← get_bytes b;
                                      Some ((h, s), b)) b;
    Some (ConfigUpdateEnvelope.mk update signatures, b))
|}.

#[global] Instance ConsensusType_message : ProtoMessage ConsensusType.t := {|
  Marshal c := Some (put_string (ConsensusType.Type_ c)
                     ++ put_bytes (ConsensusType.Metadata c));
  Unmarshal := complete (λ b,
    '(type, b) ← get_string b;
    '(metadata, b) ← get_bytes b;
    Some (ConsensusType.mk type metadata, b))
|}.

Definition put_HeaderType (t : HeaderType) : bytes :=
  match t with
  | HeaderType_MESSAGE => [x00]
  | HeaderType_CONFIG => [x01]
  | HeaderType_CONFIG_UPDATE => [x02]
  | HeaderType_ENDORSER_TRANSACTION => [x03]
  | HeaderType_ORDERER_TRANSACTION => [x04]
  | HeaderType_DELIVER_SEEK_INFO => [x05]
  | HeaderType_CHAINCODE_PACKAGE => [x06]
  end.

Definition get_HeaderType : parser HeaderType := λ b,
  match b with
  | x00 :: rest => Some (HeaderType_MESSAGE, rest)
  | x01 :: rest => Some (HeaderType_CONFIG, rest)
  | x02 :: rest => Some (HeaderType_CONFIG_UPDATE, rest)
  | x03 :: rest => Some (HeaderType_ENDORSER_TRANSACTION, rest)
  | x04 :: rest => Some (HeaderType_ORDERER_TRANSACTION, rest)
  | x05 :: rest => Some (HeaderType_DELIVER_SEEK_INFO, rest)
  | x06 :: rest => Some (HeaderType_CHAINCODE_PACKAGE, rest)
  | _ => None
  end.

#[global] Instance Payload_message : ProtoMessage Payload.t := {|
  Marshal p :=
    let ch := Payload.ChannelHeader p in
    let sh := Payload.SignatureHeader p in
    Some (put_HeaderType (ChannelHeader.Type_ ch)
          ++ put_N (Z.to_N (ChannelHeader.Version ch))
          ++ put_N (ChannelHeader.Timestamp ch)
          ++ put_string (ChannelHeader.ChannelId ch)
          ++ put_N (ChannelHeader.Epoch ch)
          ++ put_bytes (SignatureHeader.Creator sh)
          ++ put_bytes (SignatureHeader.Nonce sh)
          ++ put_bytes (Payload.Data p));
  Unmarshal := complete (λ b,
    '(type, b) ← get_HeaderType b;
    '(version, b) ← get_N b;
    '(timestamp, b) ← get_N b;
    '(channelId, b) ← get_string b;
    '(epoch, b) ← get_N b;
    '(creator, b) ← get_bytes b;
    '(nonce, b) ← get_bytes b;
    '(data, b) ← get_bytes b;
    Some (Payload.mk (ChannelHeader.mk type (Z.of_N version) timestamp channelId epoch)
                     (SignatureHeader.mk creator nonce) data, b))
|}.

#[global] Instance Envelope_message : ProtoMessage Envelope.t := {|
  Marshal e := Some (put_bytes (Envelope.Payload e) ++ put_bytes (Envelope.Signature e));
  Unmarshal := complete (λ b,
    '(payload, b) ← get_bytes b;
    '(signature, b) ← get_bytes b;
    Some (Envelope.mk payload signature, b))
|}.

#[global] Instance Block_message : ProtoMessage Block.t := {|
  Marshal k :=
    Some (put_option (λ h, put_N (BlockHeader.Number h)
                           ++ put_bytes (BlockHeader.PreviousHash h)
                           ++ put_bytes (BlockHeader.DataHash h)) (Block.Header k)
          ++ put_option (put_list put_bytes) (Block.Data k)
          ++ put_option (put_list put_bytes) (Block.Metadata k));
  Unmarshal := complete (λ b,
    '(header, b) ← get_option (λ b, '(number, b) ← get_N b;
                                    '(previous, b) ← get_bytes b;
                                    '(hash, b) ← get_bytes b;
                                    Some (BlockHeader.mk number previous hash, b)) b;
    '(data, b) ← get_option (get_list get_bytes) b;
    '(metadata, b) ← get_option (get_list get_bytes) b;
    Some (Block.mk header data metadata, b))
|}.

(** The simulated world: the files, the channel configuration in force, the
    number of the block that holds it, the nodes that refuse to sign, and
    whether the ordering service has stopped committing. *)
Record World := mkWorld {
  files : gmap string bytes;
  ledger : Config.t;
  height : N;
  refusing : list string;
  stalled : bool
}.

Definition set_files (f : gmap string bytes) (w : World) : World :=
  mkWorld f (ledger w) (height w) (refusing w) (stalled w).

(** The current config block of the channel, encoded. *)
Definition config_block (channel : string) (w : World) : option bytes :=
  configEnv ← Marshal (ConfigEnvelope.mk (Some (ledger w)) None);
  payload ← Marshal (Payload.mk (ChannelHeader.mk HeaderType_CONFIG 0 0 channel 0)
                                (SignatureHeader.mk [] []) configEnv);
  envelope ← Marshal (Envelope.mk payload []);
  Marshal (Block.mk (Some (BlockHeader.mk (height w) [] [])) (Some [envelope]) None).

(** What a node does with a command. *)
Definition execute (node : string) (command : Command) (w : World)
    : option Session * World :=
  match command with
  | ChannelFetch channel _ _ output =>
      match config_block channel w with
      | Some block => (Some (mkSession (Some 0%Z) "Received block: config"),
                       set_files (<[output:=block]> (files w)) w)
      | None => (Some (mkSession (Some 1%Z) "cannot fetch"), w)
      end
  | SignConfigTx _ =>
      if decide (node ∈ refusing w)
      then (Some (mkSession (Some 1%Z) "cannot sign"), w)
      else (Some (mkSession (Some 0%Z) ""), w)
  | ChannelUpdate _ _ _ =>
      (Some (mkSession (Some 0%Z) "Successfully submitted channel update"),
       mkWorld (files w) (ledger w)
               (if stalled w then height w else (height w + 1)%N)
               (refusing w) (stalled w))
  end.

Definition system : System (World:=World) := {|
  TempDir prefix w := (Some ("/tmp/" +:+ prefix)%string, w);
  RemoveAll path w :=
    set_files (delete (filepath_Join path "update.pb")
                 (delete (filepath_Join path "config_block.pb") (files w))) w;
  WriteFile path data w := (true, set_files (<[path:=data]> (files w)) w);
  ReadFile path w := (files w !! path, w);
  Now w := 0%N
|}.

Definition network : Network (Peer:=string) (Orderer:=string) (World:=World) := {|
  EventuallyTimeout := 2;
  OrdererAddress orderer := (orderer +:+ ":7050")%string;
  PeerAdminSession peer command w := execute peer command w;
  OrdererAdminSession orderer peer command w := execute orderer command w
|}.

(** A coarse [update.Compute]: the whole channel groups as read and write
    set; an error without a channel group. *)
Definition Compute (current updated : Config.t) : option ConfigUpdate.t :=
  r ← Config.ChannelGroup current;
  w ← Config.ChannelGroup updated;
  Some (ConfigUpdate.mk "" (Some r) (Some w)).

(** A channel configuration whose consensus metadata is [value]. *)
Definition config_with (value : bytes) : Config.t :=
  let consensusType := ConfigValue.mk 7 value "/Channel/Orderer/Admins" in
  let batchSize := ConfigValue.mk 1 [x0a] "Admins" in
  let ordererGroup :=
    ConfigGroup.mk 2 ∅ {["ConsensusType" := consensusType; "BatchSize" := batchSize]}
                   ∅ "Admins" in
  let applicationGroup := ConfigGroup.mk 1 ∅ ∅ ∅ "Admins" in
  Config.mk 4 (Some (ConfigGroup.mk 0
                       {["Orderer" := ordererGroup; "Application" := applicationGroup]}
                       ∅ ∅ "Admins")).

(** The encoding of an etcdraft consensus type with consenters [A] and [B]. *)
Definition consensusAB : bytes :=
  put_string "etcdraft" ++ put_bytes payloadAB.

(** An etcdraft consensus type whose metadata does not decode. *)
Definition consensus_bad_metadata : bytes :=
  put_string "etcdraft" ++ put_bytes [x02].

Definition start (c : Config.t) (refuse : list string) (stall : bool)
    : State (World:=World) :=
  mkState (mkWorld ∅ c 5 refuse stall) ∅.

(** A state whose store already holds a current and a desired configuration,
    at the addresses 1 and 2. *)
Definition stored (current updated : Config.t) (refuse : list string) (stall : bool)
    : State (World:=World) :=
  mkState (mkWorld ∅ current 5 refuse stall)
          {[1%positive := current; 2%positive := updated]}.

End Sim.

(** ** Vocabulary of the results *)

(** The certificates a consenter record carries. *)
Definition certificates (c : Consenter) : list bytes :=
  [ClientTlsCert c; ServerTlsCert c].

(** Both certificates of the record differ from [certificate]. *)
Definition differs_from (certificate : bytes) (c : Consenter) : Prop :=
  ClientTlsCert c ≠ certificate ∧ ServerTlsCert c ≠ certificate.

#[global] Instance differs_from_dec certificate c : Decision (differs_from certificate c).
Proof. unfold differs_from. apply _. Defined.

Section Vocabulary.
Context {Peer Orderer World : Type}.
Context `{!ProtoMessage Block.t}.
Implicit Types e : Event (Peer:=Peer) (Orderer:=Orderer).

(** The event is a request to co-sign the update file. *)
Definition is_sign_request e : bool :=
  match e with
  | PeerAdminSession_event _ (SignConfigTx _) _
  | OrdererAdminSession_event _ _ (SignConfigTx _) _ => true
  | _ => false
  end.

(** The event is the submission of the update file to the ordering service. *)
Definition is_submission e : bool :=
  match e with
  | PeerAdminSession_event _ (ChannelUpdate _ _ _) _
  | OrdererAdminSession_event _ _ (ChannelUpdate _ _ _) _ => true
  | _ => false
  end.

(** The session of the event was started and has exited with code 0. *)
Definition completed e : bool :=
  match e with
  | PeerAdminSession_event _ _ (Some sess)
  | OrdererAdminSession_event _ _ _ (Some sess) => bool_decide (ExitCode sess = Some 0%Z)
  | _ => false
  end.

(** The peer, or the orderer, asked to co-sign. *)
Definition peer_signer e : option Peer :=
  match e with
  | PeerAdminSession_event signer (SignConfigTx _) _ => Some signer
  | _ => None
  end.

Definition orderer_signer e : option Orderer :=
  match e with
  | OrdererAdminSession_event signer _ (SignConfigTx _) _ => Some signer
  | _ => None
  end.

(** The block number a run sees when it reads a fetched block from its file:
    the number in the header of the decoded block. *)
Definition observed_number e : option N :=
  match e with
  | ReadFile_event _ (Some blockBytes) =>
      block ← Unmarshal (A:=Block.t) blockBytes;
      header ← Block.Header block;
      Some (BlockHeader.Number header)
  | _ => None
  end.

(** The event is the hand-over of two configurations to [update.Compute]. *)
Definition is_compute e : bool :=
  match e with
  | Compute_event _ _ => true
  | _ => false
  end.

(** The event writes a file. *)
Definition is_write e : bool :=
  match e with
  | WriteFile_event _ _ _ => true
  | _ => false
  end.

(** The signatures of an update whose log is [ev] and whose result is [r],
    for the listed [signers]: the signers are asked in the listed order;
    whenever the update is submitted, every listed signer has been asked
    before and every request before has completed; a request that has not
    completed means that the run fails and that nothing is submitted; and a
    run that succeeds has asked every signer. *)
Definition sign_protocol {S} (signer_of : Event (Peer:=Peer) (Orderer:=Orderer) → option S)
    (signers : list S) (r : result unit) (ev : list Event) : Prop :=
  omap signer_of ev `prefix_of` signers
  ∧ (∀ before e after,
       ev = before ++ e :: after → is_submission e = true →
       omap signer_of before = signers
       ∧ Forall (λ e', is_sign_request e' = true → completed e' = true) before
       ∧ Forall (λ e', is_sign_request e' = false) after)
  ∧ (∀ e, e ∈ ev → is_sign_request e = true → completed e = false →
       (∃ f, r = Err f) ∧ Forall (λ e', is_submission e' = false) ev)
  ∧ (r = Ok () → omap signer_of ev = signers).

(** The confirmation of an update whose log is [ev] and whose result is [r]:
    whenever the update is submitted, exactly one block number has been seen
    before, the baseline, and the run succeeds exactly when a block number
    seen after the submission is greater than the baseline; and a run that
    succeeds has submitted the update. *)
Definition commit_protocol (r : result unit)
    (ev : list (Event (Peer:=Peer) (Orderer:=Orderer))) : Prop :=
  (∀ before e after,
     ev = before ++ e :: after → is_submission e = true →
     ∃ baseline,
       omap observed_number before = [baseline]
       ∧ (r = Ok () ↔ ∃ v, v ∈ omap observed_number after ∧ (baseline < v)%N))
  ∧ (r = Ok () → ∃ e, e ∈ ev ∧ is_submission e = true).

(** The event is none of the above: it creates or removes a directory,
    fetches a block or reads a file. *)
Definition quiet e : bool :=
  negb (is_sign_request e || is_submission e || is_compute e || is_write e).
End Vocabulary.

(** [Q] holds of the result, the final state and the log of the run of [m]
    from [s]. *)
Definition satisfies {Peer Orderer World A}
    (m : run (Peer:=Peer) (Orderer:=Orderer) (World:=World) A) (s : State)
    (Q : result A → State → list Event → Prop) : Prop :=
  Q (res (m s)) (final (m s)) (emitted (m s)).

(** The body shared by [UpdateConfig] and [UpdateOrdererConfig], for any way
    [session] of running a command on behalf of a signer; the two functions
    are this flow with [PeerAdminSession], and with [OrdererAdminSession] and
    the submitter. *)
Section UpdateFlow.
Context {Peer Orderer World : Type}.
Context `{!ProtoMessage Block.t, !ProtoMessage Envelope.t, !ProtoMessage Payload.t}.
Context `{!ProtoMessage ConfigUpdate.t, !ProtoMessage ConfigUpdateEnvelope.t}.
Context (Compute : Config.t → Config.t → option ConfigUpdate.t).
Context (os : System (World:=World)).
Context {S : Type}.
Context (session : S → Command → run (Peer:=Peer) (Orderer:=Orderer) (World:=World) Session).

(** [data] is the envelope of the update [configUpdate] of [channel], built
    at time [now]: the update marked with the channel and serialized, wrapped
    without configuration signatures, under a header of type CONFIG_UPDATE
    for the channel with message version 0 and epoch 0 and an empty signature
    header, in an envelope without signature. *)
Definition update_envelope_bytes (channel : string) (configUpdate : ConfigUpdate.t)
    (now : N) (data : bytes) : Prop :=
  ∃ updateBytes wrapped paylBytes,
    Marshal (ConfigUpdate.set_ChannelId channel configUpdate) = Some updateBytes
    ∧ Marshal (ConfigUpdateEnvelope.mk updateBytes []) = Some wrapped
    ∧ Marshal (Payload.mk (ChannelHeader.mk HeaderType_CONFIG_UPDATE 0 now channel 0)
                          (SignatureHeader.mk [] []) wrapped) = Some paylBytes
    ∧ Marshal (Envelope.mk paylBytes []) = Some data.

(** What an update of [current] into [updated], started with the store
    [σ], may hand to [update.Compute] and may write to a file. *)
Definition update_event_ok (channel : string) (σ : gmap positive Config.t)
    (current updated : ptr) (e : Event (Peer:=Peer) (Orderer:=Orderer)) : Prop :=
  match e with
  | Compute_event c u =>
      current ≫= (λ a, σ !! a) = Some c ∧ updated ≫= (λ a, σ !! a) = Some u
  | WriteFile_event path data ok =>
      ∃ c u configUpdate now,
        current ≫= (λ a, σ !! a) = Some c
        ∧ updated ≫= (λ a, σ !! a) = Some u
        ∧ Compute c u = Some configUpdate
        ∧ update_envelope_bytes channel configUpdate now data
  | _ => True
  end.

(** What a run of the update flow comes to, with result [r] and log [ev]:
    the store is as it was; the hand-over and the file are as above; and
    either the run has failed without a submission, after asking the first
    few signers, or the log splits at the one submission, before which every
    signer has been asked, every request has completed and one block number
    has been seen, the baseline, and the run has succeeded exactly when a
    number seen after the submission exceeds the baseline. *)
Definition update_outcome (signer_of : Event (Peer:=Peer) (Orderer:=Orderer) → option S)
    (n : Network (Peer:=Peer) (Orderer:=Orderer) (World:=World)) (orderer : Orderer)
    (channel : string) (current updated : ptr) (submitter : Peer) (signers : list S)
    (s : State (World:=World)) (r : result unit) (s' : State (World:=World))
    (ev : list Event) : Prop :=
  store s' = store s
  ∧ Forall (update_event_ok channel (store s) current updated) ev
  ∧ ((r ≠ Ok ()
      ∧ Forall (λ e, is_submission e = false) ev
      ∧ ∃ k, omap signer_of ev = take k signers)
     ∨ (∃ before updateFile answer after baseline,
          ev = before
               ++ PeerAdminSession_event submitter
                    (ChannelUpdate channel (OrdererAddress n orderer) updateFile) answer
               :: after
          ∧ Forall (λ e, is_submission e = false) before
          ∧ Forall (λ e, is_submission e = false ∧ is_sign_request e = false) after
          ∧ omap signer_of before = signers
          ∧ Forall (λ e, is_sign_request e = true → completed e = true) before
          ∧ omap observed_number before = [baseline]
          ∧ (r = Ok () ↔ ∃ v, v ∈ omap observed_number after ∧ (baseline < v)%N))).

Definition sign_loop (updateFile : string) (signers : list S)
    : run (Peer:=Peer) (Orderer:=Orderer) (World:=World) unit :=
  for_range signers (λ signer,
    sess ← session signer (SignConfigTx updateFile);
    Eventually_Exit sess 0).

Definition submit_and_wait (n : Network) (orderer : Orderer) (channel : string)
    (submitter : Peer) (updateFile : string) : run unit :=
  currentBlockNumber ← CurrentConfigBlockNumber os n submitter orderer channel;
  sess ← n_PeerAdminSession n submitter
           (ChannelUpdate channel (OrdererAddress n orderer) updateFile);
  _ ← Eventually_Exit sess 0;
  _ ← Expect_Say sess "Successfully submitted channel update";
  let ccb := CurrentConfigBlockNumber os n submitter orderer channel in
  Eventually_BeNumerically_gt (EventuallyTimeout n) ccb currentBlockNumber.

Definition update_flow (n : Network) (orderer : Orderer) (channel : string)
    (current updated : ptr) (submitter : Peer) (signers : list S) : run unit :=
  tempDir ← ioutil_TempDir os "updateConfig";
  defer (os_RemoveAll os tempDir) (
    signedEnvelope ← build_update_envelope Compute os channel current updated;
    let updateFile := filepath_Join tempDir "update.pb" in
    envelopeBytes ← lift (MarshalOrPanic signedEnvelope);
    _ ← ioutil_WriteFile os updateFile envelopeBytes;
    _ ← sign_loop updateFile signers;
    submit_and_wait n orderer channel submitter updateFile).
End UpdateFlow.

(** ** The desired configuration of [UpdateConsensusMetadata] *)
Section Desired.
Context {Peer Orderer World : Type}.
Context `{!ProtoMessage Block.t, !ProtoMessage Envelope.t, !ProtoMessage Payload.t}.
Context `{!ProtoMessage ConfigUpdate.t, !ProtoMessage ConfigUpdateEnvelope.t}.
Context `{!ProtoMessage ConsensusType.t}.
Context (Compute : Config.t → Config.t → option ConfigUpdate.t).
Context (os : System (World:=World)).

(** What [UpdateConsensusMetadata] does once it has the current
    configuration: the function is [GetConfig] followed by this. *)
Definition update_fetched (network : Network (Peer:=Peer) (Orderer:=Orderer))
    (peer : Peer) (orderer : Orderer) (channel : string)
    (mutateMetadata : ConsensusMetadataMutator) (config : ptr) : run unit :=
  updatedConfig ← proto_Clone config;
  updated ← load updatedConfig;
  consensusTypeConfigValue ← lift (expect NilDereference (get_ConsensusType updated));
  consensusTypeValue ← lift (expect DecodeError
     (Unmarshal (A:=ConsensusType.t) (ConfigValue.Value consensusTypeConfigValue)));
  newMetadata ← lift (mutateMetadata (ConsensusType.Metadata consensusTypeValue));
  let consensusTypeValue := ConsensusType.set_Metadata newMetadata consensusTypeValue in
  value ← lift (MarshalOrPanic consensusTypeValue);
  updated ← load updatedConfig;
  updated ← lift (expect NilDereference
                    (set_ConsensusType (ConfigValue.mk 0 value "Admins") updated));
  _ ← assign updatedConfig updated;
  UpdateOrdererConfig Compute os network orderer channel config updatedConfig peer
                      [orderer].

(** The configuration [UpdateConsensusMetadata] makes of the configuration
    [c], or the failure on the way. *)
Definition desired_config (mutateMetadata : ConsensusMetadataMutator) (c : Config.t)
    : result Config.t :=
  consensusTypeConfigValue ← expect NilDereference (get_ConsensusType c);
  consensusTypeValue ← expect DecodeError
     (Unmarshal (A:=ConsensusType.t) (ConfigValue.Value consensusTypeConfigValue));
  newMetadata ← mutateMetadata (ConsensusType.Metadata consensusTypeValue);
  value ← MarshalOrPanic (ConsensusType.set_Metadata newMetadata consensusTypeValue);
  expect NilDereference (set_ConsensusType (ConfigValue.mk 0 value "Admins") c).
End Desired.

(** [c'] is [c] with the value [v] at [Orderer] / [ConsensusType], and is
    [c] everywhere else. *)
Definition replaces_ConsensusType (v : ConfigValue.t) (c c' : Config.t) : Prop :=
  Config.Sequence c' = Config.Sequence c
  ∧ ∃ g g' og og',
      Config.ChannelGroup c = Some g ∧ Config.ChannelGroup c' = Some g'
      ∧ ConfigGroup.Version g' = ConfigGroup.Version g
      ∧ ConfigGroup.Values g' = ConfigGroup.Values g
      ∧ ConfigGroup.Policies g' = ConfigGroup.Policies g
      ∧ ConfigGroup.ModPolicy g' = ConfigGroup.ModPolicy g
      ∧ (∀ k, k ≠ "Orderer" → ConfigGroup.Groups g' !! k = ConfigGroup.Groups g !! k)
      ∧ ConfigGroup.Groups g !! "Orderer" = Some og
      ∧ ConfigGroup.Groups g' !! "Orderer" = Some og'
      ∧ ConfigGroup.Version og' = ConfigGroup.Version og
      ∧ ConfigGroup.Groups og' = ConfigGroup.Groups og
      ∧ ConfigGroup.Policies og' = ConfigGroup.Policies og
      ∧ ConfigGroup.ModPolicy og' = ConfigGroup.ModPolicy og
      ∧ (∀ k, k ≠ "ConsensusType" →
              ConfigGroup.Values og' !! k = ConfigGroup.Values og !! k)
      ∧ ConfigGroup.Values og' !! "ConsensusType" = Some v.

(** The encoded envelope [data] carries a signature: the signature of the
    envelope itself, or a configuration signature next to the update. *)
Definition carries_signature `{!ProtoMessage Envelope.t, !ProtoMessage Payload.t}
    `{!ProtoMessage ConfigUpdateEnvelope.t} (data : bytes) : Prop :=
  ∃ envelope,
    Unmarshal data = Some envelope
    ∧ (Envelope.Signature envelope ≠ []
       ∨ ∃ payload wrapped,
           Unmarshal (Envelope.Payload envelope) = Some payload
           ∧ Unmarshal (Payload.Data payload) = Some wrapped
           ∧ ConfigUpdateEnvelope.Signatures wrapped ≠ []).

(** ** Vocabulary of the logs *)
Section LogVocabulary.
Context {Peer Orderer World : Type}.
Implicit Types e : Event (Peer:=Peer) (Orderer:=Orderer).
Implicit Types ev : list (Event (Peer:=Peer) (Orderer:=Orderer)).

(** The session a session event has started, if it has. *)
Definition session_of e : option Session :=
  match e with
  | PeerAdminSession_event _ _ sess | OrdererAdminSession_event _ _ _ sess => sess
  | _ => None
  end.

(** The update file a session event is asked to sign or to submit. *)
Definition update_file_of e : option string :=
  match e with
  | PeerAdminSession_event _ (SignConfigTx file) _
  | OrdererAdminSession_event _ _ (SignConfigTx file) _
  | PeerAdminSession_event _ (ChannelUpdate _ _ file) _
  | OrdererAdminSession_event _ _ (ChannelUpdate _ _ file) _ => Some file
  | _ => None
  end.

(** The session of the event has exited with code 0 and has written
    [pattern] to its standard error. *)
Definition accepted (pattern : string) e : bool :=
  match session_of e with
  | Some sess => bool_decide (ExitCode sess = Some 0%Z) && Say pattern (Err_buffer sess)
  | None => false
  end.

(** Every directory the log creates is removed later in the log. *)
Definition cleans_up ev : Prop :=
  ∀ before prefix dir after,
    ev = before ++ TempDir_event prefix (Some dir) :: after →
    RemoveAll_event dir ∈ after.

End LogVocabulary.

(** ** The logs of the functions, step by step *)
Section Layout.
Context {Peer Orderer World : Type} `{!ProtoMessage Block.t}.
Context (Compute : Config.t → Config.t → option ConfigUpdate.t).
Implicit Types ev : list (Event (Peer:=Peer) (Orderer:=Orderer)).
Implicit Types n : Network (Peer:=Peer) (Orderer:=Orderer) (World:=World).

(** The failure of a session that was not accepted: it was not started, it
    did not exit with code 0, or it did not say what was expected. *)
Definition session_failure (answer : option Session) : Failure :=
  match answer with
  | None => SessionError
  | Some sess => if decide (ExitCode sess = Some 0%Z) then OutputMismatch else ExitError
  end.

(** What is read back from a block file. *)
Definition block_read (data : option bytes) : result Block.t :=
  blockBytes ← expect IOError data;
  expect DecodeError (Unmarshal blockBytes).

(** One fetch of the config block into a directory made with [prefix]: no
    directory; or a fetch that is not accepted; or an accepted fetch and the
    file read back, with result [r]. The directory is removed at the end. *)
Definition fetch_log (prefix : string) n (peer : Peer) (orderer : Orderer)
    (channel : string) (r : result Block.t) ev : Prop :=
  (r = Err IOError ∧ ev = [TempDir_event prefix None])
  ∨ ∃ tempDir answer,
      let output := filepath_Join tempDir "config_block.pb" in
      let fetch := PeerAdminSession_event peer
                     (ChannelFetch channel "config" (OrdererAddress n orderer) output)
                     answer in
      (accepted "Received block: " fetch = false
       ∧ r = Err (session_failure answer)
       ∧ ev = [TempDir_event prefix (Some tempDir); fetch; RemoveAll_event tempDir])
      ∨ (accepted "Received block: " fetch = true
         ∧ ∃ data,
             r = block_read data
             ∧ ev = [TempDir_event prefix (Some tempDir); fetch;
                     ReadFile_event output data; RemoveAll_event tempDir]).

(** The number in the header of a block. *)
Definition header_number (block : Block.t) : result N :=
  header ← expect NilDereference (Block.Header block);
  Ok (BlockHeader.Number header).

(** One run of [CurrentConfigBlockNumber]. *)
Definition number_log n (peer : Peer) (orderer : Orderer) (channel : string)
    (r : result N) ev : Prop :=
  ∃ block, fetch_log "currentConfigBlock" n peer orderer channel block ev
           ∧ r = block ≫= header_number.

(** The polls of [Eventually]: runs of [CurrentConfigBlockNumber], one after
    the other, up to the first that fails or returns a number greater than
    the threshold, or up to the last poll. *)
Inductive polls_log n (peer : Peer) (orderer : Orderer) (channel : string) (threshold : N)
    : nat → result unit → list (Event (Peer:=Peer) (Orderer:=Orderer)) → Prop :=
  | polls_failed polls f ev :
      number_log n peer orderer channel (Err f) ev →
      polls_log n peer orderer channel threshold polls (Err f) ev
  | polls_exceeded polls v ev :
      number_log n peer orderer channel (Ok v) ev → (threshold < v)%N →
      polls_log n peer orderer channel threshold polls (Ok ()) ev
  | polls_timed_out v ev :
      number_log n peer orderer channel (Ok v) ev → (v ≤ threshold)%N →
      polls_log n peer orderer channel threshold 0 (Err TimeoutError) ev
  | polls_again polls v ev r ev' :
      number_log n peer orderer channel (Ok v) ev → (v ≤ threshold)%N →
      polls_log n peer orderer channel threshold polls r ev' →
      polls_log n peer orderer channel threshold (S polls) r (ev ++ ev').

(** From the baseline to the end of the polls: the baseline is read; the
    update is submitted; an accepted submission is followed by the polls. *)
Definition confirm_log n (orderer : Orderer) (channel : string) (submitter : Peer)
    (file : string) (r : result unit) ev : Prop :=
  ∃ baseline base,
    number_log n submitter orderer channel baseline base
    ∧ match baseline with
      | Err f => r = Err f ∧ ev = base
      | Ok baseline =>
          ∃ answer after,
            let submission :=
              PeerAdminSession_event submitter
                (ChannelUpdate channel (OrdererAddress n orderer) file) answer in
            ev = base ++ submission :: after
            ∧ if accepted "Successfully submitted channel update" submission
              then polls_log n submitter orderer channel baseline (EventuallyTimeout n)
                             r after
              else r = Err (session_failure answer) ∧ after = []
      end.

(** After the file is written: a failed write ends the run; otherwise the
    signers are asked, up to the first whose session does not complete, and
    when all have completed the confirmation follows. *)
Definition written_log n (orderer : Orderer) (channel : string) (submitter : Peer)
    (file : string) (ok : bool) (r : result unit) ev : Prop :=
  if ok
  then ∃ signs confirm,
         ev = signs ++ confirm
         ∧ Forall (λ e, is_sign_request e = true ∧ update_file_of e = Some file) signs
         ∧ (((∃ f, r = Err f) ∧ confirm = []
             ∧ ∃ signs0 e, signs = signs0 ++ [e]
                           ∧ Forall (λ e, completed e = true) signs0
                           ∧ completed e = false)
            ∨ (Forall (λ e, completed e = true) signs
               ∧ confirm_log n orderer channel submitter file r confirm))
  else r = Err IOError ∧ ev = [].

(** A run of [UpdateConfig] or [UpdateOrdererConfig] from the store [σ]: no
    directory; or, inside the directory, a pointer that cannot be followed;
    or the hand-over to [update.Compute] and a failure before the file is
    written; or the file and what follows. *)
Definition update_log n (orderer : Orderer) (channel : string)
    (σ : gmap positive Config.t) (current updated : ptr) (submitter : Peer)
    (r : result unit) ev : Prop :=
  (r = Err IOError ∧ ev = [TempDir_event "updateConfig" None])
  ∨ ∃ tempDir body,
      ev = TempDir_event "updateConfig" (Some tempDir) :: body ++ [RemoveAll_event tempDir]
      ∧ ((r = Err NilDereference ∧ body = []
          ∧ (current ≫= (λ a, σ !! a) = None ∨ updated ≫= (λ a, σ !! a) = None))
         ∨ ∃ c u,
             current ≫= (λ a, σ !! a) = Some c
             ∧ updated ≫= (λ a, σ !! a) = Some u
             ∧ ((∃ f, r = Err f ∧ body = [Compute_event c u]
                      ∧ (Compute c u = None → f = ComputeError))
                ∨ (is_Some (Compute c u)
                   ∧ ∃ data ok rest,
                       body = Compute_event c u
                              :: WriteFile_event (filepath_Join tempDir "update.pb") data ok
                              :: rest
                       ∧ written_log n orderer channel submitter
                                     (filepath_Join tempDir "update.pb") ok r rest))).
End Layout.

Section Decoding.
Context `{!ProtoMessage Envelope.t, !ProtoMessage Payload.t}.
Context `{!ProtoMessage ConfigEnvelope.t}.

(** The configuration envelope inside a transaction of a config block: the
    data of the payload of the envelope. *)
Definition config_envelope_of (data : bytes) : option ConfigEnvelope.t :=
  envelope ← Unmarshal (A:=Envelope.t) data;
  payload ← Unmarshal (A:=Payload.t) (Envelope.Payload envelope);
  Unmarshal (A:=ConfigEnvelope.t) (Payload.Data payload).
End Decoding.

Section Runs.
Context {Peer Orderer World : Type}.
Context `{!ProtoMessage Block.t, !ProtoMessage Envelope.t, !ProtoMessage Payload.t}.
Context `{!ProtoMessage ConfigUpdate.t, !ProtoMessage ConfigUpdateEnvelope.t}.
Context (Compute : Config.t → Config.t → option ConfigUpdate.t).
Context (os : System (World:=World)).

(** [o] is a run of [UpdateConfig] or of [UpdateOrdererConfig] from [s],
    with some additional signers. *)
Definition update_run (n : Network (Peer:=Peer) (Orderer:=Orderer) (World:=World))
    (orderer : Orderer) (channel : string) (current updated : ptr) (submitter : Peer)
    (s : State (World:=World)) (o : Outcome (Peer:=Peer) (Orderer:=Orderer) unit) : Prop :=
  (∃ additionalSigners : list Peer,
     o = UpdateConfig Compute os n orderer channel current updated submitter
                      additionalSigners s)
  ∨ (∃ additionalSigners : list Orderer,
       o = UpdateOrdererConfig Compute os n orderer channel current updated submitter
                               additionalSigners s).
End Runs.

(** * Results *)

(** ** The reference wire format decodes what it encodes *)
Module WireFacts.
Import Wire.

Lemma get_put_positive (p : positive) (rest : bytes) :
  get_positive (put_positive p ++ rest) = Some (p, rest).
Proof. induction p as [p IH|p IH|]; simpl; [by rewrite IH..|done]. Qed.

Lemma get_put_N (n : N) (rest : bytes) : get_N (put_N n ++ rest) = Some (n, rest).
Proof.
  destruct n as [|p]; [done|]. unfold get_N, put_N.
  rewrite get_put_positive. by destruct p.
Qed.

Lemma get_put_nat (n : nat) (rest : bytes) :
  get_nat (put_nat n ++ rest) = Some (n, rest).
Proof. unfold get_nat, put_nat. rewrite get_put_N. simpl. by rewrite Nat2N.id. Qed.

Lemma get_put_bytes (s rest : bytes) :
  get_bytes (put_bytes s ++ rest) = Some (s, rest).
Proof.
  unfold get_bytes, put_bytes. rewrite <- app_assoc, get_put_nat. simpl.
  rewrite decide_True by (rewrite length_app; lia).
  by rewrite take_app_length, drop_app_length.
Qed.

Lemma get_put_Consenter (c : Consenter) (rest : bytes) :
  get_Consenter (put_Consenter c ++ rest) = Some (c, rest).
Proof.
  destruct c as [host port client server]. unfold get_Consenter, put_Consenter.
  cbn [Host Port ClientTlsCert ServerTlsCert].
  rewrite <- !app_assoc, get_put_bytes. cbn [mbind option_bind].
  rewrite get_put_N. cbn [mbind option_bind].
  rewrite get_put_bytes. cbn [mbind option_bind].
  rewrite get_put_bytes. cbn [mbind option_bind].
  by rewrite String.string_of_list_byte_of_string.
Qed.

Lemma get_put_Consenters (cs : list Consenter) (rest : bytes) :
  get_Consenters (length cs) (concat (put_Consenter <$> cs) ++ rest) = Some (cs, rest).
Proof.
  induction cs as [|c cs IH]; csimpl; [done|].
  rewrite <- app_assoc, get_put_Consenter. cbn [mbind option_bind].
  by rewrite IH.
Qed.

Lemma get_put_Options (o : option bytes) (rest : bytes) :
  get_Options (put_Options o ++ rest) = Some (o, rest).
Proof. destruct o as [s|]; simpl; [|done]. by rewrite get_put_bytes. Qed.

Lemma get_put_Metadata (m : Metadata) : get_Metadata (put_Metadata m) = Some m.
Proof.
  destruct m as [cs o]. unfold get_Metadata, put_Metadata.
  cbn [Consenters Options]. rewrite get_put_nat. cbn [mbind option_bind].
  rewrite get_put_Consenters. cbn [mbind option_bind].
  rewrite <- (app_nil_r (put_Options o)), get_put_Options. done.
Qed.

#[global] Instance Metadata_laws : ProtoLaws Metadata.
Proof.
  split.
  - intros m. by eexists.
  - intros m b [= <-]. apply get_put_Metadata.
Qed.
End WireFacts.

(** ** Adding and removing consenters *)

Section MutatorFacts.
Context `{!ProtoMessage Metadata} `{!ProtoLaws Metadata}.
Implicit Types (certificate originalMetadata newMetadata : bytes).
Implicit Types (metadata : Metadata) (consenter : Consenter).

Lemma matches_certificate_false certificate consenter :
  matches_certificate certificate consenter = false ↔ differs_from certificate consenter.
Proof.
  unfold matches_certificate, bytes_Equal, differs_from.
  rewrite orb_false_iff, !bool_decide_eq_false. done.
Qed.

Lemma matches_certificate_true certificate consenter :
  matches_certificate certificate consenter = true ↔ ¬ differs_from certificate consenter.
Proof.
  rewrite <- matches_certificate_false. destruct (matches_certificate _ _); naive_solver.
Qed.

Lemma differs_from_certificates certificate consenter :
  differs_from certificate consenter ↔ certificate ∉ certificates consenter.
Proof.
  unfold differs_from, certificates.
  rewrite !not_elem_of_cons. split.
  - intros [??]. split_and!; [congruence..|apply not_elem_of_nil].
  - intros (?&?&?). split; congruence.
Qed.

(** The loop with any records already collected in [acc]. *)
Lemma RemoveConsenter_loop_from certificate (acc consenters : list Consenter) :
  foldl (λ newConsenters consenter,
           if matches_certificate certificate consenter
           then newConsenters
           else newConsenters ++ [consenter])
        acc consenters
  = acc ++ filter (differs_from certificate) consenters.
Proof.
  revert acc. induction consenters as [|c cs IH]; intros acc; simpl.
  - by rewrite app_nil_r.
  - rewrite IH. destruct (matches_certificate certificate c) eqn:Hc.
    + apply matches_certificate_true in Hc. by rewrite filter_cons_False.
    + apply matches_certificate_false in Hc.
      rewrite filter_cons_True by done. by rewrite <- app_assoc.
Qed.

Lemma RemoveConsenter_loop_filter certificate (consenters : list Consenter) :
  RemoveConsenter_loop certificate consenters
  = filter (differs_from certificate) consenters.
Proof. unfold RemoveConsenter_loop. by rewrite RemoveConsenter_loop_from. Qed.

Lemma filter_differs_all certificate (consenters : list Consenter) :
  (∀ c, c ∈ consenters → differs_from certificate c) →
  filter (differs_from certificate) consenters = consenters.
Proof.
  induction consenters as [|c cs IH]; intros Hall; [done|].
  rewrite filter_cons_True by (apply Hall; left).
  f_equal. apply IH. intros c' Hc'. apply Hall. by right.
Qed.


Lemma RemoveConsenter_mutator_decoded certificate originalMetadata metadata :
  Unmarshal originalMetadata = Some metadata →
  ∃ newMetadata,
    RemoveConsenter_mutator certificate originalMetadata = Ok newMetadata
    ∧ Marshal (set_Consenters (filter (differs_from certificate) (Consenters metadata))
                              metadata) = Some newMetadata
    ∧ Unmarshal newMetadata
      = Some (set_Consenters (filter (differs_from certificate) (Consenters metadata))
                             metadata).
Proof.
  intros Hdec. unfold RemoveConsenter_mutator. rewrite Hdec. simpl.
  rewrite RemoveConsenter_loop_filter.
  destruct (Marshal_total
    (set_Consenters (filter (differs_from certificate) (Consenters metadata)) metadata))
    as [b Hb].
  exists b. rewrite Hb. simpl. split_and!; [done..|]. by apply Unmarshal_Marshal.
Qed.

(** C1. On a payload that decodes to [metadata], the remove-consenter
    closure returns a payload that decodes to the records of [metadata]
    whose client and server certificates both differ from [certificate],
    in their original order (and nothing else of the message changes). *)
Theorem RemoveConsenter_keeps_the_others certificate originalMetadata metadata :
  Unmarshal originalMetadata = Some metadata →
  ∃ newMetadata metadata',
    RemoveConsenter_mutator certificate originalMetadata = Ok newMetadata
    ∧ Unmarshal newMetadata = Some metadata'
    ∧ Consenters metadata'
      = filter (λ c, ClientTlsCert c ≠ certificate ∧ ServerTlsCert c ≠ certificate)
               (Consenters metadata)
    ∧ Options metadata' = Options metadata.
Proof.
  intros Hdec.
  destruct (RemoveConsenter_mutator_decoded certificate _ _ Hdec) as (b & Hrun & _ & Hb).
  by exists b, (set_Consenters (filter (differs_from certificate) (Consenters metadata))
                            metadata).
Qed.

(** C2. When no record of the decoded list carries [certificate], the
    remove-consenter closure succeeds and returns the re-encoding of the
    decoded input, which decodes to the same message. *)
Theorem RemoveConsenter_absent_is_noop certificate originalMetadata metadata :
  Unmarshal originalMetadata = Some metadata →
  (∀ c, c ∈ Consenters metadata →
        ClientTlsCert c ≠ certificate ∧ ServerTlsCert c ≠ certificate) →
  ∃ newMetadata,
    RemoveConsenter_mutator certificate originalMetadata = Ok newMetadata
    ∧ Marshal metadata = Some newMetadata
    ∧ Unmarshal newMetadata = Some metadata.
Proof.
  intros Hdec Habsent.
  destruct (RemoveConsenter_mutator_decoded certificate _ _ Hdec) as (b & Hrun & Henc & Hb).
  rewrite filter_differs_all in Henc, Hb by done.
  destruct metadata as [cs o]. by exists b.
Qed.


End MutatorFacts.

(** Runs of the closures on the reference wire format. *)
Lemma RemoveConsenter_keeps_the_others_witness :
  Unmarshal Wire.payloadAB = Some Wire.metadataAB
  ∧ ∃ newMetadata metadata',
      RemoveConsenter_mutator [x0a] Wire.payloadAB = Ok newMetadata
      ∧ Unmarshal newMetadata = Some metadata'
      ∧ Consenters metadata'
        = filter (λ c, ClientTlsCert c ≠ [x0a] ∧ ServerTlsCert c ≠ [x0a])
                 (Consenters Wire.metadataAB)
      ∧ Options metadata' = Options Wire.metadataAB.
Proof.
  split; [reflexivity|].
  apply (RemoveConsenter_keeps_the_others [x0a] Wire.payloadAB Wire.metadataAB).
  reflexivity.
Defined.

Lemma RemoveConsenter_absent_is_noop_witness :
  ∃ newMetadata,
    RemoveConsenter_mutator [x0c] Wire.payloadAB = Ok newMetadata
    ∧ Marshal Wire.metadataAB = Some newMetadata
    ∧ Unmarshal newMetadata = Some Wire.metadataAB.
Proof.
  apply (RemoveConsenter_absent_is_noop [x0c] Wire.payloadAB Wire.metadataAB).
  - reflexivity.
  - intros c Hc. vm_compute in Hc.
    apply list_elem_of_In in Hc. simpl in Hc.
    destruct Hc as [<-|[<-|[]]]; split; discriminate.
Defined.



(** ** More on the two closures *)

Section MutatorAlgebra.
Context `{!ProtoMessage Metadata} `{!ProtoLaws Metadata}.
Implicit Types (certificate originalMetadata newMetadata : bytes).
Implicit Types (metadata : Metadata) (consenter : Consenter).

Lemma filter_differs_idemp certificate (consenters : list Consenter) :
  filter (differs_from certificate) (filter (differs_from certificate) consenters)
  = filter (differs_from certificate) consenters.
Proof.
  apply filter_differs_all. intros c Hc. by apply list_elem_of_filter in Hc as [? _].
Qed.

Lemma filter_differs_comm certificate1 certificate2 (consenters : list Consenter) :
  filter (differs_from certificate2) (filter (differs_from certificate1) consenters)
  = filter (differs_from certificate1) (filter (differs_from certificate2) consenters).
Proof.
  induction consenters as [|c cs IH]; [done|].
  destruct (decide (differs_from certificate1 c)) as [H1|H1];
    destruct (decide (differs_from certificate2 c)) as [H2|H2];
    repeat first [rewrite (filter_cons_True _ _ _ H1) | rewrite (filter_cons_True _ _ _ H2)
                 | rewrite (filter_cons_False _ _ _ H1)
                 | rewrite (filter_cons_False _ _ _ H2)];
    by rewrite ?IH.
Qed.

Lemma filter_differs_length certificate (consenters : list Consenter) :
  length (filter (differs_from certificate) consenters)
  + length (filter (λ c, certificate ∈ certificates c) consenters)
  = length consenters.
Proof.
  induction consenters as [|c cs IH]; [done|].
  destruct (decide (differs_from certificate c)) as [Hc|Hc].
  - rewrite filter_cons_True by done.
    rewrite (filter_cons_False (λ c, certificate ∈ certificates c))
      by (by apply differs_from_certificates).
    simpl. lia.
  - rewrite filter_cons_False by done.
    rewrite (filter_cons_True (λ c, certificate ∈ certificates c)).
    + simpl. lia.
    + destruct (decide (certificate ∈ certificates c)) as [|Hn]; [done|].
      by apply differs_from_certificates in Hn.
Qed.


(** X2. [RemoveConsenter] removes for good: no record of the payload it
    returns carries the certificate, and the closure applied to that payload
    returns the very same bytes. *)
Theorem RemoveConsenter_is_idempotent certificate originalMetadata metadata :
  Unmarshal originalMetadata = Some metadata →
  ∃ newMetadata metadata',
    RemoveConsenter_mutator certificate originalMetadata = Ok newMetadata
    ∧ Unmarshal newMetadata = Some metadata'
    ∧ (∀ c, c ∈ Consenters metadata' →
            ClientTlsCert c ≠ certificate ∧ ServerTlsCert c ≠ certificate)
    ∧ RemoveConsenter_mutator certificate newMetadata = Ok newMetadata.
Proof.
  intros Hdec.
  destruct (RemoveConsenter_mutator_decoded certificate _ _ Hdec)
    as (removed & Hrem & Henc & Hremoved).
  exists removed, (set_Consenters (filter (differs_from certificate) (Consenters metadata))
                                  metadata).
  split_and!; [done..| |].
  - simpl. intros c Hc. by apply list_elem_of_filter in Hc as [? _].
  - destruct (RemoveConsenter_mutator_decoded certificate _ _ Hremoved)
      as (again & Hagain & Henc' & _).
    simpl in Henc'. unfold set_Consenters in Henc, Henc'. simpl in Henc'.
    rewrite filter_differs_idemp in Henc'. congruence.
Qed.

(** X3. [RemoveConsenter] drops every record that carries the certificate,
    as client or as server certificate, however many there are: the records
    left and the records that carry it add up to the original list, and when
    every record carries it the list that is left is empty. *)
Theorem RemoveConsenter_drops_every_match certificate originalMetadata metadata :
  Unmarshal originalMetadata = Some metadata →
  ∃ newMetadata metadata',
    RemoveConsenter_mutator certificate originalMetadata = Ok newMetadata
    ∧ Unmarshal newMetadata = Some metadata'
    ∧ length (Consenters metadata')
      + length (filter (λ c, certificate ∈ certificates c) (Consenters metadata))
      = length (Consenters metadata)
    ∧ ((∀ c, c ∈ Consenters metadata → certificate ∈ certificates c) →
       Consenters metadata' = []).
Proof.
  intros Hdec.
  destruct (RemoveConsenter_mutator_decoded certificate _ _ Hdec)
    as (removed & Hrem & _ & Hremoved).
  exists removed, (set_Consenters (filter (differs_from certificate) (Consenters metadata))
                                  metadata).
  split_and!; [done..|apply filter_differs_length|].
  simpl. intros Hall.
  destruct (filter (differs_from certificate) (Consenters metadata)) as [|c cs] eqn:Hleft;
    [done|].
  assert (Hc : c ∈ filter (differs_from certificate) (Consenters metadata))
    by (rewrite Hleft; left).
  apply list_elem_of_filter in Hc as [Hdiffers Hin].
  apply differs_from_certificates in Hdiffers. destruct Hdiffers. by apply Hall.
Qed.

(** X4. Removals by two certificates commute: in either order the two
    closures return the same bytes. *)
Theorem RemoveConsenter_commutes certificate1 certificate2 originalMetadata metadata :
  Unmarshal originalMetadata = Some metadata →
  ∃ first1 first2 both,
    RemoveConsenter_mutator certificate1 originalMetadata = Ok first1
    ∧ RemoveConsenter_mutator certificate2 originalMetadata = Ok first2
    ∧ RemoveConsenter_mutator certificate2 first1 = Ok both
    ∧ RemoveConsenter_mutator certificate1 first2 = Ok both.
Proof.
  intros Hdec.
  destruct (RemoveConsenter_mutator_decoded certificate1 _ _ Hdec)
    as (first1 & Hrem1 & _ & Hdec1).
  destruct (RemoveConsenter_mutator_decoded certificate2 _ _ Hdec)
    as (first2 & Hrem2 & _ & Hdec2).
  destruct (RemoveConsenter_mutator_decoded certificate2 _ _ Hdec1)
    as (both & Hboth & Henc & _).
  destruct (RemoveConsenter_mutator_decoded certificate1 _ _ Hdec2)
    as (both' & Hboth' & Henc' & _).
  exists first1, first2, both. split_and!; [done..|].
  unfold set_Consenters in Henc, Henc'. simpl in Henc, Henc'.
  rewrite filter_differs_comm in Henc. congruence.
Qed.

End MutatorAlgebra.


Lemma RemoveConsenter_is_idempotent_witness :
  ∃ newMetadata metadata',
    RemoveConsenter_mutator [x1a] Wire.payloadAB = Ok newMetadata
    ∧ Unmarshal newMetadata = Some metadata'
    ∧ (∀ c, c ∈ Consenters metadata' → ClientTlsCert c ≠ [x1a] ∧ ServerTlsCert c ≠ [x1a])
    ∧ RemoveConsenter_mutator [x1a] newMetadata = Ok newMetadata.
Proof.
  apply (RemoveConsenter_is_idempotent [x1a] Wire.payloadAB Wire.metadataAB).
  reflexivity.
Defined.

Lemma RemoveConsenter_drops_every_match_witness :
  ∃ newMetadata metadata',
    RemoveConsenter_mutator [x0b] Wire.payloadAB = Ok newMetadata
    ∧ Unmarshal newMetadata = Some metadata'
    ∧ length (Consenters metadata')
      + length (filter (λ c, [x0b] ∈ certificates c) (Consenters Wire.metadataAB))
      = length (Consenters Wire.metadataAB)
    ∧ ((∀ c, c ∈ Consenters Wire.metadataAB → [x0b] ∈ certificates c) →
       Consenters metadata' = []).
Proof.
  apply (RemoveConsenter_drops_every_match [x0b] Wire.payloadAB Wire.metadataAB).
  reflexivity.
Defined.

Lemma RemoveConsenter_commutes_witness :
  ∃ first1 first2 both,
    RemoveConsenter_mutator [x0a] Wire.payloadAB = Ok first1
    ∧ RemoveConsenter_mutator [x1b] Wire.payloadAB = Ok first2
    ∧ RemoveConsenter_mutator [x1b] first1 = Ok both
    ∧ RemoveConsenter_mutator [x0a] first2 = Ok both.
Proof.
  apply (RemoveConsenter_commutes [x0a] [x1b] Wire.payloadAB Wire.metadataAB).
  reflexivity.
Defined.


(** ** Runs: results, final states and logs *)
Section RunFacts.
Context {Peer Orderer World : Type}.
Context `{!ProtoMessage Block.t, !ProtoMessage Envelope.t, !ProtoMessage Payload.t}.
Context `{!ProtoMessage ConfigEnvelope.t, !ProtoMessage ConfigUpdate.t}.
Context `{!ProtoMessage ConfigUpdateEnvelope.t, !ProtoMessage ConsensusType.t}.
Context `{!ProtoMessage Metadata}.
Context (Compute : Config.t → Config.t → option ConfigUpdate.t).
Context (os : System (World:=World)).
Local Abbreviation run := (run (Peer:=Peer) (Orderer:=Orderer) (World:=World)).
Local Abbreviation Event := (Event (Peer:=Peer) (Orderer:=Orderer)).
Local Abbreviation State := (State (World:=World)).
Local Abbreviation Network := (Network (Peer:=Peer) (Orderer:=Orderer) (World:=World)).
Implicit Types (n : Network) (orderer : Orderer) (peer submitter : Peer).
Implicit Types (channel : string) (current updated : ptr) (s : State) (e : Event).

Lemma UpdateConfig_flow n orderer channel current updated submitter signers :
  UpdateConfig Compute os n orderer channel current updated submitter signers
  = update_flow Compute os (n_PeerAdminSession n)
                n orderer channel current updated submitter signers.
Proof. reflexivity. Qed.

Lemma UpdateOrdererConfig_flow n orderer channel current updated submitter signers :
  UpdateOrdererConfig Compute os n orderer channel current updated submitter signers
  = update_flow Compute os (λ signer, n_OrdererAdminSession n signer submitter)
                n orderer channel current updated submitter signers.
Proof. reflexivity. Qed.

(** The three components of a sequence of two runs. *)
Lemma bind_Ok {A B} (m : run A) (k : A → run B) (s : State) (a : A) :
  res (m s) = Ok a →
  (m ≫= k) s = mkOutcome (res (k a (final (m s)))) (final (k a (final (m s))))
                         (emitted (m s) ++ emitted (k a (final (m s)))).
Proof. intros E. unfold mbind, run_mbind. by rewrite E. Qed.

Lemma bind_Err {A B} (m : run A) (k : A → run B) (s : State) (f : Failure) :
  res (m s) = Err f →
  (m ≫= k) s = mkOutcome (Err f) (final (m s)) (emitted (m s)).
Proof. intros E. unfold mbind, run_mbind. by rewrite E. Qed.

Lemma lift_bind {A B} (r : result A) (k : A → run B) (s : State) :
  (lift r ≫= k) s = match r with
                     | Ok a => k a s
                     | Err f => mkOutcome (Err f) s []
                     end.
Proof. unfold mbind, run_mbind, lift. simpl. destruct r; [|done]. by destruct (k a s). Qed.

(** *** Rules for [satisfies] *)

Lemma satisfies_mono {A} (m : run A) s (Q Q' : result A → State → list Event → Prop) :
  satisfies m s Q → (∀ r s' ev, Q r s' ev → Q' r s' ev) → satisfies m s Q'.
Proof. unfold satisfies. auto. Qed.

Lemma satisfies_ret {A} (a : A) s (Q : result A → State → list Event → Prop) :
  Q (Ok a) s [] → satisfies (mret a) s Q.
Proof. done. Qed.

Lemma satisfies_fail {A} (f : Failure) s (Q : result A → State → list Event → Prop) :
  Q (Err f) s [] → satisfies (fail f) s Q.
Proof. done. Qed.

Lemma satisfies_lift {A} (r : result A) s (Q : result A → State → list Event → Prop) :
  Q r s [] → satisfies (lift r) s Q.
Proof. done. Qed.

Lemma satisfies_bind {A B} (m : run A) (k : A → run B) s
    (Q : result B → State → list Event → Prop) :
  satisfies m s (λ r s1 ev1,
    match r with
    | Ok a => satisfies (k a) s1 (λ r' s' ev2, Q r' s' (ev1 ++ ev2))
    | Err f => Q (Err f) s1 ev1
    end) →
  satisfies (m ≫= k) s Q.
Proof.
  unfold satisfies. intros H. destruct (res (m s)) as [a|f] eqn:E.
  - by rewrite (bind_Ok _ _ _ _ E).
  - by rewrite (bind_Err _ _ _ _ E).
Qed.

(** The same, from a property [Q0] of the first run proved elsewhere. *)
Lemma satisfies_bind_with {A B} (m : run A) (k : A → run B) s
    (Q0 : result A → State → list Event → Prop)
    (Q : result B → State → list Event → Prop) :
  satisfies m s Q0 →
  (∀ r s1 ev1, Q0 r s1 ev1 →
     match r with
     | Ok a => satisfies (k a) s1 (λ r' s' ev2, Q r' s' (ev1 ++ ev2))
     | Err f => Q (Err f) s1 ev1
     end) →
  satisfies (m ≫= k) s Q.
Proof.
  intros H0 H. apply satisfies_bind. eapply satisfies_mono; [exact H0|]. exact H.
Qed.

Lemma satisfies_defer {A} (cleanup : State → State * Event) (body : run A) s
    (Q : result A → State → list Event → Prop) :
  satisfies body s (λ r s1 ev, Q r (cleanup s1).1 (ev ++ [(cleanup s1).2])) →
  satisfies (defer cleanup body) s Q.
Proof. unfold satisfies, defer. simpl. by destruct (cleanup _). Qed.

Lemma satisfies_TempDir (prefix : string) s (Q : result string → State → list Event → Prop) :
  (∀ dir w, Q (expect IOError dir) (mkState w (store s)) [TempDir_event prefix dir]) →
  satisfies (ioutil_TempDir os prefix) s Q.
Proof. unfold satisfies, ioutil_TempDir. intros H. destruct (TempDir _ _ _) as [x w]. apply H. Qed.

Lemma satisfies_WriteFile (path : string) (data : bytes) s (Q : result unit → State → list Event → Prop) :
  (∀ (ok : bool) w, Q (if ok then Ok () else Err IOError) (mkState w (store s))
             [WriteFile_event path data ok]) →
  satisfies (ioutil_WriteFile os path data) s Q.
Proof. unfold satisfies, ioutil_WriteFile. intros H. destruct (WriteFile _ _ _ _) as [x w]. apply H. Qed.

Lemma satisfies_ReadFile (path : string) s (Q : result bytes → State → list Event → Prop) :
  (∀ data w, Q (expect IOError data) (mkState w (store s)) [ReadFile_event path data]) →
  satisfies (ioutil_ReadFile os path) s Q.
Proof. unfold satisfies, ioutil_ReadFile. intros H. destruct (ReadFile _ _ _) as [x w]. apply H. Qed.

Lemma satisfies_PeerAdminSession n peer command s
    (Q : result Session → State → list Event → Prop) :
  (∀ sess w, Q (expect SessionError sess) (mkState w (store s))
               [PeerAdminSession_event peer command sess]) →
  satisfies (n_PeerAdminSession n peer command) s Q.
Proof.
  unfold satisfies, n_PeerAdminSession. intros H. destruct (PeerAdminSession _ _ _ _) as [x w]. apply H.
Qed.

Lemma satisfies_OrdererAdminSession n orderer peer command s
    (Q : result Session → State → list Event → Prop) :
  (∀ sess w, Q (expect SessionError sess) (mkState w (store s))
               [OrdererAdminSession_event orderer peer command sess]) →
  satisfies (n_OrdererAdminSession n orderer peer command) s Q.
Proof.
  unfold satisfies, n_OrdererAdminSession. intros H.
  destruct (OrdererAdminSession _ _ _ _ _) as [x w]. apply H.
Qed.

Lemma satisfies_Exit sess code s (Q : result unit → State → list Event → Prop) :
  Q (if decide (ExitCode sess = Some code) then Ok () else Err ExitError) s [] →
  satisfies (Eventually_Exit sess code) s Q.
Proof. unfold satisfies, Eventually_Exit. by case_decide. Qed.

Lemma satisfies_Say sess pattern s (Q : result unit → State → list Event → Prop) :
  Q (if Say pattern (Err_buffer sess) then Ok () else Err OutputMismatch) s [] →
  satisfies (Expect_Say sess pattern) s Q.
Proof. unfold satisfies, Expect_Say. by destruct (Say _ _). Qed.
Lemma CurrentConfigBlockNumber_spec n peer orderer channel s :
  satisfies (CurrentConfigBlockNumber os n peer orderer channel) s (λ r s' ev,
    store s' = store s
    ∧ Forall (λ e, quiet e = true) ev
    ∧ omap observed_number ev = match r with Ok v => [v] | Err _ => [] end).
Proof.
  unfold CurrentConfigBlockNumber, UnmarshalBlockFromFile.
  apply satisfies_bind, satisfies_TempDir. intros [tempDir|] w1; simpl.
  2:{ split_and!; [done|by repeat constructor|done]. }
  apply satisfies_defer.
  apply satisfies_bind, satisfies_PeerAdminSession. intros [sess|] w2; simpl.
  2:{ split_and!; [done|by repeat constructor|done]. }
  apply satisfies_bind, satisfies_Exit. case_decide; simpl.
  2:{ split_and!; [done|by repeat constructor|done]. }
  apply satisfies_bind, satisfies_Say. destruct (Say _ _); simpl.
  2:{ split_and!; [done|by repeat constructor|done]. }
  apply satisfies_bind, satisfies_bind, satisfies_ReadFile.
  intros [blockBytes|] w3; simpl.
  2:{ split_and!; [done|by repeat constructor|done]. }
  apply satisfies_bind, satisfies_lift.
  destruct (Unmarshal blockBytes) as [block|] eqn:Hblock; simpl.
  2:{ split_and!; [done|by repeat constructor|done]. }
  apply satisfies_ret; simpl.
  apply satisfies_bind, satisfies_lift.
  destruct (Block.Header block) as [header|] eqn:Hheader; simpl.
  2:{ split_and!; [done|by repeat constructor|done]. }
  apply satisfies_ret; simpl.
  split_and!; [done|by repeat constructor|done].
Qed.

(** Polling until the number exceeds the threshold: the poll succeeds exactly
    when one of the numbers it has seen exceeds the threshold. *)
Lemma Eventually_BeNumerically_gt_spec polls n peer orderer channel threshold s :
  satisfies (Eventually_BeNumerically_gt polls
               (CurrentConfigBlockNumber os n peer orderer channel) threshold) s
    (λ r s' ev,
      store s' = store s
      ∧ Forall (λ e, quiet e = true) ev
      ∧ (r = Ok () ↔ ∃ v, v ∈ omap observed_number ev ∧ (threshold < v)%N)).
Proof.
  revert s. induction polls as [|polls IH]; intros s; simpl.
  - eapply satisfies_bind_with; [apply CurrentConfigBlockNumber_spec|].
    intros [v|f] s1 ev1 (Hstore & Hquiet & Hobs); simpl.
    + destruct (N.ltb_spec threshold v) as [Hlt|Hge].
      * apply satisfies_ret. rewrite app_nil_r, Hobs. split_and!; [done..|].
        split; [|done]. intros _. exists v. split; [left|done].
      * apply satisfies_fail. rewrite app_nil_r, Hobs. split_and!; [done..|].
        split; [done|]. intros (v' & Hv' & Hlt). apply list_elem_of_singleton in Hv'. lia.
    + rewrite Hobs. split_and!; [done..|]. split; [done|].
      intros (v' & Hv' & _). by apply elem_of_nil in Hv'.
  - eapply satisfies_bind_with; [apply CurrentConfigBlockNumber_spec|].
    intros [v|f] s1 ev1 (Hstore & Hquiet & Hobs); simpl.
    + destruct (N.ltb_spec threshold v) as [Hlt|Hge].
      * apply satisfies_ret. rewrite app_nil_r, Hobs. split_and!; [done..|].
        split; [|done]. intros _. exists v. split; [left|done].
      * eapply satisfies_mono; [apply IH|]. simpl.
        intros r s' ev (Hstore' & Hquiet' & Hiff). rewrite omap_app, Hobs.
        split_and!; [congruence|by apply Forall_app|].
        rewrite Hiff. split; intros (v' & Hv' & Hlt).
        -- exists v'. split; [|done]. by right.
        -- exists v'. split; [|done]. apply elem_of_cons in Hv' as [->|Hv']; [lia|done].
    + rewrite Hobs. split_and!; [done..|]. split; [done|].
      intros (v' & Hv' & _). by apply elem_of_nil in Hv'.
Qed.

(** *** Kinds of events *)

Lemma quiet_true e :
  quiet e = true →
  is_sign_request e = false ∧ is_submission e = false
  ∧ is_compute e = false ∧ is_write e = false.
Proof.
  unfold quiet. rewrite negb_true_iff, !orb_false_iff. tauto.
Qed.

Lemma is_sign_request_true e :
  is_sign_request e = true →
  is_submission e = false ∧ is_compute e = false ∧ is_write e = false
  ∧ observed_number e = None.
Proof. by destruct e as [| | | |? []|? ? []|]. Qed.

Lemma is_submission_true e :
  is_submission e = true →
  is_sign_request e = false ∧ is_compute e = false ∧ is_write e = false
  ∧ observed_number e = None.
Proof. by destruct e as [| | | |? []|? ? []|]. Qed.

Lemma peer_signer_Some e peer : peer_signer e = Some peer → is_sign_request e = true.
Proof. by destruct e as [| | | |? []|? ? []|]. Qed.

Lemma orderer_signer_Some e orderer :
  orderer_signer e = Some orderer → is_sign_request e = true.
Proof. by destruct e as [| | | |? []|? ? []|]. Qed.

(** [f] picks nothing from a list on which [f] is undefined. *)
Lemma omap_None {A B} (f : A → option B) (l : list A) :
  Forall (λ x, f x = None) l → omap f l = [].
Proof. induction 1 as [|x l Hx _ IH]; [done|]. simpl. by rewrite Hx. Qed.

Lemma omap_all_Some {A B} (f : A → option B) (l : list A) :
  omap f l = [] → Forall (λ x, f x = None) l.
Proof.
  induction l as [|x l IH]; [done|]. simpl. destruct (f x) eqn:E; [done|].
  intros H. constructor; auto.
Qed.

(** *** The envelope of an update *)

Lemma satisfies_load p s (Q : result Config.t → State → list Event → Prop) :
  Q (expect NilDereference (p ≫= (λ a, store s !! a))) s [] → satisfies (load p) s Q.
Proof. done. Qed.

(** The envelope of an update: one hand-over to [update.Compute], of the
    configurations the two pointers point to, and an envelope without
    signature. *)
Lemma build_update_envelope_spec channel current updated s :
  satisfies (build_update_envelope Compute os channel current updated) s (λ r s' ev,
    s' = s
    ∧ Forall (λ e, is_compute e = true
                   ∧ update_event_ok Compute channel (store s) current updated e) ev
    ∧ ∀ signedEnvelope envelopeBytes,
        r = Ok signedEnvelope → Marshal signedEnvelope = Some envelopeBytes →
        ∃ c u configUpdate now,
          current ≫= (λ a, store s !! a) = Some c
          ∧ updated ≫= (λ a, store s !! a) = Some u
          ∧ Compute c u = Some configUpdate
          ∧ update_envelope_bytes channel configUpdate now envelopeBytes).
Proof.
  unfold build_update_envelope, update_Compute.
  apply satisfies_bind, satisfies_bind, satisfies_load.
  destruct (current ≫= _) as [c|] eqn:Hc; simpl; [|done].
  apply satisfies_bind, satisfies_load.
  destruct (updated ≫= _) as [u|] eqn:Hu; simpl; [|done].
  unfold satisfies at 1. simpl.
  destruct (Compute c u) as [configUpdate|] eqn:Hcompute; simpl.
  2:{ split_and!; [done|by repeat constructor|done]. }
  apply satisfies_bind, satisfies_lift. unfold MarshalOrPanic.
  destruct (Marshal (ConfigUpdate.set_ChannelId _ _)) as [updateBytes|] eqn:Hupdate; simpl.
  2:{ split_and!; [done|by repeat constructor|done]. }
  apply satisfies_bind. unfold satisfies at 1, time_Now. simpl.
  apply satisfies_bind, satisfies_lift. unfold CreateSignedEnvelope. simpl.
  destruct (Marshal (ConfigUpdateEnvelope.mk _ _)) as [wrapped|] eqn:Hwrapped; simpl.
  2:{ split_and!; [done|by repeat constructor|done]. }
  destruct (Marshal (Payload.mk _ _ _)) as [paylBytes|] eqn:Hpayl; simpl.
  2:{ split_and!; [done|by repeat constructor|done]. }
  apply satisfies_ret. split_and!; [done|by repeat constructor|].
  intros signedEnvelope envelopeBytes [= <-] Henv.
  exists c, u, configUpdate, (Now os (world s)). split_and!; [done..|].
  by exists updateBytes, wrapped, paylBytes.
Qed.

(** *** Submission and confirmation *)
Lemma submit_and_wait_spec n orderer channel submitter (updateFile : string) s :
  satisfies (submit_and_wait os n orderer channel submitter updateFile) s (λ r s' ev,
    store s' = store s
    ∧ ((r ≠ Ok () ∧ Forall (λ e, quiet e = true) ev)
       ∨ ∃ base answer after baseline,
           ev = base
                ++ PeerAdminSession_event submitter
                     (ChannelUpdate channel (OrdererAddress n orderer) updateFile) answer
                :: after
           ∧ Forall (λ e, quiet e = true) base
           ∧ Forall (λ e, quiet e = true) after
           ∧ omap observed_number base = [baseline]
           ∧ (r = Ok () ↔ ∃ v, v ∈ omap observed_number after ∧ (baseline < v)%N))).
Proof.
  unfold submit_and_wait.
  eapply satisfies_bind_with; [apply CurrentConfigBlockNumber_spec|].
  intros [baseline|f] s1 base (Hstore1 & Hbase & Hobserved); simpl.
  2:{ split; [done|]. left. by split. }
  apply satisfies_bind, satisfies_PeerAdminSession. intros [sess|] w2; simpl.
  2:{ split; [done|]. right. exists base, None, [], baseline.
      split_and!; [done..|]. split; [done|]. intros (v & Hv & _). by apply elem_of_nil in Hv. }
  apply satisfies_bind, satisfies_Exit. case_decide; simpl.
  2:{ split; [done|]. right. exists base, (Some sess), [], baseline.
      split_and!; [done..|]. split; [done|]. intros (v & Hv & _). by apply elem_of_nil in Hv. }
  apply satisfies_bind, satisfies_Say. destruct (Say _ _); simpl.
  2:{ split; [done|]. right. exists base, (Some sess), [], baseline.
      split_and!; [done..|]. split; [done|]. intros (v & Hv & _). by apply elem_of_nil in Hv. }
  eapply satisfies_mono; [apply Eventually_BeNumerically_gt_spec|]. simpl.
  intros r s' after (Hstore' & Hafter & Hiff).
  split; [congruence|]. right. by exists base, (Some sess), after, baseline.
Qed.

(** *** Collecting the signatures

    [session] runs a command on behalf of a signer and logs one event, from
    which [signer_of] reads the signer back. *)
Section Signing.
Context {S : Type} (session : S → Command → run Session).
Context (signer_of : Event → option S).
Hypothesis signer_of_sign : ∀ e x, signer_of e = Some x → is_sign_request e = true.
Hypothesis satisfies_session :
  ∀ x file s (Q : result Session → State → list Event → Prop),
    (∀ e r w,
       signer_of e = Some x →
       completed e = match r with
                     | Ok sess => bool_decide (ExitCode sess = Some 0%Z)
                     | Err _ => false
                     end →
       Q r (mkState w (store s)) [e]) →
    satisfies (session x (SignConfigTx file)) s Q.

Lemma sign_loop_spec file signers s :
  satisfies (sign_loop session file signers) s (λ r s' ev,
    store s' = store s
    ∧ Forall (λ e, is_sign_request e = true) ev
    ∧ match r with
      | Ok _ => omap signer_of ev = signers ∧ Forall (λ e, completed e = true) ev
      | Err _ => ∃ k ev0 e,
          ev = ev0 ++ [e] ∧ omap signer_of ev = take (Datatypes.S k) signers
          ∧ k < length signers
          ∧ Forall (λ e, completed e = true) ev0 ∧ completed e = false
      end).
Proof.
  unfold sign_loop. revert s. induction signers as [|x xs IH]; intros s; simpl.
  { by apply satisfies_ret. }
  apply satisfies_bind, satisfies_bind, satisfies_session.
  intros e r w Hsigner Hcompleted. pose proof (signer_of_sign _ _ Hsigner) as Hsign.
  destruct r as [sess|f]; simpl.
  - apply satisfies_Exit.
    destruct (decide (ExitCode sess = Some 0%Z)) as [Hexit|Hexit]; simpl.
    + rewrite bool_decide_eq_true_2 in Hcompleted by done.
      eapply satisfies_mono; [apply IH|]. simpl.
      intros r s' ev (Hstore & Hsigns & Hr). simpl. rewrite Hsigner.
      split_and!; [done|by constructor|].
      destruct r as [[]|f].
      * destruct Hr as [Hxs Hall]. split; [f_equal; exact Hxs|by constructor].
      * destruct Hr as (k & ev0 & e' & -> & Htake & Hk & Hall & Hbad).
        exists (Datatypes.S k), (e :: ev0), e'.
        split_and!; [done|f_equal; exact Htake|simpl; lia|by constructor|done].
    + rewrite bool_decide_eq_false_2 in Hcompleted by done.
      split_and!; [done|by repeat constructor|].
      exists 0, [], e. rewrite Hsigner. simpl. rewrite take_0.
      split_and!; [done|done|lia|done|done].
  - split_and!; [done|by repeat constructor|].
    exists 0, [], e. rewrite Hsigner. simpl. rewrite take_0.
    split_and!; [done|done|lia|done|done].
Qed.

Lemma signer_of_None e : is_sign_request e = false → signer_of e = None.
Proof.
  intros H. destruct (signer_of e) as [x|] eqn:E; [|done].
  apply signer_of_sign in E. congruence.
Qed.

Lemma omap_signer_of_nil (l : list Event) :
  Forall (λ e, is_sign_request e = false) l → omap signer_of l = [].
Proof.
  intros H. apply omap_None. eapply Forall_impl; [exact H|]. apply signer_of_None.
Qed.

(** Facts on the three kinds of segments of the log of an update. *)
Lemma compute_segment channel (σ : gmap positive Config.t) current updated (l : list Event) :
  Forall (λ e, is_compute e = true
               ∧ update_event_ok Compute channel σ current updated e) l →
  Forall (update_event_ok Compute channel σ current updated) l
  ∧ Forall (λ e, is_submission e = false) l
  ∧ Forall (λ e, is_sign_request e = false) l
  ∧ omap observed_number l = [].
Proof.
  intros H. split_and!.
  - eapply Forall_impl; [exact H|]. by intros e [_ ?].
  - eapply Forall_impl; [exact H|]. intros e [? _]. by destruct e.
  - eapply Forall_impl; [exact H|]. intros e [? _]. by destruct e.
  - apply omap_None. eapply Forall_impl; [exact H|]. intros e [? _]. by destruct e.
Qed.

Lemma sign_segment channel (σ : gmap positive Config.t) current updated (l : list Event) :
  Forall (λ e, is_sign_request e = true) l →
  Forall (update_event_ok Compute channel σ current updated) l
  ∧ Forall (λ e, is_submission e = false) l
  ∧ omap observed_number l = [].
Proof.
  intros H. split_and!.
  - eapply Forall_impl; [exact H|]. intros e He. by destruct e.
  - eapply Forall_impl; [exact H|]. intros e He. by apply is_sign_request_true in He as (?&?&?&?).
  - apply omap_None. eapply Forall_impl; [exact H|]. intros e He.
    by apply is_sign_request_true in He as (?&?&?&?).
Qed.

Lemma quiet_segment channel (σ : gmap positive Config.t) current updated (l : list Event) :
  Forall (λ e, quiet e = true) l →
  Forall (update_event_ok Compute channel σ current updated) l
  ∧ Forall (λ e, is_submission e = false) l
  ∧ Forall (λ e, is_sign_request e = false) l.
Proof.
  intros H. split_and!.
  - eapply Forall_impl; [exact H|]. intros e He. apply quiet_true in He as (?&?&?&?).
    by destruct e.
  - eapply Forall_impl; [exact H|]. intros e He. by apply quiet_true in He as (?&?&?&?).
  - eapply Forall_impl; [exact H|]. intros e He. by apply quiet_true in He as (?&?&?&?).
Qed.

(** *** The update flow as a whole *)

Ltac all_events :=
  repeat first
    [ apply Forall_nil
    | apply Forall_cons; split
    | apply Forall_app; split ];
  try done.

Lemma update_flow_spec n orderer channel current updated submitter signers s :
  satisfies (update_flow Compute os session n orderer channel current updated
                         submitter signers) s
    (update_outcome Compute signer_of n orderer channel current updated submitter
                    signers s).
Proof.
  unfold update_flow, update_outcome.
  apply satisfies_bind, satisfies_TempDir. intros [tempDir|] w1; cbn [expect].
  2:{ split_and!; [done|by repeat constructor|]. left.
      split_and!; [done|by repeat constructor|]. exists 0. rewrite take_0.
      apply omap_signer_of_nil. by repeat constructor. }
  apply satisfies_defer.
  eapply satisfies_bind_with; [apply build_update_envelope_spec|].
  intros [signedEnvelope|f] s1 ev1 (-> & Hev1 & Henv);
    apply compute_segment in Hev1 as (Hok1 & Hsub1 & Hsign1 & Hobs1);
    cbn [store os_RemoveAll fst snd] in *.
  2:{ split_and!; [done|all_events|]. left.
      split_and!; [done|all_events|]. exists 0. rewrite take_0.
      apply omap_signer_of_nil. all_events. }
  apply satisfies_bind, satisfies_lift. unfold MarshalOrPanic.
  destruct (Marshal signedEnvelope) as [envelopeBytes|] eqn:Hmarshal; cbn [expect].
  2:{ rewrite app_nil_r. cbn [store os_RemoveAll fst snd].
      split_and!; [done|all_events|]. left.
      split_and!; [done|all_events|]. exists 0. rewrite take_0.
      apply omap_signer_of_nil. all_events. }
  destruct (Henv _ _ eq_refl Hmarshal) as (c & u & configUpdate & now & Hwritten).
  apply satisfies_bind, satisfies_WriteFile. intros ok w2.
  assert (Hwrite : update_event_ok (Peer:=Peer) (Orderer:=Orderer) Compute channel (store s) current updated
            (WriteFile_event (filepath_Join tempDir "update.pb") envelopeBytes ok)).
  { by exists c, u, configUpdate, now. }
  destruct ok; cbn [store os_RemoveAll fst snd].
  2:{ rewrite app_nil_l. split_and!; [done|all_events|]. left.
      split_and!; [done|all_events|]. exists 0. rewrite take_0.
      apply omap_signer_of_nil. all_events. }
  eapply satisfies_bind_with; [apply sign_loop_spec|].
  intros r s2 ev2 (Hstore2 & Hsigns & Hr). cbn [store] in Hstore2.
  destruct (sign_segment channel (store s) current updated ev2 Hsigns)
    as (Hok2 & Hsub2 & Hobs2).
  assert (Hsilent : ∀ e : Event, is_sign_request e = false → omap signer_of [e] = []).
  { intros e He. apply omap_signer_of_nil. by constructor. }
  destruct r as [[]|f].
  2:{ destruct Hr as (k & ev0 & e & Hev2 & Htake & Hk & Hall & Hbad).
      split_and!; [done|all_events|]. left.
      split_and!; [done|all_events|]. exists (Datatypes.S k).
      rewrite !omap_app, Htake, (omap_signer_of_nil ev1), !Hsilent by done.
      by rewrite app_nil_r. }
  destruct Hr as [Hsigners Hcompleted].
  eapply satisfies_mono; [apply submit_and_wait_spec|]. cbn beta.
  intros r s' ev3 (Hstore3 & Hsubmit). split; [congruence|].
  destruct Hsubmit as [[Hr Hquiet]|(base & answer & after & baseline & -> & Hbase & Hafter
                                    & Hbaseline & Hiff)].
  - apply (quiet_segment channel (store s) current updated) in Hquiet
      as (Hok3 & Hsub3 & Hsign3).
    split; [all_events|]. left.
    split_and!; [done|all_events|]. exists (length signers).
    rewrite !omap_app, Hsigners, (omap_signer_of_nil ev1), (omap_signer_of_nil ev3),
      !Hsilent by done.
    rewrite firstn_all. simpl. by rewrite ?app_nil_r.
  - destruct (quiet_segment channel (store s) current updated base Hbase)
      as (Hok3 & Hsub3 & Hsign3).
    destruct (quiet_segment channel (store s) current updated after Hafter)
      as (Hok4 & Hsub4 & Hsign4).
    split; [all_events|]. right.
    exists ([TempDir_event "updateConfig" (Some tempDir)] ++ ev1
            ++ [WriteFile_event (filepath_Join tempDir "update.pb") envelopeBytes true]
            ++ ev2 ++ base),
      (filepath_Join tempDir "update.pb"), answer,
      (after ++ [RemoveAll_event tempDir]), baseline.
    split_and!.
    + by rewrite <- !app_assoc.
    + all_events.
    + apply Forall_app. split; [|by repeat constructor].
      apply Forall_forall. intros e He. split.
      * by apply (proj1 (Forall_forall _ _) Hsub4).
      * by apply (proj1 (Forall_forall _ _) Hsign4).
    + rewrite !omap_app, Hsigners, (omap_signer_of_nil ev1), (omap_signer_of_nil base),
        !Hsilent by done.
      simpl. by rewrite ?app_nil_r.
    + apply Forall_forall. intros e He Hsign.
      rewrite !elem_of_app in He. destruct He as [He|[He|[He|[He|He]]]].
      * apply list_elem_of_singleton in He as ->. done.
      * apply (proj1 (Forall_forall _ _) Hsign1) in He. congruence.
      * apply list_elem_of_singleton in He as ->. done.
      * by apply (proj1 (Forall_forall _ _) Hcompleted).
      * apply (proj1 (Forall_forall _ _) Hsign3) in He. congruence.
    + rewrite !omap_app, Hobs1, Hobs2, Hbaseline. done.
    + rewrite Hiff. rewrite omap_app. simpl. by rewrite app_nil_r.
Qed.
End Signing.

(** ** The two update functions: signatures, submission, confirmation *)

Lemma UpdateConfig_spec n orderer channel current updated submitter signers s :
  satisfies (UpdateConfig Compute os n orderer channel current updated submitter signers) s
    (update_outcome Compute peer_signer n orderer channel current updated submitter
                    signers s).
Proof.
  rewrite UpdateConfig_flow. apply update_flow_spec; [apply peer_signer_Some|].
  intros x file s0 Q H. apply satisfies_PeerAdminSession. intros sess w.
  apply H; [done|by destruct sess].
Qed.

Lemma UpdateOrdererConfig_spec n orderer channel current updated submitter signers s :
  satisfies (UpdateOrdererConfig Compute os n orderer channel current updated submitter
                                 signers) s
    (update_outcome Compute orderer_signer n orderer channel current updated submitter
                    signers s).
Proof.
  rewrite UpdateOrdererConfig_flow. apply update_flow_spec; [apply orderer_signer_Some|].
  intros x file s0 Q H. apply satisfies_OrdererAdminSession. intros sess w.
  apply H; [done|by destruct sess].
Qed.

(** A list splits in one way only at its one element with [P]. *)
Lemma split_at_the_one (P : Event → bool) (before before' after after' : list Event) e e' :
  before ++ e :: after = before' ++ e' :: after' →
  P e = true →
  Forall (λ x, P x = false) before' → Forall (λ x, P x = false) after' →
  before = before' ∧ e = e' ∧ after = after'.
Proof.
  intros Heq He Hbefore' Hafter'. revert before Heq.
  induction Hbefore' as [|x b' Hx _ IH]; intros [|y b] Heq; simplify_eq/=.
  - done.
  - assert (e ∈ b ++ e :: after) as Hin by (apply elem_of_app; right; left).
    apply (proj1 (Forall_forall _ _) Hafter') in Hin. congruence.
  - congruence.
  - by destruct (IH b) as (-> & -> & ->).
Qed.

Section Protocols.
Context {S : Type} (signer_of : Event → option S).
Hypothesis signer_of_sign : ∀ e x, signer_of e = Some x → is_sign_request e = true.

Lemma update_outcome_sign_protocol n orderer channel current updated submitter
    (signers : list S) s r s' ev :
  update_outcome Compute signer_of n orderer channel current updated submitter
                 signers s r s' ev →
  sign_protocol signer_of signers r ev.
Proof.
  intros (_ & _ & [(Hr & Hnone & k & Hk)
          |(before' & file & answer & after' & baseline & -> & Hbefore & Hafter
            & Hsigners & Hcompleted & _ & Hiff)]).
  - split_and!.
    + rewrite Hk. apply prefix_take.
    + intros before e after -> He.
      assert (e ∈ before ++ e :: after) as Hin by (apply elem_of_app; right; left).
      apply (proj1 (Forall_forall _ _) Hnone) in Hin. congruence.
    + intros e _ _ _. split; [|done]. destruct r as [[]|f]; [done|by exists f].
    + done.
  - assert (Hafter_sub : Forall (λ e, is_submission e = false) after').
    { eapply Forall_impl; [exact Hafter|]. by intros e [? _]. }
    assert (Hafter_sign : Forall (λ e, is_sign_request e = false) after').
    { eapply Forall_impl; [exact Hafter|]. by intros e [_ ?]. }
    assert (Hall : omap signer_of
              (before' ++ PeerAdminSession_event submitter
                 (ChannelUpdate channel (OrdererAddress n orderer) file) answer :: after')
              = signers).
    { rewrite omap_app, Hsigners. rewrite (omap_None signer_of (_ :: after')).
      - by rewrite app_nil_r.
      - constructor.
        + destruct (signer_of _) as [x|] eqn:E; [|done].
          by apply signer_of_sign in E.
        + eapply Forall_impl; [exact Hafter_sign|]. intros e He.
          destruct (signer_of e) as [x|] eqn:E; [|done].
          apply signer_of_sign in E. congruence. }
    split_and!.
    + by rewrite Hall.
    + intros before e after Heq He.
      destruct (split_at_the_one is_submission _ _ _ _ _ _ (eq_sym Heq) He Hbefore Hafter_sub)
        as (-> & -> & ->).
      done.
    + intros e Hin Hsign Hbad. exfalso.
      apply elem_of_app in Hin as [Hin|Hin].
      * pose proof (proj1 (Forall_forall _ _) Hcompleted _ Hin Hsign). congruence.
      * apply elem_of_cons in Hin as [->|Hin]; [done|].
        apply (proj1 (Forall_forall _ _) Hafter_sign) in Hin. congruence.
    + done.
Qed.

Lemma update_outcome_commit_protocol n orderer channel current updated submitter
    (signers : list S) s r s' ev :
  update_outcome Compute signer_of n orderer channel current updated submitter
                 signers s r s' ev →
  commit_protocol r ev.
Proof.
  intros (_ & _ & [(Hr & Hnone & _)
          |(before' & file & answer & after' & baseline & -> & Hbefore & Hafter
            & _ & _ & Hbaseline & Hiff)]).
  - split; [|done].
    intros before e after -> He.
    assert (e ∈ before ++ e :: after) as Hin by (apply elem_of_app; right; left).
    apply (proj1 (Forall_forall _ _) Hnone) in Hin. congruence.
  - assert (Hafter_sub : Forall (λ e, is_submission e = false) after').
    { eapply Forall_impl; [exact Hafter|]. by intros e [? _]. }
    split.
    + intros before e after Heq He.
      destruct (split_at_the_one is_submission _ _ _ _ _ _ (eq_sym Heq) He Hbefore Hafter_sub)
        as (-> & -> & ->).
      by exists baseline.
    + intros _.
      exists (PeerAdminSession_event submitter
                (ChannelUpdate channel (OrdererAddress n orderer) file) answer).
      split; [|done]. apply elem_of_app. right. left.
Qed.
End Protocols.

(** ** [UpdateConsensusMetadata] *)

Lemma UpdateConsensusMetadata_fetched network peer orderer channel mutateMetadata :
  UpdateConsensusMetadata Compute os network peer orderer channel mutateMetadata
  = GetConfig os network peer orderer channel
    ≫= update_fetched Compute os network peer orderer channel mutateMetadata.
Proof. reflexivity. Qed.

(** [set_ConsensusType] changes the one value and nothing else. *)
Lemma set_ConsensusType_replaces v c c' :
  set_ConsensusType v c = Some c' → replaces_ConsensusType v c c'.
Proof.
  unfold set_ConsensusType. destruct c as [sequence [g|]]; [|done]. simpl.
  destruct (ConfigGroup.Groups g !! "Orderer") as [og|] eqn:Hog; [|done]. simpl.
  intros [= <-]. split; [done|].
  set (og' := ConfigGroup.set_Values (<["ConsensusType":=v]> (ConfigGroup.Values og)) og).
  exists g, (ConfigGroup.set_Groups (<["Orderer":=og']> (ConfigGroup.Groups g)) g), og, og'.
  split_and!; try done.
  - intros k Hk. simpl. by rewrite lookup_insert_ne.
  - simpl. by rewrite lookup_insert_eq.
  - intros k Hk. simpl. by rewrite lookup_insert_ne.
  - simpl. by rewrite lookup_insert_eq.
Qed.

Lemma satisfies_new c s (Q : result ptr → State → list Event → Prop) :
  Q (Ok (Some (fresh (dom (store s)))))
    (mkState (world s) (<[fresh (dom (store s)):=c]> (store s))) [] →
  satisfies (new c) s Q.
Proof. done. Qed.

Lemma satisfies_assign a c s (Q : result unit → State → list Event → Prop) :
  Q (Ok ()) (mkState (world s) (<[a:=c]> (store s))) [] →
  satisfies (assign (Some a) c) s Q.
Proof. done. Qed.

Lemma GetConfigBlock_spec n peer orderer channel s :
  satisfies (GetConfigBlock os n peer orderer channel) s (λ r s' ev,
    store s' = store s ∧ Forall (λ e, quiet e = true) ev).
Proof.
  unfold GetConfigBlock, UnmarshalBlockFromFile.
  apply satisfies_bind, satisfies_TempDir. intros [tempDir|] w1; simpl.
  2:{ split; [done|by repeat constructor]. }
  apply satisfies_defer.
  apply satisfies_bind, satisfies_PeerAdminSession. intros [sess|] w2; simpl.
  2:{ split; [done|by repeat constructor]. }
  apply satisfies_bind, satisfies_Exit. case_decide; simpl.
  2:{ split; [done|by repeat constructor]. }
  apply satisfies_bind, satisfies_Say. destruct (Say _ _); simpl.
  2:{ split; [done|by repeat constructor]. }
  apply satisfies_bind, satisfies_bind, satisfies_ReadFile.
  intros [blockBytes|] w3; simpl.
  2:{ split; [done|by repeat constructor]. }
  apply satisfies_bind, satisfies_lift.
  destruct (Unmarshal blockBytes) as [block|]; simpl.
  2:{ split; [done|by repeat constructor]. }
  apply satisfies_ret; simpl. apply satisfies_ret; simpl.
  split; [done|by repeat constructor].
Qed.

(** Fetching the configuration touches no configuration of the store: it
    adds the fetched one at a new address. *)
Lemma GetConfig_spec n peer orderer channel s :
  satisfies (GetConfig os n peer orderer channel) s (λ r s' ev,
    Forall (λ e, quiet e = true) ev
    ∧ match r with
      | Ok (Some a) => a = fresh (dom (store s)) ∧ ∃ c, store s' = <[a:=c]> (store s)
      | _ => store s' = store s
      end).
Proof.
  unfold GetConfig.
  eapply satisfies_bind_with; [apply GetConfigBlock_spec|].
  intros [configBlock|f] s1 ev1 [Hstore1 Hquiet1]; simpl; [|done].
  apply satisfies_bind, satisfies_lift.
  destruct (first_Data configBlock) as [data|f]; simpl; [|by rewrite app_nil_r].
  apply satisfies_bind, satisfies_lift.
  destruct (Unmarshal data) as [envelope|]; simpl; [|by rewrite app_nil_r].
  apply satisfies_bind, satisfies_lift.
  destruct (Unmarshal (Envelope.Payload envelope)) as [payload|]; simpl;
    [|by rewrite app_nil_r].
  apply satisfies_bind, satisfies_lift.
  destruct (Unmarshal (Payload.Data payload)) as [configEnv|]; simpl;
    [|by rewrite app_nil_r].
  destruct (ConfigEnvelope.Config configEnv) as [c|].
  - apply satisfies_new. rewrite app_nil_r, Hstore1. split; [done|]. split; [done|].
    by exists c.
  - apply satisfies_ret. by rewrite app_nil_r.
Qed.

(** From the fetched configuration [c] at [a]: a clone at a new address [b],
    the desired configuration assigned through [b], and the update of the
    configuration at [a] into the one at [b], signed by the orderer; or the
    failure on the way to the desired configuration, with the clone as it
    was made. *)
Lemma update_fetched_spec network peer orderer channel mutateMetadata a c s :
  store s !! a = Some c →
  satisfies (update_fetched Compute os network peer orderer channel mutateMetadata
                            (Some a)) s (λ r s' ev,
    let b := fresh (dom (store s)) in
    match desired_config mutateMetadata c with
    | Ok desired =>
        update_outcome Compute orderer_signer network orderer channel (Some a) (Some b)
          peer [orderer] (mkState (world s) (<[b:=desired]> (<[b:=c]> (store s))))
          r s' ev
    | Err f => r = Err f ∧ ev = [] ∧ s' = mkState (world s) (<[b:=c]> (store s))
    end).
Proof.
  intros Hc. unfold update_fetched, desired_config, proto_Clone.
  apply satisfies_bind, satisfies_bind, satisfies_load. simpl. rewrite Hc. simpl.
  apply satisfies_new. simpl.
  set (b := fresh (dom (store s))).
  apply satisfies_bind, satisfies_load. simpl. rewrite lookup_insert_eq. simpl.
  apply satisfies_bind, satisfies_lift.
  destruct (get_ConsensusType c) as [consensusTypeConfigValue|]; simpl; [|done].
  apply satisfies_bind, satisfies_lift.
  destruct (Unmarshal (ConfigValue.Value consensusTypeConfigValue))
    as [consensusTypeValue|]; simpl; [|done].
  apply satisfies_bind, satisfies_lift.
  destruct (mutateMetadata (ConsensusType.Metadata consensusTypeValue))
    as [newMetadata|f]; simpl; [|done].
  apply satisfies_bind, satisfies_lift. unfold MarshalOrPanic.
  destruct (Marshal (ConsensusType.set_Metadata newMetadata consensusTypeValue))
    as [value|]; simpl; [|done].
  apply satisfies_bind, satisfies_load. simpl. rewrite lookup_insert_eq. simpl.
  apply satisfies_bind, satisfies_lift.
  destruct (set_ConsensusType _ c) as [desired|]; simpl; [|done].
  apply satisfies_bind, satisfies_assign. simpl.
  apply UpdateOrdererConfig_spec.
Qed.

Lemma update_fetched_nil network peer orderer channel mutateMetadata s :
  satisfies (update_fetched Compute os network peer orderer channel mutateMetadata None) s
    (λ r s' ev, r = Err NilDereference ∧ ev = [] ∧ s' = s).
Proof. unfold update_fetched, proto_Clone. by apply satisfies_bind, satisfies_bind. Qed.

(** [UpdateConsensusMetadata] in terms of its fetch: the log of the fetch,
    then what [update_fetched_spec] says. *)
Lemma UpdateConsensusMetadata_spec network peer orderer channel mutateMetadata s :
  let g := GetConfig os network peer orderer channel s in
  let o := UpdateConsensusMetadata Compute os network peer orderer channel
                                   mutateMetadata s in
  Forall (λ e, quiet e = true) (emitted g)
  ∧ match res g with
    | Ok (Some a) =>
        ∃ c ev,
          a = fresh (dom (store s))
          ∧ store (final g) = <[a:=c]> (store s)
          ∧ emitted o = emitted g ++ ev
          ∧ let b := fresh (dom (store (final g))) in
            match desired_config mutateMetadata c with
            | Ok desired =>
                update_outcome Compute orderer_signer network orderer channel
                  (Some a) (Some b) peer [orderer]
                  (mkState (world (final g)) (<[b:=desired]> (<[b:=c]> (store (final g)))))
                  (res o) (final o) ev
            | Err f =>
                res o = Err f ∧ ev = []
                ∧ final o = mkState (world (final g)) (<[b:=c]> (store (final g)))
            end
    | Ok None => res o = Err NilDereference ∧ emitted o = emitted g ∧ final o = final g
    | Err f => res o = Err f ∧ emitted o = emitted g ∧ final o = final g
    end.
Proof.
  intros g o. subst o. rewrite UpdateConsensusMetadata_fetched.
  pose proof (GetConfig_spec network peer orderer channel s) as Hg.
  unfold satisfies in Hg. fold g in Hg. destruct Hg as [Hquiet Hg].
  split; [done|].
  destruct (res g) as [[a|]|f] eqn:Hres.
  - destruct Hg as [-> [c Hstore]]. rewrite (bind_Ok _ _ _ _ Hres). fold g.
    exists c, (emitted (update_fetched Compute os network peer orderer channel
                          mutateMetadata (Some (fresh (dom (store s)))) (final g))).
    split_and!; [done..|]. cbn [res final emitted].
    apply (update_fetched_spec network peer orderer channel mutateMetadata
             (fresh (dom (store s))) c (final g)).
    by rewrite Hstore, lookup_insert_eq.
  - rewrite (bind_Ok _ _ _ _ Hres). fold g. cbn [res final emitted].
    pose proof (update_fetched_nil network peer orderer channel mutateMetadata (final g))
      as (-> & -> & ->).
    by rewrite app_nil_r.
  - by rewrite (bind_Err _ _ _ _ Hres).
Qed.

(** ** Results on the update flow *)

(** C5 (amended). Whatever [UpdateConfig] or [UpdateOrdererConfig] writes to
    a file is the encoding of an envelope for the computed update: header
    type CONFIG_UPDATE, the channel, message version 0 and epoch 0; built
    without a local signer, it has an empty signature header, no signature
    and no configuration signature. *)
Theorem update_file_holds_unsigned_envelope n orderer channel current updated submitter s
    (path : string) (data : bytes) (ok : bool) :
  (∃ signers, WriteFile_event path data ok
     ∈ emitted (UpdateConfig Compute os n orderer channel current updated
                             submitter signers s))
  ∨ (∃ signers, WriteFile_event path data ok
       ∈ emitted (UpdateOrdererConfig Compute os n orderer channel current updated
                                      submitter signers s)) →
  ∃ c u configUpdate now updateBytes wrapped paylBytes,
    current ≫= (λ a, store s !! a) = Some c
    ∧ updated ≫= (λ a, store s !! a) = Some u
    ∧ Compute c u = Some configUpdate
    ∧ Marshal (ConfigUpdate.set_ChannelId channel configUpdate) = Some updateBytes
    ∧ Marshal (ConfigUpdateEnvelope.mk updateBytes []) = Some wrapped
    ∧ Marshal (Payload.mk (ChannelHeader.mk HeaderType_CONFIG_UPDATE 0 now channel 0)
                          (SignatureHeader.mk [] []) wrapped) = Some paylBytes
    ∧ Marshal (Envelope.mk paylBytes []) = Some data.
Proof.
  assert (∀ ev : list Event,
            Forall (update_event_ok Compute channel (store s) current updated) ev →
            WriteFile_event path data ok ∈ ev →
            ∃ c u configUpdate now updateBytes wrapped paylBytes,
              current ≫= (λ a, store s !! a) = Some c
              ∧ updated ≫= (λ a, store s !! a) = Some u
              ∧ Compute c u = Some configUpdate
              ∧ Marshal (ConfigUpdate.set_ChannelId channel configUpdate) = Some updateBytes
              ∧ Marshal (ConfigUpdateEnvelope.mk updateBytes []) = Some wrapped
              ∧ Marshal (Payload.mk
                           (ChannelHeader.mk HeaderType_CONFIG_UPDATE 0 now channel 0)
                           (SignatureHeader.mk [] []) wrapped) = Some paylBytes
              ∧ Marshal (Envelope.mk paylBytes []) = Some data) as Hwrite.
  { intros ev Hok Hin. apply (proj1 (Forall_forall _ _) Hok) in Hin.
    destruct Hin as (c & u & configUpdate & now & Hc & Hu & Hcompute
                     & updateBytes & wrapped & paylBytes & H1 & H2 & H3 & H4).
    by exists c, u, configUpdate, now, updateBytes, wrapped, paylBytes. }
  intros [[signers Hin]|[signers Hin]].
  - destruct (UpdateConfig_spec n orderer channel current updated submitter signers s)
      as (_ & Hok & _).
    by apply (Hwrite _ Hok).
  - destruct (UpdateOrdererConfig_spec n orderer channel current updated submitter
                signers s) as (_ & Hok & _).
    by apply (Hwrite _ Hok).
Qed.

(** C6. In [UpdateConfig] and in [UpdateOrdererConfig] the additional signers
    are asked to co-sign in the listed order; when the update is submitted,
    every one of them has been asked before and every request has completed;
    when a request does not complete, the run fails and submits nothing. *)
Theorem signatures_collected_before_submission n orderer channel current updated
    submitter s :
  (∀ additionalSigners : list Peer,
     let o := UpdateConfig Compute os n orderer channel current updated submitter
                           additionalSigners s in
     sign_protocol peer_signer additionalSigners (res o) (emitted o))
  ∧ (∀ additionalSigners : list Orderer,
       let o := UpdateOrdererConfig Compute os n orderer channel current updated
                                    submitter additionalSigners s in
       sign_protocol orderer_signer additionalSigners (res o) (emitted o)).
Proof.
  split; intros additionalSigners o.
  - eapply update_outcome_sign_protocol; [apply peer_signer_Some|].
    apply UpdateConfig_spec.
  - eapply update_outcome_sign_protocol; [apply orderer_signer_Some|].
    apply UpdateOrdererConfig_spec.
Qed.

(** C7. In [UpdateConfig] and in [UpdateOrdererConfig], when the update is
    submitted, one config block number has been read before, the baseline,
    and the run succeeds exactly when a config block number read after the
    submission is greater than the baseline; a run that succeeds has
    submitted. Only the number in the header of the fetched block counts. *)
Theorem commit_confirmed_by_block_number n orderer channel current updated submitter s :
  (∀ additionalSigners : list Peer,
     let o := UpdateConfig Compute os n orderer channel current updated submitter
                           additionalSigners s in
     commit_protocol (res o) (emitted o))
  ∧ (∀ additionalSigners : list Orderer,
       let o := UpdateOrdererConfig Compute os n orderer channel current updated
                                    submitter additionalSigners s in
       commit_protocol (res o) (emitted o)).
Proof.
  split; intros additionalSigners o.
  - eapply update_outcome_commit_protocol. apply UpdateConfig_spec.
  - eapply update_outcome_commit_protocol. apply UpdateOrdererConfig_spec.
Qed.

(** ** Results on [UpdateConsensusMetadata] *)

(** The two closures fail with a decode error on metadata that does not
    decode. *)
Lemma mutators_DecodeError (originalMetadata : bytes) consenter certificate :
  Unmarshal (A:=Metadata) originalMetadata = None →
  AddConsenter_mutator consenter originalMetadata = Err DecodeError
  ∧ RemoveConsenter_mutator certificate originalMetadata = Err DecodeError.
Proof. intros H. unfold AddConsenter_mutator, RemoveConsenter_mutator. by rewrite H. Qed.

(** A failure on the way to the desired configuration is the failure of the
    function; nothing is logged after the fetch, and the store is the store
    of the fetch with the clone as it was made. *)
Lemma UpdateConsensusMetadata_aborts network peer orderer channel mutateMetadata s a (c : Config.t) f :
  let g := GetConfig os network peer orderer channel s in
  let o := UpdateConsensusMetadata Compute os network peer orderer channel
                                   mutateMetadata s in
  res g = Ok (Some a) → store (final g) !! a = Some c →
  desired_config mutateMetadata c = Err f →
  res o = Err f
  ∧ emitted o = emitted g
  ∧ Forall (λ e, quiet e = true) (emitted o)
  ∧ store (final o) = <[fresh (dom (store (final g))):=c]> (store (final g)).
Proof.
  intros g o Hres Hc Hdesired.
  destruct (UpdateConsensusMetadata_spec network peer orderer channel mutateMetadata s)
    as [Hquiet Hspec].
  fold g o in Hquiet, Hspec. rewrite Hres in Hspec.
  destruct Hspec as (c' & ev & -> & Hstore & Hev & Hrest).
  rewrite Hstore, lookup_insert_eq in Hc. injection Hc as ->.
  cbn zeta in Hrest. rewrite Hdesired in Hrest. destruct Hrest as (Hr & -> & Hfinal).
  rewrite app_nil_r in Hev. rewrite Hev, Hfinal. done.
Qed.

(** C8. When the value at [Orderer] / [ConsensusType] of the fetched
    configuration does not decode as a consensus type, or its metadata does
    not decode as consenter metadata, [AddConsenter] and [RemoveConsenter]
    fail with a decode error; their log is the log of the fetch, with no
    hand-over to [update.Compute], no file written, no request to sign and
    no submission; and the store holds, next to what the fetch left, only a
    copy of the fetched configuration. *)
Theorem undecodable_metadata_aborts_update network peer orderer channel s a (c : Config.t)
    consensusTypeConfigValue consenter certificate :
  let g := GetConfig os network peer orderer channel s in
  res g = Ok (Some a) → store (final g) !! a = Some c →
  get_ConsensusType c = Some consensusTypeConfigValue →
  (Unmarshal (A:=ConsensusType.t) (ConfigValue.Value consensusTypeConfigValue) = None
   ∨ ∃ consensusTypeValue,
       Unmarshal (ConfigValue.Value consensusTypeConfigValue) = Some consensusTypeValue
       ∧ Unmarshal (A:=Metadata) (ConsensusType.Metadata consensusTypeValue) = None) →
  ∀ o, o = AddConsenter Compute os network peer orderer channel consenter s
       ∨ o = RemoveConsenter Compute os network peer orderer channel certificate s →
    res o = Err DecodeError
    ∧ emitted o = emitted g
    ∧ Forall (λ e, is_compute e = false ∧ is_write e = false
                   ∧ is_sign_request e = false ∧ is_submission e = false) (emitted o)
    ∧ store (final o) = <[fresh (dom (store (final g))):=c]> (store (final g)).
Proof.
  intros g Hres Hc Hvalue Hbad o Ho.
  assert (∀ mutateMetadata,
            (∀ m, Unmarshal (A:=Metadata) m = None → mutateMetadata m = Err DecodeError) →
            desired_config mutateMetadata c = Err DecodeError) as Hdesired.
  { intros mutateMetadata Hmutate. unfold desired_config. rewrite Hvalue. simpl.
    destruct Hbad as [->|(consensusTypeValue & -> & Hmetadata)]; [done|].
    simpl. by rewrite (Hmutate _ Hmetadata). }
  assert (∀ mutateMetadata,
            (∀ m, Unmarshal (A:=Metadata) m = None → mutateMetadata m = Err DecodeError) →
            o = UpdateConsensusMetadata Compute os network peer orderer channel
                                        mutateMetadata s →
            res o = Err DecodeError
            ∧ emitted o = emitted g
            ∧ Forall (λ e, is_compute e = false ∧ is_write e = false
                           ∧ is_sign_request e = false ∧ is_submission e = false)
                     (emitted o)
            ∧ store (final o) = <[fresh (dom (store (final g))):=c]> (store (final g)))
    as Habort.
  { intros mutateMetadata Hmutate ->.
    destruct (UpdateConsensusMetadata_aborts network peer orderer channel mutateMetadata
                s a c DecodeError Hres Hc (Hdesired _ Hmutate))
      as (Hr & Hev & Hquiet & Hstore).
    split_and!; [done..| |done].
    eapply Forall_impl; [exact Hquiet|]. intros e He.
    apply quiet_true in He as (?&?&?&?). done. }
  destruct Ho as [Ho|Ho].
  - apply (Habort (AddConsenter_mutator consenter)); [|done].
    intros m Hm. by apply (mutators_DecodeError m consenter certificate).
  - apply (Habort (RemoveConsenter_mutator certificate)); [|done].
    intros m Hm. by apply (mutators_DecodeError m consenter certificate).
Qed.

(** C9. [UpdateConsensusMetadata] leaves the fetched configuration as it was
    fetched: at the end of the run it is still in the store at its address,
    as is every configuration the fetch left there, and it is what the run
    hands to [update.Compute] as the current configuration. *)
Theorem fetched_config_is_not_mutated network peer orderer channel mutateMetadata s a :
  let g := GetConfig os network peer orderer channel s in
  let o := UpdateConsensusMetadata Compute os network peer orderer channel
                                   mutateMetadata s in
  res g = Ok (Some a) →
  ∃ c, store (final g) !! a = Some c
       ∧ store (final o) !! a = Some c
       ∧ (∀ current updated : Config.t,
           Compute_event current updated ∈ emitted o → current = c)
       ∧ (∀ a', a' ∈ dom (store (final g)) →
                store (final o) !! a' = store (final g) !! a').
Proof.
  intros g o Hres.
  destruct (UpdateConsensusMetadata_spec network peer orderer channel mutateMetadata s)
    as [Hquiet Hspec].
  fold g o in Hquiet, Hspec. rewrite Hres in Hspec.
  destruct Hspec as (c & ev & -> & Hstore & Hev & Hrest). cbn zeta in Hrest.
  set (a := fresh (dom (store s))) in *.
  set (b := fresh (dom (store (final g)))) in *.
  assert (Hc : store (final g) !! a = Some c) by (by rewrite Hstore, lookup_insert_eq).
  assert (Hfresh : ∀ a', a' ∈ dom (store (final g)) → b ≠ a').
  { intros a' Ha' <-. by apply (is_fresh (dom (store (final g)))). }
  assert (Ha : b ≠ a) by (apply Hfresh, elem_of_dom; eauto).
  exists c. split; [done|].
  destruct (desired_config mutateMetadata c) as [desired|f].
  - destruct Hrest as (Hfinal & Hok & _). cbn [store] in Hfinal, Hok.
    split_and!.
    + by rewrite Hfinal, !lookup_insert_ne.
    + intros current updated Hin. rewrite Hev in Hin.
      apply elem_of_app in Hin as [Hin|Hin].
      * apply (proj1 (Forall_forall _ _) Hquiet) in Hin. done.
      * apply (proj1 (Forall_forall _ _) Hok) in Hin. destruct Hin as [Hcurrent _].
        simpl in Hcurrent. rewrite !lookup_insert_ne in Hcurrent by done. congruence.
    + intros a' Ha'. rewrite Hfinal, !lookup_insert_ne by auto. done.
  - destruct Hrest as (_ & -> & Hfinal). rewrite app_nil_r in Hev.
    split_and!.
    + by rewrite Hfinal; cbn [store]; rewrite lookup_insert_ne.
    + intros current updated Hin. rewrite Hev in Hin.
      apply (proj1 (Forall_forall _ _) Hquiet) in Hin. done.
    + intros a' Ha'. rewrite Hfinal. cbn [store]. rewrite lookup_insert_ne by auto. done.
Qed.

(** C10. Whatever [UpdateConsensusMetadata] hands to [update.Compute] as
    the desired configuration is the current configuration with one value
    replaced, the one at [Orderer] / [ConsensusType]: the new value has
    version 0 and modification policy "Admins", whatever the replaced value
    had, and holds the consensus type with the mutated metadata. *)
Theorem desired_config_replaces_ConsensusType network peer orderer channel
    mutateMetadata s (current updated : Config.t) :
  Compute_event current updated
    ∈ emitted (UpdateConsensusMetadata Compute os network peer orderer channel
                                       mutateMetadata s) →
  ∃ consensusTypeConfigValue consensusTypeValue newMetadata value,
    get_ConsensusType current = Some consensusTypeConfigValue
    ∧ Unmarshal (ConfigValue.Value consensusTypeConfigValue) = Some consensusTypeValue
    ∧ mutateMetadata (ConsensusType.Metadata consensusTypeValue) = Ok newMetadata
    ∧ Marshal (ConsensusType.set_Metadata newMetadata consensusTypeValue) = Some value
    ∧ replaces_ConsensusType (ConfigValue.mk 0 value "Admins") current updated.
Proof.
  intros Hin.
  destruct (UpdateConsensusMetadata_spec network peer orderer channel mutateMetadata s)
    as [Hquiet Hspec].
  set (g := GetConfig os network peer orderer channel s) in *.
  set (o := UpdateConsensusMetadata Compute os network peer orderer channel
                                    mutateMetadata s) in *.
  destruct (res g) as [[a|]|f].
  2,3: destruct Hspec as (_ & Hev & _); rewrite Hev in Hin;
       by apply (proj1 (Forall_forall _ _) Hquiet) in Hin.
  destruct Hspec as (c & ev & -> & Hstore & Hev & Hrest). cbn zeta in Hrest.
  set (a := fresh (dom (store s))) in *.
  set (b := fresh (dom (store (final g)))) in *.
  assert (Ha : b ≠ a).
  { intros Hba. apply (is_fresh (dom (store (final g)))). fold b. rewrite Hba.
    apply elem_of_dom. rewrite Hstore, lookup_insert_eq. eauto. }
  rewrite Hev in Hin. apply elem_of_app in Hin as [Hin|Hin].
  { by apply (proj1 (Forall_forall _ _) Hquiet) in Hin. }
  destruct (desired_config mutateMetadata c) as [desired|f] eqn:Hdesired.
  2:{ destruct Hrest as (_ & -> & _). by apply elem_of_nil in Hin. }
  destruct Hrest as (_ & Hok & _). cbn [store] in Hok.
  apply (proj1 (Forall_forall _ _) Hok) in Hin. destruct Hin as [Hcurrent Hupdated].
  simpl in Hcurrent, Hupdated.
  rewrite !lookup_insert_ne, Hstore, lookup_insert_eq in Hcurrent by done.
  rewrite lookup_insert_eq in Hupdated. simplify_eq.
  unfold desired_config, MarshalOrPanic in Hdesired.
  destruct (get_ConsensusType current) as [consensusTypeConfigValue|] eqn:Hvalue;
    [|done].
  simpl in Hdesired.
  destruct (Unmarshal (ConfigValue.Value consensusTypeConfigValue))
    as [consensusTypeValue|] eqn:Htype; [|done].
  simpl in Hdesired.
  destruct (mutateMetadata (ConsensusType.Metadata consensusTypeValue))
    as [newMetadata|] eqn:Hmutate; [|done].
  simpl in Hdesired.
  destruct (Marshal (ConsensusType.set_Metadata newMetadata consensusTypeValue))
    as [value|] eqn:Hmarshal; [|done].
  simpl in Hdesired.
  destruct (set_ConsensusType _ current) as [desired|] eqn:Hset; [|done].
  simpl in Hdesired. simplify_eq.
  exists consensusTypeConfigValue, consensusTypeValue, newMetadata, value.
  split_and!; [done..|]. by apply set_ConsensusType_replaces.
Qed.

(** ** The logs of the functions, step by step *)

Lemma accepted_PeerAdminSession_event pattern peer command (answer : option Session) :
  accepted pattern (PeerAdminSession_event (Orderer:=Orderer) peer command answer)
  = match answer with
    | Some sess => bool_decide (ExitCode sess = Some 0%Z) && Say pattern (Err_buffer sess)
    | None => false
    end.
Proof. done. Qed.

Lemma GetConfigBlock_log n peer orderer channel s :
  satisfies (GetConfigBlock os n peer orderer channel) s (λ r s' ev,
    fetch_log "getConfigBlock" n peer orderer channel r ev).
Proof.
  unfold GetConfigBlock, UnmarshalBlockFromFile, fetch_log.
  apply satisfies_bind, satisfies_TempDir. intros [tempDir|] w1; cbn [expect].
  2:{ by left. }
  apply satisfies_defer.
  apply satisfies_bind, satisfies_PeerAdminSession. intros [sess|] w2; cbn [expect].
  2:{ right. exists tempDir, None. by left. }
  apply satisfies_bind, satisfies_Exit.
  destruct (decide (ExitCode sess = Some 0%Z)) as [Hexit|Hexit].
  2:{ right. exists tempDir, (Some sess). left.
      rewrite accepted_PeerAdminSession_event. unfold session_failure.
      rewrite bool_decide_eq_false_2, decide_False by done. done. }
  apply satisfies_bind, satisfies_Say. destruct (Say _ _) eqn:Hsay.
  2:{ right. exists tempDir, (Some sess). left.
      rewrite accepted_PeerAdminSession_event. unfold session_failure.
      rewrite bool_decide_eq_true_2, decide_True, Hsay by done. done. }
  apply satisfies_bind, satisfies_bind, satisfies_ReadFile. intros data w3.
  assert (Haccepted : accepted "Received block: "
            (PeerAdminSession_event (Orderer:=Orderer) peer
               (ChannelFetch channel "config" (OrdererAddress n orderer)
                  (filepath_Join tempDir "config_block.pb")) (Some sess)) = true).
  { rewrite accepted_PeerAdminSession_event, bool_decide_eq_true_2, Hsay by done. done. }
  destruct data as [blockBytes|]; cbn [expect].
  2:{ right. exists tempDir, (Some sess). right. split; [done|]. by exists None. }
  apply satisfies_bind, satisfies_lift.
  destruct (Unmarshal blockBytes) as [block|] eqn:Hblock; cbn [expect].
  2:{ right. exists tempDir, (Some sess). right.
      split; [done|]. exists (Some blockBytes). unfold block_read. simpl.
      by rewrite Hblock. }
  apply satisfies_ret, satisfies_ret. cbn [res final emitted].
  right. exists tempDir, (Some sess). right.
  split; [done|]. exists (Some blockBytes). unfold block_read. simpl.
  by rewrite Hblock.
Qed.

Lemma CurrentConfigBlockNumber_log n peer orderer channel s :
  satisfies (CurrentConfigBlockNumber os n peer orderer channel) s (λ r s' ev,
    number_log n peer orderer channel r ev).
Proof.
  unfold CurrentConfigBlockNumber, UnmarshalBlockFromFile, number_log, fetch_log.
  apply satisfies_bind, satisfies_TempDir. intros [tempDir|] w1; cbn [expect].
  2:{ exists (Err IOError). split; [by left|done]. }
  apply satisfies_defer.
  apply satisfies_bind, satisfies_PeerAdminSession. intros [sess|] w2; cbn [expect].
  2:{ exists (Err SessionError). split; [|done]. right. exists tempDir, None. by left. }
  apply satisfies_bind, satisfies_Exit.
  destruct (decide (ExitCode sess = Some 0%Z)) as [Hexit|Hexit].
  2:{ exists (Err ExitError). split; [|done]. right. exists tempDir, (Some sess). left.
      rewrite accepted_PeerAdminSession_event. unfold session_failure.
      rewrite bool_decide_eq_false_2, decide_False by done. done. }
  apply satisfies_bind, satisfies_Say. destruct (Say _ _) eqn:Hsay.
  2:{ exists (Err OutputMismatch). split; [|done]. right. exists tempDir, (Some sess). left.
      rewrite accepted_PeerAdminSession_event. unfold session_failure.
      rewrite bool_decide_eq_true_2, decide_True, Hsay by done. done. }
  apply satisfies_bind, satisfies_bind, satisfies_ReadFile. intros data w3.
  assert (Haccepted : accepted "Received block: "
            (PeerAdminSession_event (Orderer:=Orderer) peer
               (ChannelFetch channel "config" (OrdererAddress n orderer)
                  (filepath_Join tempDir "config_block.pb")) (Some sess)) = true).
  { rewrite accepted_PeerAdminSession_event, bool_decide_eq_true_2, Hsay by done. done. }
  destruct data as [blockBytes|]; cbn [expect].
  2:{ exists (Err IOError). split; [|done]. right. exists tempDir, (Some sess). right.
      split; [done|]. by exists None. }
  apply satisfies_bind, satisfies_lift.
  destruct (Unmarshal blockBytes) as [block|] eqn:Hblock; cbn [expect].
  2:{ exists (Err DecodeError). split; [|done]. right. exists tempDir, (Some sess). right.
      split; [done|]. exists (Some blockBytes). unfold block_read. simpl.
      by rewrite Hblock. }
  apply satisfies_ret. cbn [res final emitted].
  assert (Hread : block_read (Some blockBytes) = Ok block).
  { unfold block_read. simpl. by rewrite Hblock. }
  apply satisfies_bind, satisfies_lift.
  destruct (Block.Header block) as [header|] eqn:Hheader; cbn [expect].
  - apply satisfies_ret. cbn [res final emitted].
    exists (Ok block). split.
    + right. exists tempDir, (Some sess). right. split; [done|]. by exists (Some blockBytes).
    + unfold header_number. simpl. by rewrite Hheader.
  - exists (Ok block). split.
    + right. exists tempDir, (Some sess). right. split; [done|]. by exists (Some blockBytes).
    + unfold header_number. simpl. by rewrite Hheader.
Qed.

Lemma Eventually_BeNumerically_gt_log polls n peer orderer channel threshold s :
  satisfies (Eventually_BeNumerically_gt polls
               (CurrentConfigBlockNumber os n peer orderer channel) threshold) s
    (λ r s' ev, polls_log n peer orderer channel threshold polls r ev).
Proof.
  revert s. induction polls as [|polls IH]; intros s; simpl.
  - eapply satisfies_bind_with; [apply CurrentConfigBlockNumber_log|].
    intros [v|f] s1 ev1 Hlog; simpl; [|by apply polls_failed].
    destruct (N.ltb_spec threshold v) as [Hlt|Hge].
    + apply satisfies_ret. rewrite app_nil_r. by eapply polls_exceeded.
    + apply satisfies_fail. rewrite app_nil_r. by eapply polls_timed_out.
  - eapply satisfies_bind_with; [apply CurrentConfigBlockNumber_log|].
    intros [v|f] s1 ev1 Hlog; simpl; [|by apply polls_failed].
    destruct (N.ltb_spec threshold v) as [Hlt|Hge].
    + apply satisfies_ret. rewrite app_nil_r. by eapply polls_exceeded.
    + eapply satisfies_mono; [apply IH|]. simpl.
      intros r s' ev Hrest. by eapply polls_again.
Qed.

Lemma submit_and_wait_log n orderer channel submitter (updateFile : string) s :
  satisfies (submit_and_wait os n orderer channel submitter updateFile) s (λ r s' ev,
    confirm_log n orderer channel submitter updateFile r ev).
Proof.
  unfold submit_and_wait, confirm_log.
  eapply satisfies_bind_with; [apply CurrentConfigBlockNumber_log|].
  intros [baseline|f] s1 base Hbase; simpl.
  2:{ by exists (Err f), base. }
  apply satisfies_bind, satisfies_PeerAdminSession. intros [sess|] w2; cbn [expect].
  2:{ exists (Ok baseline), base. split; [done|]. exists None, []. by split. }
  apply satisfies_bind, satisfies_Exit.
  destruct (decide (ExitCode sess = Some 0%Z)) as [Hexit|Hexit].
  2:{ exists (Ok baseline), base. split; [done|]. exists (Some sess), []. split; [done|].
      cbn zeta. rewrite accepted_PeerAdminSession_event. unfold session_failure.
      rewrite bool_decide_eq_false_2, decide_False by done. done. }
  apply satisfies_bind, satisfies_Say. destruct (Say _ _) eqn:Hsay.
  2:{ exists (Ok baseline), base. split; [done|]. exists (Some sess), []. split; [done|].
      cbn zeta. rewrite accepted_PeerAdminSession_event. unfold session_failure.
      rewrite bool_decide_eq_true_2, decide_True, Hsay by done. done. }
  eapply satisfies_mono; [apply Eventually_BeNumerically_gt_log|]. cbn beta.
  intros r s' after Hafter. cbn [res final emitted].
  exists (Ok baseline), base. split; [done|]. exists (Some sess), after. split; [done|].
  cbn zeta. rewrite accepted_PeerAdminSession_event.
  rewrite bool_decide_eq_true_2, Hsay by done. done.
Qed.

(** The signatures, for any way [session] of running a command that logs one
    session event for the command. *)
Section SigningLog.
Context {S : Type} (session : S → Command → run Session).
Hypothesis satisfies_session :
  ∀ x file s (Q : result Session → State → list Event → Prop),
    (∀ e r w,
       is_sign_request e = true →
       update_file_of e = Some file →
       completed e = match r with
                     | Ok sess => bool_decide (ExitCode sess = Some 0%Z)
                     | Err _ => false
                     end →
       Q r (mkState w (store s)) [e]) →
    satisfies (session x (SignConfigTx file)) s Q.

Lemma sign_loop_log file signers s :
  satisfies (sign_loop session file signers) s (λ r s' ev,
    store s' = store s
    ∧ Forall (λ e, is_sign_request e = true ∧ update_file_of e = Some file) ev
    ∧ match r with
      | Ok _ => Forall (λ e, completed e = true) ev
      | Err _ => ∃ ev0 e,
          ev = ev0 ++ [e] ∧ Forall (λ e, completed e = true) ev0 ∧ completed e = false
      end).
Proof.
  unfold sign_loop. revert s. induction signers as [|x xs IH]; intros s; simpl.
  { by apply satisfies_ret. }
  apply satisfies_bind, satisfies_bind, satisfies_session.
  intros e r w Hsign Hfile Hcompleted.
  destruct r as [sess|f]; simpl.
  - apply satisfies_Exit.
    destruct (decide (ExitCode sess = Some 0%Z)) as [Hexit|Hexit]; simpl.
    + rewrite bool_decide_eq_true_2 in Hcompleted by done.
      eapply satisfies_mono; [apply IH|]. simpl.
      intros r s' ev (Hstore & Hsigns & Hr). simpl.
      split_and!; [done|by constructor|].
      destruct r as [[]|f].
      * by constructor.
      * destruct Hr as (ev0 & e' & -> & Hall & Hbad).
        exists (e :: ev0), e'. split_and!; [done|by constructor|done].
    + rewrite bool_decide_eq_false_2 in Hcompleted by done.
      split_and!; [done|by repeat constructor|]. by exists [], e.
  - split_and!; [done|by repeat constructor|]. by exists [], e.
Qed.

Lemma update_flow_log n orderer channel current updated submitter signers s :
  satisfies (update_flow Compute os session n orderer channel current updated
                         submitter signers) s
    (λ r s' ev, update_log Compute n orderer channel (store s) current updated
                           submitter r ev).
Proof.
  unfold update_flow, update_log, build_update_envelope, update_Compute.
  apply satisfies_bind, satisfies_TempDir. intros [tempDir|] w1; cbn [expect].
  2:{ by left. }
  apply satisfies_defer.
  apply satisfies_bind, satisfies_bind, satisfies_bind, satisfies_load.
  cbn [store os_RemoveAll fst snd].
  destruct (current ≫= _) as [c|] eqn:Hc; cbn [expect].
  2:{ right. exists tempDir, []. split; [done|]. left. split_and!; auto. }
  apply satisfies_bind, satisfies_load. cbn [store].
  destruct (updated ≫= _) as [u|] eqn:Hu; cbn [expect].
  2:{ right. exists tempDir, []. split; [done|]. left. split_and!; auto. }
  unfold satisfies at 1. cbn [res final emitted].
  destruct (Compute c u) as [configUpdate|] eqn:Hcompute; cbn [expect].
  2:{ right. exists tempDir, [Compute_event c u]. split; [done|].
      right. exists c, u. split_and!; [done..|]. left. by exists ComputeError. }
  apply satisfies_bind, satisfies_lift. unfold MarshalOrPanic.
  destruct (Marshal (ConfigUpdate.set_ChannelId _ _)) as [updateBytes|]; cbn [expect].
  2:{ right. exists tempDir, [Compute_event c u]. split; [done|].
      right. exists c, u. split_and!; [done..|]. left.
      exists EncodeError. split_and!; [done..|congruence]. }
  apply satisfies_bind. unfold satisfies at 1, time_Now. cbn [res final emitted].
  apply satisfies_bind, satisfies_lift.
  destruct (CreateSignedEnvelope _ _ _ _ _ _ _) as [signedEnvelope|]; cbn [expect].
  2:{ right. exists tempDir, [Compute_event c u]. split; [done|].
      right. exists c, u. split_and!; [done..|]. left.
      exists EnvelopeError. split_and!; [done..|congruence]. }
  apply satisfies_ret. cbn [res final emitted].
  apply satisfies_bind, satisfies_lift.
  destruct (Marshal signedEnvelope) as [envelopeBytes|]; cbn [expect].
  2:{ right. exists tempDir, [Compute_event c u]. split; [done|].
      right. exists c, u. split_and!; [done..|]. left.
      exists EncodeError. split_and!; [done..|congruence]. }
  apply satisfies_bind, satisfies_WriteFile. intros ok w2.
  destruct ok; cbn [store os_RemoveAll fst snd].
  2:{ right. exists tempDir,
        [Compute_event c u;
         WriteFile_event (filepath_Join tempDir "update.pb") envelopeBytes false].
      split; [done|]. right. exists c, u. split_and!; [done..|]. right.
      split; [done|]. by exists envelopeBytes, false, []. }
  eapply satisfies_bind_with; [apply sign_loop_log|].
  intros r s2 signs (Hstore2 & Hsigns & Hr). cbn [store] in Hstore2.
  destruct r as [[]|f].
  2:{ right. exists tempDir,
        (Compute_event c u
         :: WriteFile_event (filepath_Join tempDir "update.pb") envelopeBytes true
         :: signs).
      split; [done|]. right. exists c, u. split_and!; [done..|]. right.
      split; [done|]. exists envelopeBytes, true, signs. split; [done|].
      exists signs, []. rewrite app_nil_r. split_and!; [done..|]. left.
      split_and!; [by exists f|done..]. }
  eapply satisfies_mono; [apply submit_and_wait_log|]. cbn beta.
  intros r s' confirm Hconfirm. cbn [res final emitted].
  right. exists tempDir,
    (Compute_event c u
     :: WriteFile_event (filepath_Join tempDir "update.pb") envelopeBytes true
     :: signs ++ confirm).
  split; [by cbn [app]|]. right. exists c, u. split_and!; [done..|]. right.
  split; [done|]. exists envelopeBytes, true, (signs ++ confirm). split; [done|].
  exists signs, confirm. split_and!; [done..|]. by right.
Qed.
End SigningLog.

Lemma UpdateConfig_log n orderer channel current updated submitter signers s :
  satisfies (UpdateConfig Compute os n orderer channel current updated submitter signers) s
    (λ r s' ev, update_log Compute n orderer channel (store s) current updated
                           submitter r ev).
Proof.
  rewrite UpdateConfig_flow. apply update_flow_log.
  intros x file s0 Q H. apply satisfies_PeerAdminSession. intros sess w.
  apply H; [done|done|by destruct sess].
Qed.

Lemma UpdateOrdererConfig_log n orderer channel current updated submitter signers s :
  satisfies (UpdateOrdererConfig Compute os n orderer channel current updated submitter
                                 signers) s
    (λ r s' ev, update_log Compute n orderer channel (store s) current updated
                           submitter r ev).
Proof.
  rewrite UpdateOrdererConfig_flow. apply update_flow_log.
  intros x file s0 Q H. apply satisfies_OrdererAdminSession. intros sess w.
  apply H; [done|done|by destruct sess].
Qed.

(** *** Lists cut at one of their elements *)

(** An element with [P] of a list whose first and last segments have no
    element with [P] lies in the middle segment. *)
Lemma split_in_segment {A} (P : A → bool) (l1 l2 l3 before after : list A) (x : A) :
  l1 ++ l2 ++ l3 = before ++ x :: after →
  P x = true →
  Forall (λ y, P y = false) l1 →
  Forall (λ y, P y = false) l3 →
  ∃ m1 m2, l2 = m1 ++ x :: m2 ∧ before = l1 ++ m1 ∧ after = m2 ++ l3.
Proof.
  intros Heq Hx H1 H3. revert before Heq.
  induction H1 as [|y l1 Hy H1 IH]; intros before Heq.
  - simpl in Heq. revert before Heq. induction l2 as [|y l2 IH]; intros before Heq.
    + simpl in Heq. assert (Hin : x ∈ l3) by (rewrite Heq; set_solver).
      apply (proj1 (Forall_forall _ _) H3) in Hin. congruence.
    + destruct before as [|z before]; simpl in Heq.
      * injection Heq as -> <-. by exists [], l2.
      * injection Heq as -> Heq. destruct (IH _ Heq) as (m1 & m2 & -> & Hb & ->).
        simpl in Hb. subst before. by exists (z :: m1), m2.
  - destruct before as [|z before]; simpl in Heq.
    + injection Heq as -> _. congruence.
    + injection Heq as -> Heq. destruct (IH _ Heq) as (m1 & m2 & -> & -> & ->).
      by exists m1, m2.
Qed.

(** The same for a list with one segment only. *)
Lemma no_split (P : Event → bool) (l before after : list Event) e :
  l = before ++ e :: after → P e = true → Forall (λ y, P y = false) l → False.
Proof.
  intros -> He Hall. apply Forall_app in Hall as [_ Hall].
  apply Forall_cons in Hall as [Hall _]. congruence.
Qed.

(** *** What the logs consist of *)

Lemma fetch_log_quiet prefix n peer orderer channel (r : result Block.t) (ev : list Event) :
  fetch_log prefix n peer orderer channel r ev → Forall (λ e, quiet e = true) ev.
Proof.
  intros [[_ ->]|(tempDir & answer & [(_ & _ & ->)|(_ & data & _ & ->)])];
    by repeat constructor.
Qed.

Lemma fetch_log_cleans_up prefix n peer orderer channel (r : result Block.t)
    (ev : list Event) :
  fetch_log prefix n peer orderer channel r ev → cleans_up ev.
Proof.
  intros Hlog before prefix' dir after Heq.
  destruct Hlog as [[_ ->]|(tempDir & answer & [(_ & _ & ->)|(_ & data & _ & ->)])].
  - destruct before as [|? [|? ?]]; simplify_eq.
  - destruct before as [|? [|? [|? [|? ?]]]]; simplify_eq. set_solver.
  - destruct before as [|? [|? [|? [|? [|? ?]]]]]; simplify_eq. set_solver.
Qed.

Lemma fetch_log_observed prefix n peer orderer channel (r : result Block.t)
    (ev : list Event) :
  fetch_log prefix n peer orderer channel r ev →
  omap observed_number ev
  = match r ≫= header_number with Ok v => [v] | Err _ => [] end.
Proof.
  intros [[-> ->]|(tempDir & answer & [(_ & -> & ->)|(_ & data & -> & ->)])]; [done..|].
  unfold block_read, header_number. destruct data as [blockBytes|]; [|done]. simpl.
  destruct (Unmarshal blockBytes) as [block|]; [|done]. simpl.
  by destruct (Block.Header block).
Qed.

Lemma number_log_quiet n peer orderer channel (r : result N) (ev : list Event) :
  number_log n peer orderer channel r ev → Forall (λ e, quiet e = true) ev.
Proof. intros (block & Hlog & _). by eapply fetch_log_quiet. Qed.

Lemma number_log_cleans_up n peer orderer channel (r : result N) (ev : list Event) :
  number_log n peer orderer channel r ev → cleans_up ev.
Proof. intros (block & Hlog & _). by eapply fetch_log_cleans_up. Qed.

Lemma number_log_observed n peer orderer channel (r : result N) (ev : list Event) :
  number_log n peer orderer channel r ev →
  omap observed_number ev = match r with Ok v => [v] | Err _ => [] end.
Proof. intros (block & Hlog & ->). by eapply fetch_log_observed. Qed.

Lemma cleans_up_nil : cleans_up ([] : list Event).
Proof. intros [|? ?] ? ? ? ?; simplify_eq. Qed.

Lemma cleans_up_app (l1 l2 : list Event) :
  cleans_up l1 → cleans_up l2 → cleans_up (l1 ++ l2).
Proof.
  intros H1 H2 before prefix dir after Heq.
  apply app_eq_inv in Heq as [(k & -> & Hafter)|(k & -> & Hl2)].
  - destruct k as [|e k].
    + rewrite app_nil_r in H1. simpl in Hafter. by eapply (H2 []).
    + simpl in Hafter. injection Hafter as <- ->.
      apply elem_of_app. left. by eapply H1.
  - by eapply H2.
Qed.

Lemma cleans_up_other (e : Event) :
  (∀ prefix dir, e ≠ TempDir_event prefix (Some dir)) → cleans_up [e].
Proof.
  intros He before prefix dir after Heq.
  destruct before as [|? [|? ?]]; simpl in Heq; simplify_eq.
  by destruct (He prefix dir).
Qed.

Lemma cleans_up_bracket prefix dir (l : list Event) :
  cleans_up l → cleans_up (TempDir_event prefix (Some dir) :: l ++ [RemoveAll_event dir]).
Proof.
  intros Hl before prefix' dir' after Heq.
  destruct before as [|e before]; simpl in Heq.
  - injection Heq as <- <- <-. set_solver.
  - injection Heq as <- Heq.
    assert (Hall : cleans_up (l ++ [RemoveAll_event dir])).
    { apply cleans_up_app; [done|]. by apply cleans_up_other. }
    by eapply Hall.
Qed.

Lemma polls_log_quiet n peer orderer channel threshold polls (r : result unit)
    (ev : list Event) :
  polls_log n peer orderer channel threshold polls r ev → Forall (λ e, quiet e = true) ev.
Proof.
  induction 1 as [polls f ev Hlog|polls v ev Hlog Hv|v ev Hlog Hv
                  |polls v ev r ev' Hlog Hv Hrest IH];
    try (by eapply number_log_quiet).
  apply Forall_app. split; [by eapply number_log_quiet|done].
Qed.

Lemma polls_log_cleans_up n peer orderer channel threshold polls (r : result unit)
    (ev : list Event) :
  polls_log n peer orderer channel threshold polls r ev → cleans_up ev.
Proof.
  induction 1 as [polls f ev Hlog|polls v ev Hlog Hv|v ev Hlog Hv
                  |polls v ev r ev' Hlog Hv Hrest IH];
    try (by eapply number_log_cleans_up).
  apply cleans_up_app; [by eapply number_log_cleans_up|done].
Qed.

(** The numbers the polls see: at most one per poll; every number but the
    last is at most the threshold; and the polls succeed exactly when the
    last number is greater. *)
Lemma polls_log_observed n peer orderer channel threshold polls (r : result unit)
    (ev : list Event) :
  polls_log n peer orderer channel threshold polls r ev →
  length (omap observed_number ev) ≤ S polls
  ∧ (∀ vs v vs', omap observed_number ev = vs ++ v :: vs' → vs' ≠ [] → (v ≤ threshold)%N)
  ∧ (r = Ok () ↔ ∃ vs v, omap observed_number ev = vs ++ [v] ∧ (threshold < v)%N).
Proof.
  induction 1 as [polls f ev Hlog|polls v ev Hlog Hv|v ev Hlog Hv
                  |polls v ev r ev' Hlog Hv Hrest (IHlen & IHle & IHiff)];
    try (apply number_log_observed in Hlog; rewrite Hlog).
  - split_and!; [simpl; lia| |].
    + intros vs v vs' Heq. by destruct vs.
    + split; [done|]. intros (vs & v & Heq & _). by destruct vs.
  - split_and!; [simpl; lia| |].
    + intros vs v' vs' Heq Hvs'. destruct vs as [|? [|? ?]]; simplify_eq/=.
    + split; [|done]. intros _. by exists [], v.
  - split_and!; [simpl; lia| |].
    + intros vs v' vs' Heq Hvs'. destruct vs as [|? [|? ?]]; simplify_eq/=.
    + split; [done|]. intros (vs & v' & Heq & Hlt).
      destruct vs as [|? [|? ?]]; simplify_eq/=. lia.
  - apply number_log_observed in Hlog. rewrite omap_app, Hlog. simpl.
    split_and!; [lia| |].
    + intros vs v' vs' Heq Hvs'. destruct vs as [|? vs]; simplify_eq/=; [done|].
      by eapply IHle.
    + rewrite IHiff. split.
      * intros (vs & v' & -> & Hlt). by exists (v :: vs), v'.
      * intros (vs & v' & Heq & Hlt). destruct vs as [|? vs]; simplify_eq/=.
        -- lia.
        -- by exists vs, v'.
Qed.

Lemma cleans_up_Forall (l : list Event) :
  Forall (λ e, ∀ prefix dir, e ≠ TempDir_event prefix (Some dir)) l → cleans_up l.
Proof.
  intros Hall before prefix dir after ->.
  apply Forall_app in Hall as [_ Hall]. apply Forall_cons in Hall as [Hall _].
  by destruct (Hall prefix dir).
Qed.

Lemma sign_requests_clean_up (l : list Event) :
  Forall (λ e, is_sign_request e = true) l → cleans_up l.
Proof.
  intros Hall. apply cleans_up_Forall. eapply Forall_impl; [exact Hall|].
  intros e He prefix dir ->. done.
Qed.

Lemma confirm_log_cleans_up n orderer channel submitter file (r : result unit)
    (ev : list Event) :
  confirm_log n orderer channel submitter file r ev → cleans_up ev.
Proof.
  intros (baseline & base & Hbase & Hrest). apply number_log_cleans_up in Hbase.
  destruct baseline as [baseline|f].
  - destruct Hrest as (answer & after & -> & Hafter). cbn zeta in Hafter.
    apply cleans_up_app; [done|].
    apply (cleans_up_app [_]); [by apply cleans_up_other|].
    destruct (accepted _ _).
    + by eapply polls_log_cleans_up.
    + destruct Hafter as [_ ->]. apply cleans_up_nil.
  - by destruct Hrest as [_ ->].
Qed.

Lemma confirm_log_no_sign_request n orderer channel submitter file (r : result unit)
    (ev : list Event) :
  confirm_log n orderer channel submitter file r ev →
  Forall (λ e, is_sign_request e = false) ev.
Proof.
  assert (Hquiet : ∀ l : list Event,
            Forall (λ e, quiet e = true) l → Forall (λ e, is_sign_request e = false) l).
  { intros l Hl. eapply Forall_impl; [exact Hl|].
    intros e He. by apply quiet_true in He as (?&?&?&?). }
  intros (baseline & base & Hbase & Hrest). apply number_log_quiet, Hquiet in Hbase.
  destruct baseline as [baseline|f].
  - destruct Hrest as (answer & after & -> & Hafter). cbn zeta in Hafter.
    apply Forall_app. split; [done|]. apply Forall_cons. split; [done|].
    destruct (accepted _ _).
    + by eapply Hquiet, polls_log_quiet.
    + destruct Hafter as [_ ->]. constructor.
  - by destruct Hrest as [_ ->].
Qed.

Lemma written_log_cleans_up n orderer channel submitter file ok (r : result unit)
    (ev : list Event) :
  written_log n orderer channel submitter file ok r ev → cleans_up ev.
Proof.
  unfold written_log. destruct ok.
  - intros (signs & confirm & -> & Hsigns & Hrest).
    apply cleans_up_app.
    + apply sign_requests_clean_up. eapply Forall_impl; [exact Hsigns|]. by intros e [? _].
    + destruct Hrest as [(_ & -> & _)|[_ Hconfirm]]; [apply cleans_up_nil|].
      by eapply confirm_log_cleans_up.
  - intros [_ ->]. apply cleans_up_nil.
Qed.

Lemma update_log_cleans_up n orderer channel σ current updated submitter
    (r : result unit) (ev : list Event) :
  update_log Compute n orderer channel σ current updated submitter r ev → cleans_up ev.
Proof.
  intros [[_ ->]|(tempDir & body & -> & Hbody)].
  { by apply cleans_up_other. }
  apply cleans_up_bracket.
  destruct Hbody as [(_ & -> & _)|(c & u & _ & _ & Hbody)]; [apply cleans_up_nil|].
  destruct Hbody as [(f & _ & -> & _)|(_ & data & ok & rest & -> & Hrest)].
  { by apply cleans_up_other. }
  apply (cleans_up_app [_]); [by apply cleans_up_other|].
  apply (cleans_up_app [_]); [by apply cleans_up_other|].
  by eapply written_log_cleans_up.
Qed.

(** A prefix of a list that goes on is a prefix of all but its last element. *)
Lemma Forall_before_last {A} (P : A → Prop) (m1 m2 l0 : list A) (x y : A) :
  m1 ++ x :: m2 = l0 ++ [y] → Forall P l0 → Forall P m1.
Proof.
  revert l0. induction m1 as [|z m1 IH]; intros l0 Heq Hall; [constructor|].
  destruct l0 as [|z' l0]; simpl in Heq.
  - injection Heq as _ Heq. by destruct m1.
  - injection Heq as -> Heq. apply Forall_cons in Hall as [Hz Hall].
    constructor; [done|]. by eapply IH.
Qed.

(** The log cut at a request to co-sign: before it, the directory, the
    hand-over, the file and the requests that have completed. *)
Lemma update_log_at_sign_request n orderer channel σ current updated submitter
    (r : result unit) (ev before after : list Event) e :
  update_log Compute n orderer channel σ current updated submitter r ev →
  ev = before ++ e :: after →
  is_sign_request e = true →
  ∃ tempDir c u data signs,
    before = [TempDir_event "updateConfig" (Some tempDir); Compute_event c u;
              WriteFile_event (filepath_Join tempDir "update.pb") data true] ++ signs
    ∧ Forall (λ e', is_sign_request e' = true ∧ completed e' = true
                    ∧ update_file_of e' = Some (filepath_Join tempDir "update.pb")) signs
    ∧ update_file_of e = Some (filepath_Join tempDir "update.pb").
Proof.
  intros Hlog Heq He.
  destruct Hlog as [[_ ->]|(tempDir & body & -> & Hbody)].
  { destruct (no_split is_sign_request _ _ _ _ Heq He). by repeat constructor. }
  destruct Hbody as [(_ & -> & _)|(c & u & _ & _ & Hbody)].
  { destruct (no_split is_sign_request _ _ _ _ Heq He). by repeat constructor. }
  destruct Hbody as [(f & _ & -> & _)|(_ & data & ok & rest & -> & Hrest)].
  { destruct (no_split is_sign_request _ _ _ _ Heq He). by repeat constructor. }
  unfold written_log in Hrest. destruct ok.
  2:{ destruct Hrest as [_ ->].
      destruct (no_split is_sign_request _ _ _ _ Heq He). by repeat constructor. }
  destruct Hrest as (signs & confirm & -> & Hsigns & Hrest).
  assert (Hconfirm : Forall (λ e : Event, is_sign_request e = false)
                            (confirm ++ [RemoveAll_event tempDir])).
  { apply Forall_app. split; [|by repeat constructor].
    destruct Hrest as [(_ & -> & _)|[_ Hconfirm]]; [constructor|].
    by eapply confirm_log_no_sign_request. }
  destruct (split_in_segment is_sign_request
              [TempDir_event "updateConfig" (Some tempDir); Compute_event c u;
               WriteFile_event (filepath_Join tempDir "update.pb") data true]
              signs (confirm ++ [RemoveAll_event tempDir]) before after e)
    as (m1 & m2 & Hsplit & -> & ->); [|done|by repeat constructor|done|].
  { rewrite <- Heq. cbn [app]. by rewrite <- !app_assoc. }
  exists tempDir, c, u, data, m1. split; [done|].
  assert (Hcompleted : Forall (λ e : Event, completed e = true) m1).
  { destruct Hrest as [(_ & _ & signs0 & bad & Hsigns0 & Hall & _)|[Hall _]].
    - rewrite Hsplit in Hsigns0. by eapply Forall_before_last.
    - rewrite Hsplit in Hall. by apply Forall_app in Hall as [? _]. }
  rewrite Hsplit in Hsigns. apply Forall_app in Hsigns as [Hm1 Hm2].
  apply Forall_cons in Hm2 as [[_ Hfile] _]. split; [|done].
  apply Forall_forall. intros e' He'.
  apply (proj1 (Forall_forall _ _) Hm1) in He' as Hsign.
  apply (proj1 (Forall_forall _ _) Hcompleted) in He'. by destruct Hsign.
Qed.

(** The log cut at the submission: before it, the same and one run of
    [CurrentConfigBlockNumber], which has returned the baseline; after it,
    the polls when the submission was accepted, nothing otherwise, and the
    removal of the directory. *)
Lemma update_log_at_submission n orderer channel σ current updated submitter
    (r : result unit) (ev before after : list Event) e :
  update_log Compute n orderer channel σ current updated submitter r ev →
  ev = before ++ e :: after →
  is_submission e = true →
  ∃ tempDir c u data signs base baseline answer rest,
    before = [TempDir_event "updateConfig" (Some tempDir); Compute_event c u;
              WriteFile_event (filepath_Join tempDir "update.pb") data true]
             ++ signs ++ base
    ∧ Forall (λ e', is_sign_request e' = true ∧ completed e' = true
                    ∧ update_file_of e' = Some (filepath_Join tempDir "update.pb")) signs
    ∧ number_log n submitter orderer channel (Ok baseline) base
    ∧ e = PeerAdminSession_event submitter
            (ChannelUpdate channel (OrdererAddress n orderer)
                           (filepath_Join tempDir "update.pb")) answer
    ∧ after = rest ++ [RemoveAll_event tempDir]
    ∧ if accepted "Successfully submitted channel update" e
      then polls_log n submitter orderer channel baseline (EventuallyTimeout n) r rest
      else r = Err (session_failure answer) ∧ rest = [].
Proof.
  assert (Hquiet : ∀ l : list Event,
            Forall (λ e, quiet e = true) l → Forall (λ e, is_submission e = false) l).
  { intros l Hl. eapply Forall_impl; [exact Hl|].
    intros e' He'. by apply quiet_true in He' as (?&?&?&?). }
  intros Hlog Heq He.
  destruct Hlog as [[_ ->]|(tempDir & body & -> & Hbody)].
  { destruct (no_split is_submission _ _ _ _ Heq He). by repeat constructor. }
  destruct Hbody as [(_ & -> & _)|(c & u & _ & _ & Hbody)].
  { destruct (no_split is_submission _ _ _ _ Heq He). by repeat constructor. }
  destruct Hbody as [(f & _ & -> & _)|(_ & data & ok & rest & -> & Hrest)].
  { destruct (no_split is_submission _ _ _ _ Heq He). by repeat constructor. }
  unfold written_log in Hrest. destruct ok.
  2:{ destruct Hrest as [_ ->].
      destruct (no_split is_submission _ _ _ _ Heq He). by repeat constructor. }
  destruct Hrest as (signs & confirm & -> & Hsigns & Hrest).
  assert (Hsigns' : Forall (λ e : Event, is_submission e = false) signs).
  { eapply Forall_impl; [exact Hsigns|]. intros e' [He' _].
    by apply is_sign_request_true in He' as (?&?&?&?). }
  destruct Hrest as [(_ & -> & _)|[Hcompleted Hconfirm]].
  { destruct (no_split is_submission _ _ _ _ Heq He).
    rewrite app_nil_r. repeat (apply Forall_cons; split; [done|]).
    apply Forall_app. split; [done|]. by repeat constructor. }
  destruct Hconfirm as (baseline & base & Hbase & Hconfirm).
  pose proof (Hquiet _ (number_log_quiet _ _ _ _ _ _ Hbase)) as Hbase'.
  destruct baseline as [baseline|f].
  2:{ destruct Hconfirm as [_ ->].
      destruct (no_split is_submission _ _ _ _ Heq He).
      repeat (apply Forall_cons; split; [done|]).
      apply Forall_app. split; [by apply Forall_app|]. by repeat constructor. }
  destruct Hconfirm as (answer & polls & -> & Hpolls). cbn zeta in Hpolls.
  assert (Hpolls' : Forall (λ e : Event, is_submission e = false)
                           (polls ++ [RemoveAll_event tempDir])).
  { apply Forall_app. split; [|by repeat constructor].
    destruct (accepted _ _).
    - by eapply Hquiet, polls_log_quiet.
    - destruct Hpolls as [_ ->]. constructor. }
  destruct (split_in_segment is_submission
              ([TempDir_event "updateConfig" (Some tempDir); Compute_event c u;
                WriteFile_event (filepath_Join tempDir "update.pb") data true]
               ++ signs ++ base)
              [PeerAdminSession_event submitter
                 (ChannelUpdate channel (OrdererAddress n orderer)
                                (filepath_Join tempDir "update.pb")) answer]
              (polls ++ [RemoveAll_event tempDir]) before after e)
    as (m1 & m2 & Hsplit & -> & ->); [|done| |done|].
  { rewrite <- Heq. cbn [app]. by rewrite <- !app_assoc. }
  { repeat (apply Forall_cons; split; [done|]). by apply Forall_app. }
  destruct m1 as [|? [|? ?]]; simplify_eq/=.
  exists tempDir, c, u, data, signs, base, baseline, answer, polls.
  rewrite app_nil_r. split_and!; [done| |done..].
  apply Forall_forall. intros e' He'.
  destruct (proj1 (Forall_forall _ _) Hsigns _ He') as [? ?].
  apply (proj1 (Forall_forall _ _) Hcompleted) in He'. done.
Qed.

Lemma confirm_log_kinds n orderer channel submitter file (r : result unit)
    (ev : list Event) :
  confirm_log n orderer channel submitter file r ev →
  Forall (λ e, is_compute e = false ∧ is_write e = false) ev.
Proof.
  assert (Hquiet : ∀ l : list Event,
            Forall (λ e, quiet e = true) l →
            Forall (λ e, is_compute e = false ∧ is_write e = false) l).
  { intros l Hl. eapply Forall_impl; [exact Hl|].
    intros e He. by apply quiet_true in He as (?&?&?&?). }
  intros (baseline & base & Hbase & Hrest). apply number_log_quiet, Hquiet in Hbase.
  destruct baseline as [baseline|f].
  - destruct Hrest as (answer & after & -> & Hafter). cbn zeta in Hafter.
    apply Forall_app. split; [done|]. apply Forall_cons. split; [done|].
    destruct (accepted _ _).
    + by eapply Hquiet, polls_log_quiet.
    + destruct Hafter as [_ ->]. constructor.
  - by destruct Hrest as [_ ->].
Qed.

(** The two update functions have the log and the frame of the flow. *)
Lemma update_run_log n orderer channel current updated submitter s (o : Outcome unit) :
  update_run Compute os n orderer channel current updated submitter s o →
  update_log Compute n orderer channel (store s) current updated submitter
             (res o) (emitted o)
  ∧ store (final o) = store s
  ∧ Forall (update_event_ok Compute channel (store s) current updated) (emitted o).
Proof.
  intros [[signers ->]|[signers ->]].
  - split; [apply UpdateConfig_log|].
    by destruct (UpdateConfig_spec n orderer channel current updated submitter signers s)
      as (? & ? & _).
  - split; [apply UpdateOrdererConfig_log|].
    by destruct (UpdateOrdererConfig_spec n orderer channel current updated submitter
                   signers s) as (? & ? & _).
Qed.

(** ** Results on the logs of the update functions *)


(** X11. Up to any request to co-sign, the log of an update is the
    directory, the hand-over to [update.Compute], the successful write of
    [update.pb] in that directory and the earlier requests, each for that
    file and completed; the request is for that file too. *)
Theorem file_is_written_before_it_is_signed n orderer channel current updated submitter s
    (o : Outcome unit) (before after : list Event) e :
  update_run Compute os n orderer channel current updated submitter s o →
  emitted o = before ++ e :: after →
  is_sign_request e = true →
  ∃ tempDir c u data signs,
    before = [TempDir_event "updateConfig" (Some tempDir); Compute_event c u;
              WriteFile_event (filepath_Join tempDir "update.pb") data true] ++ signs
    ∧ Forall (λ e', is_sign_request e' = true ∧ completed e' = true
                    ∧ update_file_of e' = Some (filepath_Join tempDir "update.pb")) signs
    ∧ update_file_of e = Some (filepath_Join tempDir "update.pb").
Proof.
  intros Ho Heq He. apply update_run_log in Ho as (Hlog & _).
  by eapply update_log_at_sign_request.
Qed.

(** X12. Up to the submission, the log of an update is the directory, the
    hand-over, the write of [update.pb], the requests to co-sign it, all
    completed, and then one run of [CurrentConfigBlockNumber] that returns
    the baseline; what is submitted, by the submitter and to the address of
    the orderer, is that file. *)
Theorem baseline_is_read_between_signing_and_submission n orderer channel current updated
    submitter s (o : Outcome unit) (before after : list Event) e :
  update_run Compute os n orderer channel current updated submitter s o →
  emitted o = before ++ e :: after →
  is_submission e = true →
  ∃ tempDir c u data signs base baseline answer,
    before = [TempDir_event "updateConfig" (Some tempDir); Compute_event c u;
              WriteFile_event (filepath_Join tempDir "update.pb") data true]
             ++ signs ++ base
    ∧ Forall (λ e', is_sign_request e' = true ∧ completed e' = true
                    ∧ update_file_of e' = Some (filepath_Join tempDir "update.pb")) signs
    ∧ number_log n submitter orderer channel (Ok baseline) base
    ∧ e = PeerAdminSession_event submitter
            (ChannelUpdate channel (OrdererAddress n orderer)
                           (filepath_Join tempDir "update.pb")) answer.
Proof.
  intros Ho Heq He. apply update_run_log in Ho as (Hlog & _).
  destruct (update_log_at_submission _ _ _ _ _ _ _ _ _ _ _ _ Hlog Heq He)
    as (tempDir & c & u & data & signs & base & baseline & answer & rest
        & ? & ? & ? & ? & _).
  by exists tempDir, c, u, data, signs, base, baseline, answer.
Qed.

(** [H] says that an event is among events of other kinds. *)
Ltac not_among H :=
  repeat (apply elem_of_cons in H as [|H]; [done|]); by apply elem_of_nil in H.

(** X13. After the submission: a submission that is not accepted (no
    session, another exit code than 0, or no word of success) fails the run
    with the matching failure, and nothing follows but the removal of the
    directory; otherwise every block number seen but the last is at most
    the baseline, so the polls stop at the first number above it. *)
Theorem polls_follow_an_accepted_submission n orderer channel current updated submitter s
    (o : Outcome unit) (before after : list Event) e :
  update_run Compute os n orderer channel current updated submitter s o →
  emitted o = before ++ e :: after →
  is_submission e = true →
  ∃ baseline,
    omap observed_number before = [baseline]
    ∧ (accepted "Successfully submitted channel update" e = false →
       res o = Err (session_failure (session_of e))
       ∧ ∃ tempDir, after = [RemoveAll_event tempDir])
    ∧ (∀ vs v vs', omap observed_number after = vs ++ v :: vs' → vs' ≠ [] →
                   (v ≤ baseline)%N).
Proof.
  intros Ho Heq He. apply update_run_log in Ho as (Hlog & _).
  destruct (update_log_at_submission _ _ _ _ _ _ _ _ _ _ _ _ Hlog Heq He)
    as (tempDir & c & u & data & signs & base & baseline & answer & rest
        & -> & Hsigns & Hbase & -> & -> & Hrest).
  exists baseline. split_and!.
  - rewrite !omap_app, (number_log_observed _ _ _ _ _ _ Hbase).
    rewrite (omap_None observed_number signs); [done|].
    eapply Forall_impl; [exact Hsigns|]. intros e' (He' & _).
    by apply is_sign_request_true in He' as (?&?&?&?).
  - intros Hrefused. rewrite Hrefused in Hrest. destruct Hrest as [-> ->].
    split; [done|]. by exists tempDir.
  - rewrite omap_app. simpl. rewrite app_nil_r.
    destruct (accepted _ _).
    + by apply polls_log_observed in Hrest as (_ & ? & _).
    + destruct Hrest as [_ ->]. intros vs v vs' Heq'. by destruct vs.
Qed.

(** X14. A step that fails ends the update: when [update.Compute] returns
    an error the run fails with that error without writing, signing or
    submitting anything; when the file cannot be written the run fails with
    an input/output error without signing or submitting anything. *)
Theorem failed_step_ends_the_update n orderer channel current updated submitter s
    (o : Outcome unit) :
  update_run Compute os n orderer channel current updated submitter s o →
  (∀ c u : Config.t,
     Compute_event c u ∈ emitted o → Compute c u = None →
     res o = Err ComputeError
     ∧ Forall (λ e, is_write e = false ∧ is_sign_request e = false
                    ∧ is_submission e = false) (emitted o))
  ∧ (∀ (path : string) (data : bytes),
       WriteFile_event path data false ∈ emitted o →
       res o = Err IOError
       ∧ Forall (λ e, is_sign_request e = false ∧ is_submission e = false) (emitted o)).
Proof.
  intros Ho. apply update_run_log in Ho as (Hlog & _ & Hok).
  assert (Hloaded : ∀ c u : Config.t,
            Compute_event c u ∈ emitted o →
            current ≫= (λ a, store s !! a) = Some c
            ∧ updated ≫= (λ a, store s !! a) = Some u).
  { intros c u Hin. by apply (proj1 (Forall_forall _ _) Hok) in Hin. }
  clear Hok.
  destruct Hlog as [[Hres Hev]|(tempDir & body & Hev & Hbody)]; rewrite Hev in *.
  { split; intros ? ? Hin; not_among Hin. }
  destruct Hbody as [(_ & -> & _)|(c & u & Hc & Hu & Hbody)].
  { split; intros ? ? Hin; not_among Hin. }
  destruct Hbody as [(f & Hres & -> & Hf)|(Hsome & data & ok & rest & -> & Hrest)].
  - rewrite Hres. split.
    + intros c' u' Hin Hnone. apply Hloaded in Hin as [Hc' Hu'].
      assert (c' = c) as -> by congruence. assert (u' = u) as -> by congruence.
      rewrite (Hf Hnone). split; [done|by repeat constructor].
    + intros ? ? Hin; not_among Hin.
  - split.
    + intros c' u' Hin Hnone. apply Hloaded in Hin as [Hc' Hu'].
      assert (c' = c) as -> by congruence. assert (u' = u) as -> by congruence.
      rewrite Hnone in Hsome. by destruct Hsome.
    + unfold written_log in Hrest. destruct ok.
      * destruct Hrest as (signs & confirm & -> & Hsigns & Hrest).
        intros path data' Hin.
        assert (Hwrites : Forall (λ e : Event, is_write e = false)
                            (signs ++ confirm ++ [RemoveAll_event tempDir])).
        { apply Forall_app. split.
          - eapply Forall_impl; [exact Hsigns|]. intros e [He _].
            by apply is_sign_request_true in He as (?&?&?&?).
          - apply Forall_app. split; [|by repeat constructor].
            destruct Hrest as [(_ & -> & _)|[_ Hconfirm]]; [constructor|].
            eapply Forall_impl; [by eapply confirm_log_kinds|]. by intros e [_ ?]. }
        cbn [app] in Hin. rewrite <- app_assoc in Hin.
        apply elem_of_cons in Hin as [|Hin]; [done|].
        apply elem_of_cons in Hin as [|Hin]; [done|].
        apply elem_of_cons in Hin as [|Hin]; [done|].
        by apply (proj1 (Forall_forall _ _) Hwrites) in Hin.
      * destruct Hrest as [Hres ->]. intros path data' _.
        rewrite Hres. split; [done|by repeat constructor].
Qed.

(** ** Results on the fetches *)

(** A run seen as its result, its final state and its log. *)
Lemma satisfies_self {A} (m : run A) s :
  satisfies m s (λ r s' ev, r = res (m s) ∧ s' = final (m s) ∧ ev = emitted (m s)).
Proof. done. Qed.

(** [GetConfig] after its fetch: it logs nothing more, leaves the world as
    it is, and decodes the first transaction of the block. *)
Lemma GetConfig_after_fetch n peer orderer channel s :
  let b := GetConfigBlock os n peer orderer channel s in
  let g := GetConfig os n peer orderer channel s in
  emitted g = emitted b
  ∧ world (final g) = world (final b)
  ∧ match res b with
    | Err f => res g = Err f ∧ store (final g) = store s
    | Ok block =>
        match Block.Data block with
        | None => res g = Err NilDereference ∧ store (final g) = store s
        | Some [] => res g = Err IndexOutOfRange ∧ store (final g) = store s
        | Some (d :: _) =>
            match config_envelope_of d with
            | None => res g = Err DecodeError ∧ store (final g) = store s
            | Some configEnv =>
                match ConfigEnvelope.Config configEnv with
                | None => res g = Ok None ∧ store (final g) = store s
                | Some c =>
                    res g = Ok (Some (fresh (dom (store s))))
                    ∧ store (final g) = <[fresh (dom (store s)):=c]> (store s)
                end
            end
        end
    end.
Proof.
  intros b g. subst g. unfold GetConfig.
  pose proof (GetConfigBlock_spec n peer orderer channel s) as [Hstore _].
  fold b in Hstore.
  eapply satisfies_bind_with; [apply satisfies_self|]. fold b.
  intros r s1 ev1 (-> & -> & ->).
  destruct (res b) as [block|f]; [|done]. cbn beta.
  apply satisfies_bind, satisfies_lift. unfold first_Data, config_envelope_of.
  destruct (Block.Data block) as [[|d rest]|]; cbn [app]; rewrite ?app_nil_r; [done| |done].
  apply satisfies_bind, satisfies_lift.
  destruct (Unmarshal d) as [envelope|]; cbn [expect mbind option_bind];
    rewrite ?app_nil_r; [|done].
  apply satisfies_bind, satisfies_lift.
  destruct (Unmarshal (Envelope.Payload envelope)) as [payload|];
    cbn [expect mbind option_bind]; rewrite ?app_nil_r; [|done].
  apply satisfies_bind, satisfies_lift.
  destruct (Unmarshal (Payload.Data payload)) as [configEnv|];
    cbn [expect mbind option_bind]; rewrite ?app_nil_r; [|done].
  destruct (ConfigEnvelope.Config configEnv) as [c|].
  - apply satisfies_new. rewrite ?app_nil_r. cbn [world store]. by rewrite Hstore.
  - apply satisfies_ret. by rewrite ?app_nil_r.
Qed.

(** X7. [GetConfigBlock] and [CurrentConfigBlockNumber] read a file only
    after a fetch of the config block of the channel, from the address of
    the orderer, into that very file, by a session that has exited with
    code 0 and has said that it received the block. *)
Theorem block_file_is_read_after_an_accepted_fetch n peer orderer channel s
    (ev before after : list Event) (path : string) (data : option bytes) :
  ev = emitted (GetConfigBlock os n peer orderer channel s)
  ∨ ev = emitted (CurrentConfigBlockNumber os n peer orderer channel s) →
  ev = before ++ ReadFile_event path data :: after →
  ∃ sess,
    PeerAdminSession_event peer
      (ChannelFetch channel "config" (OrdererAddress n orderer) path) (Some sess) ∈ before
    ∧ ExitCode sess = Some 0%Z
    ∧ Say "Received block: " (Err_buffer sess) = true.
Proof.
  intros Hev Heq.
  assert (∃ prefix (r : result Block.t), fetch_log prefix n peer orderer channel r ev)
    as (prefix & r & Hlog).
  { destruct Hev as [->| ->].
    - eexists _, _. apply GetConfigBlock_log.
    - destruct (CurrentConfigBlockNumber_log n peer orderer channel s) as (r & Hlog & _).
      by eexists _, _. }
  destruct Hlog as [[_ ->]|(tempDir & answer & [(_ & _ & ->)|(Haccepted & data' & _ & ->)])].
  - destruct before as [|? [|? ?]]; simplify_eq/=.
  - destruct before as [|? [|? [|? [|? ?]]]]; simplify_eq/=.
  - destruct before as [|? [|? [|? [|? [|? ?]]]]]; simplify_eq/=.
    rewrite accepted_PeerAdminSession_event in Haccepted.
    destruct answer as [sess|]; [|done].
    apply andb_true_iff in Haccepted as [Hexit Hsay]. apply bool_decide_eq_true in Hexit.
    exists sess. split_and!; [|done..]. right. left.
Qed.

(** X8. [GetConfigBlock] returns a block exactly when the file it has read
    holds the encoding of that block, and [CurrentConfigBlockNumber] returns
    a number exactly when the file holds a block whose header has that
    number; a block without header is a nil dereference. *)
Theorem fetches_return_what_they_read n peer orderer channel s :
  let b := GetConfigBlock os n peer orderer channel s in
  let v := CurrentConfigBlockNumber os n peer orderer channel s in
  (∀ block,
     res b = Ok block
     ↔ ∃ path blockBytes,
         ReadFile_event path (Some blockBytes) ∈ emitted b
         ∧ Unmarshal blockBytes = Some block)
  ∧ (∀ number,
       res v = Ok number
       ↔ ∃ path blockBytes block header,
           ReadFile_event path (Some blockBytes) ∈ emitted v
           ∧ Unmarshal blockBytes = Some block
           ∧ Block.Header block = Some header
           ∧ BlockHeader.Number header = number)
  ∧ (∀ path blockBytes block,
       ReadFile_event path (Some blockBytes) ∈ emitted v →
       Unmarshal blockBytes = Some block → Block.Header block = None →
       res v = Err NilDereference).
Proof.
  intros b v.
  assert (Hread : ∀ prefix (r : result Block.t) (ev : list Event),
            fetch_log prefix n peer orderer channel r ev →
            (∀ path blockBytes,
               ReadFile_event path (Some blockBytes) ∈ ev →
               r = expect DecodeError (Unmarshal blockBytes))
            ∧ (∀ block, r = Ok block →
                 ∃ path blockBytes,
                   ReadFile_event path (Some blockBytes) ∈ ev
                   ∧ Unmarshal blockBytes = Some block)).
  { intros prefix r ev
      [[-> ->]|(tempDir & answer & [(_ & -> & ->)|(_ & data & -> & ->)])].
    - split; [intros ? ? Hin; not_among Hin|done].
    - split; [intros ? ? Hin; not_among Hin|done].
    - split.
      + intros path blockBytes Hin.
        apply elem_of_cons in Hin as [|Hin]; [done|].
        apply elem_of_cons in Hin as [|Hin]; [done|].
        apply elem_of_cons in Hin as [Hin|Hin]; [by simplify_eq|not_among Hin].
      + intros block Hblock. unfold block_read in Hblock.
        destruct data as [blockBytes|]; [|done]. simpl in Hblock.
        destruct (Unmarshal blockBytes) as [block'|] eqn:Hdec; [|done].
        injection Hblock as ->. eexists _, blockBytes. split; [|done].
        right. right. left. }
  pose proof (GetConfigBlock_log n peer orderer channel s) as Hb.
  destruct (CurrentConfigBlockNumber_log n peer orderer channel s) as (r & Hv & Hres).
  unfold satisfies in Hb. fold b in Hb. fold v in Hv, Hres.
  apply Hread in Hb as [Hb1 Hb2]. apply Hread in Hv as [Hv1 Hv2].
  split_and!.
  - intros block. split; [apply Hb2|].
    intros (path & blockBytes & Hin & Hdec). by rewrite (Hb1 _ _ Hin), Hdec.
  - intros number. rewrite Hres. split.
    + destruct r as [block|f]; [|done]. unfold header_number. simpl.
      destruct (Block.Header block) as [header|] eqn:Hheader; [|done].
      intros [= <-]. destruct (Hv2 block eq_refl) as (path & blockBytes & ? & ?).
      by exists path, blockBytes, block, header.
    + intros (path & blockBytes & block & header & Hin & Hdec & Hheader & <-).
      rewrite (Hv1 _ _ Hin), Hdec. unfold header_number. simpl. by rewrite Hheader.
  - intros path blockBytes block Hin Hdec Hheader.
    rewrite Hres, (Hv1 _ _ Hin), Hdec. unfold header_number. simpl. by rewrite Hheader.
Qed.

(** X9. [GetConfig] looks at the first transaction of the fetched block
    only: a block without data is a nil dereference and a block with an
    empty list of transactions an index out of range; a transaction that does
    not decode down to the configuration envelope is a decode error; an
    envelope without configuration gives nil and no failure; otherwise the
    configuration is a new message in the store. Nothing is logged on top of
    the fetch, and the store changes in the last case only. *)
Theorem GetConfig_decodes_the_first_transaction n peer orderer channel s block :
  let b := GetConfigBlock os n peer orderer channel s in
  let g := GetConfig os n peer orderer channel s in
  res b = Ok block →
  emitted g = emitted b
  ∧ (Block.Data block = None → res g = Err NilDereference ∧ store (final g) = store s)
  ∧ (Block.Data block = Some [] → res g = Err IndexOutOfRange ∧ store (final g) = store s)
  ∧ (∀ d rest,
       Block.Data block = Some (d :: rest) →
       match config_envelope_of d with
       | None => res g = Err DecodeError ∧ store (final g) = store s
       | Some configEnv =>
           match ConfigEnvelope.Config configEnv with
           | None => res g = Ok None ∧ store (final g) = store s
           | Some c =>
               res g = Ok (Some (fresh (dom (store s))))
               ∧ store (final g) = <[fresh (dom (store s)):=c]> (store s)
           end
       end).
Proof.
  intros b g Hres.
  destruct (GetConfig_after_fetch n peer orderer channel s) as (Hev & _ & Hg).
  fold b g in Hev, Hg. rewrite Hres in Hg.
  split_and!; [done|..].
  - intros Hdata. by rewrite Hdata in Hg.
  - intros Hdata. by rewrite Hdata in Hg.
  - intros d rest Hdata. by rewrite Hdata in Hg.
Qed.

(** ** Results on the whole of [UpdateConsensusMetadata] *)

(** After the fetch: a failure on the way to the desired configuration, with
    nothing logged, or a run of [UpdateOrdererConfig] with the orderer as the
    one to co-sign and the peer as the submitter. *)
Lemma update_fetched_run network peer orderer channel mutateMetadata (config : ptr) s :
  satisfies (update_fetched Compute os network peer orderer channel mutateMetadata
                            config) s (λ r s' ev,
    (ev = [] ∧ ∃ f, r = Err f)
    ∨ ∃ updatedConfig s1,
        let u := UpdateOrdererConfig Compute os network orderer channel config
                                     updatedConfig peer [orderer] s1 in
        r = res u ∧ s' = final u ∧ ev = emitted u).
Proof.
  unfold update_fetched, proto_Clone.
  assert (Hrest : ∀ (updatedConfig : ptr) s0,
    satisfies
      (updated ← load updatedConfig;
       consensusTypeConfigValue ← lift (expect NilDereference (get_ConsensusType updated));
       consensusTypeValue ← lift (expect DecodeError
          (Unmarshal (A:=ConsensusType.t) (ConfigValue.Value consensusTypeConfigValue)));
       newMetadata ← lift (mutateMetadata (ConsensusType.Metadata consensusTypeValue));
       let consensusTypeValue :=
         ConsensusType.set_Metadata newMetadata consensusTypeValue in
       value ← lift (MarshalOrPanic consensusTypeValue);
       updated ← load updatedConfig;
       updated ← lift (expect NilDereference
                         (set_ConsensusType (ConfigValue.mk 0 value "Admins") updated));
       _ ← assign updatedConfig updated;
       UpdateOrdererConfig Compute os network orderer channel config updatedConfig peer
                           [orderer]) s0
      (λ r s' ev,
         (ev = [] ∧ ∃ f, r = Err f)
         ∨ ∃ updatedConfig s1,
             let u := UpdateOrdererConfig Compute os network orderer channel config
                                          updatedConfig peer [orderer] s1 in
             r = res u ∧ s' = final u ∧ ev = emitted u)).
  { intros updatedConfig s0.
    apply satisfies_bind, satisfies_load.
    destruct (updatedConfig ≫= _) as [updated|]; cbn [expect]; [|left; eauto].
    apply satisfies_bind, satisfies_lift.
    destruct (get_ConsensusType updated) as [consensusTypeConfigValue|]; cbn [expect];
      [|left; eauto].
    apply satisfies_bind, satisfies_lift.
    destruct (Unmarshal (ConfigValue.Value consensusTypeConfigValue))
      as [consensusTypeValue|]; cbn [expect]; [|left; eauto].
    apply satisfies_bind, satisfies_lift.
    destruct (mutateMetadata (ConsensusType.Metadata consensusTypeValue))
      as [newMetadata|f]; [|left; eauto].
    apply satisfies_bind, satisfies_lift. unfold MarshalOrPanic.
    destruct (Marshal (ConsensusType.set_Metadata newMetadata consensusTypeValue))
      as [value|]; cbn [expect]; [|left; eauto].
    apply satisfies_bind, satisfies_load.
    destruct (updatedConfig ≫= _) as [updated'|]; cbn [expect]; [|left; eauto].
    apply satisfies_bind, satisfies_lift.
    destruct (set_ConsensusType _ updated') as [desired|]; cbn [expect]; [|left; eauto].
    destruct updatedConfig as [b|]; [|left; eauto].
    apply satisfies_bind, satisfies_assign.
    eapply satisfies_mono; [apply satisfies_self|]. cbn beta.
    intros r s' ev (-> & -> & ->). right. by eexists _, _. }
  destruct config as [a|].
  - apply satisfies_bind, satisfies_bind, satisfies_load.
    destruct (Some a ≫= _) as [c|]; cbn [expect]; [|left; eauto].
    apply satisfies_new. apply Hrest.
  - apply satisfies_bind, satisfies_ret. apply Hrest.
Qed.

(** The log of [UpdateConsensusMetadata]: the log of its fetch, and then
    nothing, on a failure, or the log of a run of [UpdateOrdererConfig]. *)
Lemma UpdateConsensusMetadata_run network peer orderer channel mutateMetadata s :
  let g := GetConfig os network peer orderer channel s in
  let o := UpdateConsensusMetadata Compute os network peer orderer channel
                                   mutateMetadata s in
  (emitted o = emitted g ∧ ∃ f, res o = Err f)
  ∨ ∃ config updatedConfig s1,
      let u := UpdateOrdererConfig Compute os network orderer channel config
                                   updatedConfig peer [orderer] s1 in
      res o = res u ∧ emitted o = emitted g ++ emitted u.
Proof.
  intros g o. subst o. rewrite UpdateConsensusMetadata_fetched.
  destruct (res g) as [config|f] eqn:Hres.
  - rewrite (bind_Ok _ _ _ _ Hres). fold g. cbn [res final emitted].
    destruct (update_fetched_run network peer orderer channel mutateMetadata config
                (final g)) as [[-> Hf]|(updatedConfig & s1 & Hr & _ & Hev)].
    + left. by rewrite app_nil_r.
    + right. exists config, updatedConfig, s1. cbn zeta. by rewrite Hr, Hev.
  - rewrite (bind_Err _ _ _ _ Hres). fold g. cbn [res final emitted]. left. eauto.
Qed.

(** X6. No function leaves a directory behind: in the log of each of them,
    whatever its result, every directory that was made is removed later. *)
Theorem temporary_directories_are_removed n peer orderer channel s (ev : list Event) :
  ev = emitted (GetConfigBlock os n peer orderer channel s)
  ∨ ev = emitted (CurrentConfigBlockNumber os n peer orderer channel s)
  ∨ ev = emitted (GetConfig os n peer orderer channel s)
  ∨ (∃ current updated o,
       update_run Compute os n orderer channel current updated peer s o
       ∧ ev = emitted o)
  ∨ (∃ mutateMetadata,
       ev = emitted (UpdateConsensusMetadata Compute os n peer orderer channel
                                             mutateMetadata s)) →
  cleans_up ev.
Proof.
  assert (Hfetch : cleans_up (emitted (GetConfigBlock os n peer orderer channel s))).
  { eapply fetch_log_cleans_up. apply GetConfigBlock_log. }
  assert (Hconfig : cleans_up (emitted (GetConfig os n peer orderer channel s))).
  { by destruct (GetConfig_after_fetch n peer orderer channel s) as (-> & _). }
  intros [->|[->|[->|[(current & updated & o & Ho & ->)|(mutateMetadata & ->)]]]].
  - done.
  - eapply number_log_cleans_up. apply CurrentConfigBlockNumber_log.
  - done.
  - apply update_run_log in Ho as (Hlog & _). by eapply update_log_cleans_up.
  - destruct (UpdateConsensusMetadata_run n peer orderer channel mutateMetadata s)
      as [[-> _]|(config & updatedConfig & s1 & _ & ->)]; [done|].
    apply cleans_up_app; [done|]. eapply update_log_cleans_up.
    apply UpdateOrdererConfig_log.
Qed.

(** ** Who is asked to sign *)

(** The requests to co-sign, for any way [session] of running a command
    whose one event [asked] relates to the signer. *)
Section Asked.
Context {S : Type} (session : S → Command → run Session).
Context (asked : S → string → Event → Prop).
Hypothesis satisfies_session :
  ∀ x file s (Q : result Session → State → list Event → Prop),
    (∀ e r w, asked x file e → Q r (mkState w (store s)) [e]) →
    satisfies (session x (SignConfigTx file)) s Q.

Lemma sign_loop_asked file signers s :
  satisfies (sign_loop session file signers) s (λ r s' ev,
    Forall (λ e, ∃ x, x ∈ signers ∧ asked x file e) ev).
Proof.
  unfold sign_loop. revert s. induction signers as [|x xs IH]; intros s; simpl.
  { by apply satisfies_ret. }
  assert (Hmore : ∀ l : list Event,
            Forall (λ e, ∃ x', x' ∈ xs ∧ asked x' file e) l →
            Forall (λ e, ∃ x', x' ∈ x :: xs ∧ asked x' file e) l).
  { intros l Hl. eapply Forall_impl; [exact Hl|].
    intros e (x' & Hx' & He). exists x'. split; [by right|done]. }
  apply satisfies_bind, satisfies_bind, satisfies_session.
  intros e r w He.
  assert (Hfirst : ∃ x', x' ∈ x :: xs ∧ asked x' file e) by (exists x; split; [left|done]).
  destruct r as [sess|f]; simpl; [|by repeat constructor].
  apply satisfies_Exit. case_decide; simpl; [|by repeat constructor].
  eapply satisfies_mono; [apply IH|]. simpl.
  intros r s' ev Hev. constructor; [done|by apply Hmore].
Qed.

Ltac every_event :=
  repeat first
    [ apply Forall_nil
    | apply Forall_cons; split
    | apply Forall_app; split ];
  try done.

Lemma update_flow_asked n orderer channel current updated submitter signers s :
  satisfies (update_flow Compute os session n orderer channel current updated
                         submitter signers) s
    (λ r s' ev,
       Forall (λ e, is_sign_request e = true →
                    ∃ x tempDir, x ∈ signers
                                 ∧ asked x (filepath_Join tempDir "update.pb") e) ev).
Proof.
  unfold update_flow.
  apply satisfies_bind, satisfies_TempDir. intros [tempDir|] w1; cbn [expect].
  2:{ by repeat constructor. }
  apply satisfies_defer.
  eapply satisfies_bind_with; [apply build_update_envelope_spec|].
  intros r s1 ev1 (_ & Hev1 & _).
  assert (Hbuild : Forall (λ e : Event, is_sign_request e = true →
                     ∃ x tempDir, x ∈ signers
                                  ∧ asked x (filepath_Join tempDir "update.pb") e) ev1).
  { eapply Forall_impl; [exact Hev1|]. intros e [He _] Hsign. by destruct e. }
  destruct r as [signedEnvelope|f]; cbn [os_RemoveAll fst snd].
  2:{ every_event. }
  apply satisfies_bind, satisfies_lift.
  destruct (MarshalOrPanic signedEnvelope) as [envelopeBytes|f].
  2:{ every_event. }
  apply satisfies_bind, satisfies_WriteFile. intros ok w2.
  destruct ok.
  2:{ every_event. }
  eapply satisfies_bind_with; [apply sign_loop_asked|].
  intros r s2 signs Hsigns.
  assert (Hsigns' : Forall (λ e : Event, is_sign_request e = true →
                      ∃ x tempDir, x ∈ signers
                                   ∧ asked x (filepath_Join tempDir "update.pb") e) signs).
  { eapply Forall_impl; [exact Hsigns|]. intros e (x & Hx & He) _. by exists x, tempDir. }
  destruct r as [[]|f].
  2:{ every_event. }
  eapply satisfies_mono; [apply submit_and_wait_log|]. cbn beta.
  intros r s' confirm Hconfirm. apply confirm_log_no_sign_request in Hconfirm.
  every_event.
  eapply Forall_impl; [exact Hconfirm|]. intros e He. by rewrite He.
Qed.
End Asked.

(** X17. [UpdateConfig] asks nobody but the listed peers to co-sign, each
    as the administrator of that peer; [UpdateOrdererConfig] asks nobody but
    the listed orderers, each as the administrator of that orderer, with the
    submitter as the peer the command runs through; what they are asked to
    sign is [update.pb] in a directory of the run. *)
Theorem only_the_listed_signers_are_asked n orderer channel current updated submitter s :
  (∀ additionalSigners : list Peer,
     Forall (λ e, is_sign_request e = true →
                  ∃ signer tempDir answer,
                    signer ∈ additionalSigners
                    ∧ e = PeerAdminSession_event signer
                            (SignConfigTx (filepath_Join tempDir "update.pb")) answer)
       (emitted (UpdateConfig Compute os n orderer channel current updated submitter
                              additionalSigners s)))
  ∧ (∀ additionalSigners : list Orderer,
       Forall (λ e, is_sign_request e = true →
                    ∃ signer tempDir answer,
                      signer ∈ additionalSigners
                      ∧ e = OrdererAdminSession_event signer submitter
                              (SignConfigTx (filepath_Join tempDir "update.pb")) answer)
         (emitted (UpdateOrdererConfig Compute os n orderer channel current updated
                                       submitter additionalSigners s))).
Proof.
  split; intros additionalSigners.
  - rewrite UpdateConfig_flow.
    pose proof (update_flow_asked (n_PeerAdminSession n)
      (λ signer file e, ∃ answer, e = PeerAdminSession_event signer (SignConfigTx file) answer))
      as Hasked.
    eapply Forall_impl; [apply Hasked|].
    + intros x file s0 Q H. apply satisfies_PeerAdminSession. intros sess w.
      apply H. by exists sess.
    + intros e He Hsign. destruct (He Hsign) as (x & tempDir & Hx & answer & ->).
      by exists x, tempDir, answer.
  - rewrite UpdateOrdererConfig_flow.
    pose proof (update_flow_asked (λ signer, n_OrdererAdminSession n signer submitter)
      (λ signer file e,
         ∃ answer, e = OrdererAdminSession_event signer submitter (SignConfigTx file) answer))
      as Hasked.
    eapply Forall_impl; [apply Hasked|].
    + intros x file s0 Q H. apply satisfies_OrdererAdminSession. intros sess w.
      apply H. by exists sess.
    + intros e He Hsign. destruct (He Hsign) as (x & tempDir & Hx & answer & ->).
      by exists x, tempDir, answer.
Qed.

Lemma orderer_signer_None e : is_sign_request e = false → orderer_signer e = None.
Proof.
  intros He. destruct (orderer_signer e) as [x|] eqn:Hx; [|done].
  apply orderer_signer_Some in Hx. congruence.
Qed.

(** X15. [UpdateConsensusMetadata] has the update co-signed by the given
    orderer and by nobody else, through the given peer, and has it submitted
    by that peer to the address of that orderer; a run that succeeds has asked
    the orderer once and has submitted the update. *)
Theorem UpdateConsensusMetadata_orderer_signs_peer_submits network peer orderer channel
    mutateMetadata s :
  let o := UpdateConsensusMetadata Compute os network peer orderer channel
                                   mutateMetadata s in
  Forall (λ e, is_sign_request e = true →
               ∃ tempDir answer,
                 e = OrdererAdminSession_event orderer peer
                       (SignConfigTx (filepath_Join tempDir "update.pb")) answer)
         (emitted o)
  ∧ Forall (λ e, is_submission e = true →
                 ∃ tempDir answer,
                   e = PeerAdminSession_event peer
                         (ChannelUpdate channel (OrdererAddress network orderer)
                                        (filepath_Join tempDir "update.pb")) answer)
           (emitted o)
  ∧ (res o = Ok () →
     omap orderer_signer (emitted o) = [orderer]
     ∧ ∃ e, e ∈ emitted o ∧ is_submission e = true).
Proof.
  intros o.
  destruct (GetConfig_spec network peer orderer channel s) as [Hquiet _].
  set (g := GetConfig os network peer orderer channel s) in *.
  assert (Hquiet_sign : Forall (λ e : Event, is_sign_request e = false) (emitted g)).
  { eapply Forall_impl; [exact Hquiet|]. intros e He.
    by apply quiet_true in He as (?&?&?&?). }
  assert (Hquiet_submission : Forall (λ e : Event, is_submission e = false) (emitted g)).
  { eapply Forall_impl; [exact Hquiet|]. intros e He.
    by apply quiet_true in He as (?&?&?&?). }
  destruct (UpdateConsensusMetadata_run network peer orderer channel mutateMetadata s)
    as [[Hev [f Hres]]|(config & updatedConfig & s1 & Hres & Hev)];
    fold g o in Hev, Hres; rewrite Hev, Hres.
  { split_and!; [| |done].
    - eapply Forall_impl; [exact Hquiet_sign|]. intros e He. by rewrite He.
    - eapply Forall_impl; [exact Hquiet_submission|]. intros e He. by rewrite He. }
  cbn zeta in *.
  set (u := UpdateOrdererConfig Compute os network orderer channel config updatedConfig
                                peer [orderer] s1) in *.
  split_and!.
  - apply Forall_app. split.
    { eapply Forall_impl; [exact Hquiet_sign|]. intros e He. by rewrite He. }
    subst u. rewrite UpdateOrdererConfig_flow.
    pose proof (update_flow_asked (λ signer, n_OrdererAdminSession network signer peer)
      (λ signer file e,
         ∃ answer, e = OrdererAdminSession_event signer peer (SignConfigTx file) answer))
      as Hasked.
    eapply Forall_impl; [apply Hasked|].
    + intros x file s0 Q H. apply satisfies_OrdererAdminSession. intros sess w.
      apply H. by exists sess.
    + intros e He Hsign. destruct (He Hsign) as (x & tempDir & Hx & answer & ->).
      apply list_elem_of_singleton in Hx as ->. by exists tempDir, answer.
  - apply Forall_app. split.
    { eapply Forall_impl; [exact Hquiet_submission|]. intros e He. by rewrite He. }
    apply Forall_forall. intros e Hin Hsubmission.
    apply list_elem_of_split in Hin as (before & after & Heq).
    pose proof (UpdateOrdererConfig_log network orderer channel config updatedConfig peer
                  [orderer] s1) as Hlog.
    unfold satisfies in Hlog. fold u in Hlog.
    destruct (update_log_at_submission _ _ _ _ _ _ _ _ _ _ _ _ Hlog Heq Hsubmission)
      as (tempDir & c & u' & data & signs & base & baseline & answer & rest
          & _ & _ & _ & -> & _).
    by exists tempDir, answer.
  - intros Hok.
    destruct (UpdateOrdererConfig_spec network orderer channel config updatedConfig peer
                [orderer] s1) as (_ & _ & Hshape).
    fold u in Hshape.
    destruct Hshape as [[Hfail _]|(before & updateFile & answer & after & baseline & Hu
                                   & _ & Hafter & Hsigners & _)]; [done|].
    rewrite Hu, !omap_app, Hsigners. cbn [omap list_omap orderer_signer].
    rewrite (omap_None orderer_signer (emitted g)), (omap_None orderer_signer after).
    + split; [done|].
      exists (PeerAdminSession_event peer
                (ChannelUpdate channel (OrdererAddress network orderer) updateFile) answer).
      split; [|done]. rewrite !elem_of_app, elem_of_cons. auto.
    + eapply Forall_impl; [exact Hafter|]. intros e [_ He]. by apply orderer_signer_None.
    + eapply Forall_impl; [exact Hquiet_sign|]. apply orderer_signer_None.
Qed.

(** X16. Without a consensus type to work on there is no update: when the
    fetch fails, when it gives nil, or when the fetched configuration has no
    channel group, no [Orderer] group in it or no [ConsensusType] value in
    that, [UpdateConsensusMetadata] fails (with the failure of the fetch, or
    with a nil dereference) and its log is the log of the fetch. *)
Theorem missing_ConsensusType_aborts_update network peer orderer channel mutateMetadata s :
  let g := GetConfig os network peer orderer channel s in
  let o := UpdateConsensusMetadata Compute os network peer orderer channel
                                   mutateMetadata s in
  (∀ f, res g = Err f → res o = Err f ∧ emitted o = emitted g)
  ∧ (res g = Ok None → res o = Err NilDereference ∧ emitted o = emitted g)
  ∧ (∀ a (c : Config.t),
       res g = Ok (Some a) → store (final g) !! a = Some c →
       Config.ChannelGroup c = None
       ∨ (∃ channelGroup,
            Config.ChannelGroup c = Some channelGroup
            ∧ (ConfigGroup.Groups channelGroup !! "Orderer" = None
               ∨ ∃ ordererGroup,
                   ConfigGroup.Groups channelGroup !! "Orderer" = Some ordererGroup
                   ∧ ConfigGroup.Values ordererGroup !! "ConsensusType" = None)) →
       res o = Err NilDereference ∧ emitted o = emitted g).
Proof.
  intros g o.
  destruct (UpdateConsensusMetadata_spec network peer orderer channel mutateMetadata s)
    as [_ Hspec].
  fold g o in Hspec. split_and!.
  - intros f Hres. rewrite Hres in Hspec. by destruct Hspec as (? & ? & _).
  - intros Hres. rewrite Hres in Hspec. by destruct Hspec as (? & ? & _).
  - intros a c Hres Hc Hmissing.
    assert (Hdesired : desired_config mutateMetadata c = Err NilDereference).
    { unfold desired_config, get_ConsensusType.
      destruct Hmissing as [H1|(channelGroup & H1 & [H2|(ordererGroup & H2 & H3)])];
        rewrite H1; simpl; [done|rewrite H2; simpl..]; [done|].
      by rewrite H3. }
    by destruct (UpdateConsensusMetadata_aborts network peer orderer channel
                   mutateMetadata s a c NilDereference Hres Hc Hdesired)
      as (? & ? & _).
Qed.

End RunFacts.

(** ** Runs on the simulated network *)

(** An update of the channel [testchannel] between two stored configurations,
    submitted by [peer0] and co-signed by [peer1]: the run succeeds, and the
    file it writes decodes to an envelope without any signature. *)
Lemma update_file_signed_by_primary_signer_counterexample :
  let s := Sim.stored (Sim.config_with Sim.consensusAB)
                      (Sim.config_with Sim.consensus_bad_metadata) [] false in
  let o := UpdateConfig Sim.Compute Sim.system Sim.network "orderer0" "testchannel"
                        (Some 1%positive) (Some 2%positive) "peer0" ["peer1"] s in
  res o = Ok ()
  ∧ ¬ (∀ path data ok, WriteFile_event path data ok ∈ emitted o → carries_signature data).
Proof.
  intros s o. split; [vm_compute; reflexivity|]. intros Hsigned.
  pose (data := match emitted o !! 2 with
                | Some (WriteFile_event _ data _) => data
                | _ => []
                end).
  destruct (Hsigned "/tmp/updateConfig/update.pb"%string data true)
    as (envelope & Henvelope & Hsignature).
  { apply list_elem_of_lookup. exists 2. vm_compute. reflexivity. }
  vm_compute in Henvelope. injection Henvelope as <-.
  destruct Hsignature as [Hsignature|(payload & wrapped & Hpayload & Hwrapped & Hsignature)].
  - by apply Hsignature.
  - vm_compute in Hpayload. injection Hpayload as <-.
    vm_compute in Hwrapped. injection Hwrapped as <-.
    by apply Hsignature.
Qed.

Lemma update_file_holds_unsigned_envelope_witness :
  let s := Sim.stored (Sim.config_with Sim.consensusAB)
                      (Sim.config_with Sim.consensus_bad_metadata) [] false in
  let o := UpdateConfig Sim.Compute Sim.system Sim.network "orderer0" "testchannel"
                        (Some 1%positive) (Some 2%positive) "peer0" ["peer1"] s in
  ∃ data,
    emitted o !! 2 = Some (WriteFile_event "/tmp/updateConfig/update.pb" data true)
    ∧ ∃ c u configUpdate now updateBytes wrapped paylBytes,
        store s !! 1%positive = Some c
        ∧ store s !! 2%positive = Some u
        ∧ Sim.Compute c u = Some configUpdate
        ∧ Marshal (ConfigUpdate.set_ChannelId "testchannel" configUpdate) = Some updateBytes
        ∧ Marshal (ConfigUpdateEnvelope.mk updateBytes []) = Some wrapped
        ∧ Marshal (Payload.mk
                     (ChannelHeader.mk HeaderType_CONFIG_UPDATE 0 now "testchannel" 0)
                     (SignatureHeader.mk [] []) wrapped) = Some paylBytes
        ∧ Marshal (Envelope.mk paylBytes []) = Some data.
Proof.
  intros s o. eexists. split; [vm_compute; reflexivity|].
  apply (update_file_holds_unsigned_envelope Sim.Compute Sim.system Sim.network
           "orderer0" "testchannel" (Some 1%positive) (Some 2%positive) "peer0" s
           "/tmp/updateConfig/update.pb" _ true).
  left. exists ["peer1"]. apply list_elem_of_lookup. exists 2. vm_compute. reflexivity.
Defined.

(** Two co-signers, the second of which refuses: both are asked, in order,
    the run fails and nothing is submitted. *)
Lemma signatures_collected_before_submission_witness :
  let s := Sim.stored (Sim.config_with Sim.consensusAB)
                      (Sim.config_with Sim.consensus_bad_metadata) ["peer2"] false in
  let o := UpdateConfig Sim.Compute Sim.system Sim.network "orderer0" "testchannel"
                        (Some 1%positive) (Some 2%positive) "peer0" ["peer1"; "peer2"] s in
  sign_protocol peer_signer ["peer1"; "peer2"] (res o) (emitted o)
  ∧ res o = Err ExitError
  ∧ omap peer_signer (emitted o) = ["peer1"; "peer2"]
  ∧ omap (λ e, if is_submission e then Some e else None) (emitted o) = [].
Proof.
  intros s o. split; [|vm_compute; done].
  apply (signatures_collected_before_submission Sim.Compute Sim.system Sim.network
           "orderer0" "testchannel" (Some 1%positive) (Some 2%positive) "peer0" s).
Defined.

(** An update that the ordering service commits: the baseline is block 5,
    the block seen after the submission is block 6, and the run succeeds;
    when the ordering service has stopped committing, block 5 is all the run
    sees, and it fails. *)
Lemma commit_confirmed_by_block_number_witness :
  let run stall :=
    UpdateConfig Sim.Compute Sim.system Sim.network "orderer0" "testchannel"
                 (Some 1%positive) (Some 2%positive) "peer0" []
                 (Sim.stored (Sim.config_with Sim.consensusAB)
                             (Sim.config_with Sim.consensus_bad_metadata) [] stall) in
  commit_protocol (res (run false)) (emitted (run false))
  ∧ commit_protocol (res (run true)) (emitted (run true))
  ∧ res (run false) = Ok ()
  ∧ omap observed_number (emitted (run false)) = [5; 6]%N
  ∧ res (run true) = Err TimeoutError
  ∧ omap observed_number (emitted (run true)) = [5; 5; 5; 5]%N.
Proof.
  intros run. split_and!; [| |vm_compute; reflexivity..].
  - exact (proj1 (commit_confirmed_by_block_number
                    Sim.Compute Sim.system Sim.network "orderer0" "testchannel"
                    (Some 1%positive) (Some 2%positive) "peer0"
                    (Sim.stored (Sim.config_with Sim.consensusAB)
                                (Sim.config_with Sim.consensus_bad_metadata) [] false)) []).
  - exact (proj1 (commit_confirmed_by_block_number
                    Sim.Compute Sim.system Sim.network "orderer0" "testchannel"
                    (Some 1%positive) (Some 2%positive) "peer0"
                    (Sim.stored (Sim.config_with Sim.consensusAB)
                                (Sim.config_with Sim.consensus_bad_metadata) [] true)) []).
Defined.

(** A channel whose consensus type holds metadata that does not decode:
    [AddConsenter] fails with a decode error right after the fetch. *)
Lemma undecodable_metadata_aborts_update_witness :
  let c := Sim.config_with Sim.consensus_bad_metadata in
  let s := Sim.start c [] false in
  let g := GetConfig Sim.system Sim.network "peer0" "orderer0" "testchannel" s in
  let o := AddConsenter Sim.Compute Sim.system Sim.network "peer0" "orderer0"
                        "testchannel" Wire.consenterC s in
  res o = Err DecodeError
  ∧ emitted o = emitted g
  ∧ Forall (λ e, is_compute e = false ∧ is_write e = false
                 ∧ is_sign_request e = false ∧ is_submission e = false) (emitted o)
  ∧ store (final o) = <[fresh (dom (store (final g))):=c]> (store (final g)).
Proof.
  intros c s g o.
  apply (undecodable_metadata_aborts_update
           Sim.Compute Sim.system Sim.network "peer0" "orderer0" "testchannel" s
           1%positive c (ConfigValue.mk 7 Sim.consensus_bad_metadata "/Channel/Orderer/Admins")
           Wire.consenterC [x0c]).
  - vm_compute. reflexivity.
  - vm_compute. reflexivity.
  - vm_compute. reflexivity.
  - right. exists (ConsensusType.mk "etcdraft" [x02]). split; vm_compute; reflexivity.
  - left. reflexivity.
Defined.

(** [AddConsenter] on a channel with the consenters [A] and [B]: the fetched
    configuration stays in the store as it was fetched. *)
Lemma fetched_config_is_not_mutated_witness :
  let s := Sim.start (Sim.config_with Sim.consensusAB) [] false in
  let g := GetConfig Sim.system Sim.network "peer0" "orderer0" "testchannel" s in
  let o := UpdateConsensusMetadata Sim.Compute Sim.system Sim.network "peer0" "orderer0"
             "testchannel" (AddConsenter_mutator Wire.consenterC) s in
  res g = Ok (Some 1%positive)
  ∧ res o = Ok ()
  ∧ ∃ c, store (final g) !! 1%positive = Some c
         ∧ store (final o) !! 1%positive = Some c
         ∧ (∀ current updated : Config.t,
              Compute_event current updated ∈ emitted o → current = c)
         ∧ (∀ a', a' ∈ dom (store (final g)) →
                  store (final o) !! a' = store (final g) !! a').
Proof.
  intros s g o.
  assert (Hres : res g = Ok (Some 1%positive)) by (vm_compute; reflexivity).
  split; [exact Hres|]. split; [vm_compute; reflexivity|].
  exact (fetched_config_is_not_mutated
           Sim.Compute Sim.system Sim.network "peer0" "orderer0" "testchannel"
           (AddConsenter_mutator Wire.consenterC) s 1%positive Hres).
Defined.

(** The same run hands to [update.Compute] the fetched configuration and a
    copy whose consensus type has version 0, policy "Admins" and the
    consenters [A], [B] and [C]. *)
Lemma desired_config_replaces_ConsensusType_witness :
  let s := Sim.start (Sim.config_with Sim.consensusAB) [] false in
  let o := UpdateConsensusMetadata Sim.Compute Sim.system Sim.network "peer0" "orderer0"
             "testchannel" (AddConsenter_mutator Wire.consenterC) s in
  ∃ updated,
    emitted o !! 5 = Some (Compute_event (Sim.config_with Sim.consensusAB) updated)
    ∧ ∃ consensusTypeConfigValue consensusTypeValue newMetadata value,
        get_ConsensusType (Sim.config_with Sim.consensusAB) = Some consensusTypeConfigValue
        ∧ Unmarshal (ConfigValue.Value consensusTypeConfigValue) = Some consensusTypeValue
        ∧ AddConsenter_mutator Wire.consenterC (ConsensusType.Metadata consensusTypeValue)
          = Ok newMetadata
        ∧ Marshal (ConsensusType.set_Metadata newMetadata consensusTypeValue) = Some value
        ∧ replaces_ConsensusType (ConfigValue.mk 0 value "Admins")
                                 (Sim.config_with Sim.consensusAB) updated.
Proof.
  intros s o. eexists. split; [vm_compute; reflexivity|].
  apply (desired_config_replaces_ConsensusType
           Sim.Compute Sim.system Sim.network "peer0" "orderer0" "testchannel"
           (AddConsenter_mutator Wire.consenterC) s).
  apply list_elem_of_lookup. exists 5. vm_compute. reflexivity.
Defined.

(** ** More runs on the simulated network *)

Lemma temporary_directories_are_removed_witness :
  cleans_up
    (emitted (UpdateConsensusMetadata Sim.Compute Sim.system Sim.network "peer0" "orderer0"
                "testchannel" (AddConsenter_mutator Wire.consenterC)
                (Sim.start (Sim.config_with Sim.consensusAB) [] false))).
Proof.
  apply (temporary_directories_are_removed Sim.Compute Sim.system Sim.network
           "peer0" "orderer0" "testchannel"
           (Sim.start (Sim.config_with Sim.consensusAB) [] false)).
  do 4 right. exists (AddConsenter_mutator Wire.consenterC). reflexivity.
Defined.

Lemma block_file_is_read_after_an_accepted_fetch_witness :
  let ev := emitted (GetConfigBlock Sim.system Sim.network "peer0" "orderer0" "testchannel"
                       (Sim.start (Sim.config_with Sim.consensusAB) [] false)) in
  ∃ sess,
    PeerAdminSession_event "peer0"
      (ChannelFetch "testchannel" "config" "orderer0:7050"
                    "/tmp/getConfigBlock/config_block.pb") (Some sess) ∈ take 2 ev
    ∧ ExitCode sess = Some 0%Z
    ∧ Say "Received block: " (Err_buffer sess) = true.
Proof.
  intros ev.
  apply (block_file_is_read_after_an_accepted_fetch Sim.system Sim.network
           "peer0" "orderer0" "testchannel"
           (Sim.start (Sim.config_with Sim.consensusAB) [] false)
           ev (take 2 ev) (drop 3 ev) "/tmp/getConfigBlock/config_block.pb"
           (match ev !! 2 with Some (ReadFile_event _ data) => data | _ => None end)).
  - left. reflexivity.
  - vm_compute. reflexivity.
Defined.

Lemma fetches_return_what_they_read_witness :
  let v := CurrentConfigBlockNumber Sim.system Sim.network "peer0" "orderer0" "testchannel"
             (Sim.start (Sim.config_with Sim.consensusAB) [] false) in
  ∃ path blockBytes block header,
    ReadFile_event path (Some blockBytes) ∈ emitted v
    ∧ Unmarshal blockBytes = Some block
    ∧ Block.Header block = Some header
    ∧ BlockHeader.Number header = 5%N.
Proof.
  intros v.
  apply (fetches_return_what_they_read Sim.system Sim.network "peer0" "orderer0"
           "testchannel" (Sim.start (Sim.config_with Sim.consensusAB) [] false)).
  vm_compute. reflexivity.
Defined.

Lemma GetConfig_decodes_the_first_transaction_witness :
  let s := Sim.start (Sim.config_with Sim.consensusAB) [] false in
  let b := GetConfigBlock Sim.system Sim.network "peer0" "orderer0" "testchannel" s in
  let g := GetConfig Sim.system Sim.network "peer0" "orderer0" "testchannel" s in
  ∃ block,
    res b = Ok block
    ∧ emitted g = emitted b
    ∧ res g = Ok (Some 1%positive)
    ∧ store (final g) = {[1%positive := Sim.config_with Sim.consensusAB]}.
Proof.
  intros s b g. eexists. split; [vm_compute; reflexivity|].
  edestruct (GetConfig_decodes_the_first_transaction Sim.system Sim.network
               "peer0" "orderer0" "testchannel" s) as (Hev & _ & _ & Hfirst).
  { vm_compute. reflexivity. }
  split; [exact Hev|]. vm_compute. split; reflexivity.
Defined.


Lemma file_is_written_before_it_is_signed_witness :
  let s := Sim.stored (Sim.config_with Sim.consensusAB)
                      (Sim.config_with Sim.consensus_bad_metadata) [] false in
  let o := UpdateConfig Sim.Compute Sim.system Sim.network "orderer0" "testchannel"
             (Some 1%positive) (Some 2%positive) "peer0" ["peer1"; "peer2"] s in
  let e := PeerAdminSession_event (Orderer:=string) "peer2"
             (SignConfigTx "/tmp/updateConfig/update.pb") (Some (mkSession (Some 0%Z) "")) in
  ∃ tempDir c u data signs,
    take 4 (emitted o)
    = [TempDir_event "updateConfig" (Some tempDir); Compute_event c u;
       WriteFile_event (filepath_Join tempDir "update.pb") data true] ++ signs
    ∧ Forall (λ e', is_sign_request e' = true ∧ completed e' = true
                    ∧ update_file_of e' = Some (filepath_Join tempDir "update.pb")) signs
    ∧ update_file_of e = Some (filepath_Join tempDir "update.pb").
Proof.
  intros s o e.
  apply (file_is_written_before_it_is_signed Sim.Compute Sim.system Sim.network
           "orderer0" "testchannel" (Some 1%positive) (Some 2%positive) "peer0" s o
           (take 4 (emitted o)) (drop 5 (emitted o)) e).
  - left. exists ["peer1"; "peer2"]. reflexivity.
  - vm_compute. reflexivity.
  - reflexivity.
Defined.

Lemma baseline_is_read_between_signing_and_submission_witness :
  let s := Sim.stored (Sim.config_with Sim.consensusAB)
                      (Sim.config_with Sim.consensus_bad_metadata) [] false in
  let o := UpdateConfig Sim.Compute Sim.system Sim.network "orderer0" "testchannel"
             (Some 1%positive) (Some 2%positive) "peer0" ["peer1"] s in
  let e := PeerAdminSession_event (Orderer:=string) "peer0"
             (ChannelUpdate "testchannel" "orderer0:7050" "/tmp/updateConfig/update.pb")
             (Some (mkSession (Some 0%Z) "Successfully submitted channel update")) in
  ∃ tempDir c u data signs base baseline answer,
    take 8 (emitted o)
    = [TempDir_event "updateConfig" (Some tempDir); Compute_event c u;
       WriteFile_event (filepath_Join tempDir "update.pb") data true]
      ++ signs ++ base
    ∧ Forall (λ e', is_sign_request e' = true ∧ completed e' = true
                    ∧ update_file_of e' = Some (filepath_Join tempDir "update.pb")) signs
    ∧ number_log Sim.network "peer0" "orderer0" "testchannel" (Ok baseline) base
    ∧ e = PeerAdminSession_event "peer0"
            (ChannelUpdate "testchannel" (OrdererAddress Sim.network "orderer0")
                           (filepath_Join tempDir "update.pb")) answer.
Proof.
  intros s o e.
  apply (baseline_is_read_between_signing_and_submission Sim.Compute Sim.system Sim.network
           "orderer0" "testchannel" (Some 1%positive) (Some 2%positive) "peer0" s o
           (take 8 (emitted o)) (drop 9 (emitted o)) e).
  - left. exists ["peer1"]. reflexivity.
  - vm_compute. reflexivity.
  - reflexivity.
Defined.

Lemma polls_follow_an_accepted_submission_witness :
  let s := Sim.stored (Sim.config_with Sim.consensusAB)
                      (Sim.config_with Sim.consensus_bad_metadata) [] true in
  let o := UpdateConfig Sim.Compute Sim.system Sim.network "orderer0" "testchannel"
             (Some 1%positive) (Some 2%positive) "peer0" [] s in
  let e := PeerAdminSession_event (Orderer:=string) "peer0"
             (ChannelUpdate "testchannel" "orderer0:7050" "/tmp/updateConfig/update.pb")
             (Some (mkSession (Some 0%Z) "Successfully submitted channel update")) in
  ∃ baseline,
    omap observed_number (take 7 (emitted o)) = [baseline]
    ∧ (accepted "Successfully submitted channel update" e = false →
       res o = Err (session_failure (session_of e))
       ∧ ∃ tempDir, drop 8 (emitted o) = [RemoveAll_event tempDir])
    ∧ (∀ vs v vs', omap observed_number (drop 8 (emitted o)) = vs ++ v :: vs' →
                   vs' ≠ [] → (v ≤ baseline)%N).
Proof.
  intros s o e.
  apply (polls_follow_an_accepted_submission Sim.Compute Sim.system Sim.network
           "orderer0" "testchannel" (Some 1%positive) (Some 2%positive) "peer0" s o
           (take 7 (emitted o)) (drop 8 (emitted o)) e).
  - left. exists []. reflexivity.
  - vm_compute. reflexivity.
  - reflexivity.
Defined.

Lemma failed_step_ends_the_update_witness :
  let s := Sim.stored (Config.mk 4 None) (Sim.config_with Sim.consensusAB) [] false in
  let o := UpdateConfig Sim.Compute Sim.system Sim.network "orderer0" "testchannel"
             (Some 1%positive) (Some 2%positive) "peer0" ["peer1"] s in
  res o = Err ComputeError
  ∧ Forall (λ e, is_write e = false ∧ is_sign_request e = false
                 ∧ is_submission e = false) (emitted o).
Proof.
  intros s o.
  apply (failed_step_ends_the_update Sim.Compute Sim.system Sim.network
           "orderer0" "testchannel" (Some 1%positive) (Some 2%positive) "peer0" s o)
    with (c := Config.mk 4 None) (u := Sim.config_with Sim.consensusAB).
  - left. exists ["peer1"]. reflexivity.
  - apply list_elem_of_lookup. exists 1. vm_compute. reflexivity.
  - reflexivity.
Defined.

Lemma UpdateConsensusMetadata_orderer_signs_peer_submits_witness :
  let o := UpdateConsensusMetadata Sim.Compute Sim.system Sim.network "peer0" "orderer0"
             "testchannel" (AddConsenter_mutator Wire.consenterC)
             (Sim.start (Sim.config_with Sim.consensusAB) [] false) in
  omap orderer_signer (emitted o) = ["orderer0"]
  ∧ ∃ e, e ∈ emitted o ∧ is_submission e = true.
Proof.
  intros o.
  apply (UpdateConsensusMetadata_orderer_signs_peer_submits Sim.Compute Sim.system
           Sim.network "peer0" "orderer0" "testchannel"
           (AddConsenter_mutator Wire.consenterC)
           (Sim.start (Sim.config_with Sim.consensusAB) [] false)).
  vm_compute. reflexivity.
Defined.

Lemma missing_ConsensusType_aborts_update_witness :
  let c := Config.mk 4 (Some (ConfigGroup.mk 0 ∅ ∅ ∅ "Admins")) in
  let s := Sim.start c [] false in
  let g := GetConfig Sim.system Sim.network "peer0" "orderer0" "testchannel" s in
  let o := UpdateConsensusMetadata Sim.Compute Sim.system Sim.network "peer0" "orderer0"
             "testchannel" (AddConsenter_mutator Wire.consenterC) s in
  res o = Err NilDereference ∧ emitted o = emitted g.
Proof.
  intros c s g o.
  apply (missing_ConsensusType_aborts_update Sim.Compute Sim.system Sim.network
           "peer0" "orderer0" "testchannel" (AddConsenter_mutator Wire.consenterC) s)
    with (a := 1%positive) (c := c).
  - vm_compute. reflexivity.
  - vm_compute. reflexivity.
  - right. exists (ConfigGroup.mk 0 ∅ ∅ ∅ "Admins"). split; [reflexivity|]. left.
    vm_compute. reflexivity.
Defined.

Lemma only_the_listed_signers_are_asked_witness :
  Forall (λ e, is_sign_request e = true →
               ∃ signer tempDir answer,
                 signer ∈ ["orderer1"; "orderer2"]
                 ∧ e = OrdererAdminSession_event signer "peer0"
                         (SignConfigTx (filepath_Join tempDir "update.pb")) answer)
    (emitted (UpdateOrdererConfig Sim.Compute Sim.system Sim.network "orderer0"
                "testchannel" (Some 1%positive) (Some 2%positive) "peer0"
                ["orderer1"; "orderer2"]
                (Sim.stored (Sim.config_with Sim.consensusAB)
                            (Sim.config_with Sim.consensus_bad_metadata) [] false))).
Proof.
  apply (only_the_listed_signers_are_asked Sim.Compute Sim.system Sim.network
           "orderer0" "testchannel" (Some 1%positive) (Some 2%positive) "peer0"
           (Sim.stored (Sim.config_with Sim.consensusAB)
                       (Sim.config_with Sim.consensus_bad_metadata) [] false)).
Defined.
